(** * mcp-dap-server: the debugger session tools of [tools.go]

    A shallow embedding of the thirteen tool handlers that [registerTools]
    installs on a [debuggerSession], together with the properties of the
    session life cycle, of the breakpoint requests and of the context
    snapshot that the design notes state about them.

    Conventions of the embedding.
    - Go [int] is [Z]; only comparisons with [0] occur, no arithmetic.
    - A Go [error] is the [string] of its message.
    - A [[]string] or [[]int] slice is a [list]; the nil slice is [[]],
      except for the [args] of [restart], which go into the request as
      they are: there the nil slice of an omitted parameter is [None].
    - A handler, a method of [debuggerSession] that takes the tool
      parameters and returns a result and an error, is a function
      [params -> M string] in the monad [M] below: it reads
      and writes the [World] and returns either the text of the single
      [TextContent] of its result or the error.  A mutation of [ds] that
      happened before an error was returned stays visible, as in Go.
    - [log.Printf] writes to standard error only and never influences
      control flow; it is left out. *)

From stdpp Require Import gmap strings list pretty.

(** ** The messages of the [go-dap] package that the handlers inspect *)

Module dap.

Module Response.
Record t := { Success : bool; Message : string }.
End Response.

Module Source.
Record t := { Path : string }.
End Source.

Module StackFrame.
Record t := {
    Id : Z;
    Name : string;
    Source : option Source.t;
    Line : Z;
    PresentationHint : string
  }.
End StackFrame.

Module Scope.
Record t := { Name : string; VariablesReference : Z }.
End Scope.

Module Variable_.
Record t := { Name : string; Type_ : string; Value : string }.
End Variable_.

Module Breakpoint.
Record t := { Id : Z; Verified : bool; Message : string; Line : Z }.
End Breakpoint.

Module Module_.
Record t := { Name : string; Path : string }.
End Module_.

(** What [ReadMessage] can return.  The handlers tell messages apart by
    a type switch; every concrete type they name has a constructor, and
    the three remaining constructors stand for any other response, event
    or (reverse) request, carrying the Go type name that [%T] prints. *)
Inductive Message :=
| StackTraceResponse (r : Response.t) (StackFrames : list StackFrame.t)
| ScopesResponse (r : Response.t) (Scopes : list Scope.t)
| VariablesResponse (r : Response.t) (Variables : list Variable_.t)
| EvaluateResponse (r : Response.t) (Result Type_ : string)
| SetBreakpointsResponse (r : Response.t) (Breakpoints : list Breakpoint.t)
| LoadedSourcesResponse (r : Response.t) (Sources : list Source.t)
| ModulesResponse (r : Response.t) (Modules : list Module_.t)
| ErrorResponse (r : Response.t)
| OtherResponse (ty : string) (r : Response.t)
| StoppedEvent (ThreadId : Z)
| TerminatedEvent
| OtherEvent (ty : string)
| ReverseRequest (ty : string).

(** [msg.(dap.ResponseMessage)] followed by [GetResponse()]. *)
Definition GetResponse (m : Message) : option Response.t :=
  match m with
  | StackTraceResponse r _ | ScopesResponse r _ | VariablesResponse r _
  | EvaluateResponse r _ _ | SetBreakpointsResponse r _
  | LoadedSourcesResponse r _ | ModulesResponse r _
  | ErrorResponse r | OtherResponse _ r => Some r
  | StoppedEvent _ | TerminatedEvent | OtherEvent _ | ReverseRequest _ => None
  end.

(** [msg.(dap.EventMessage)]. *)
Definition isEvent (m : Message) : bool :=
  match m with
  | StoppedEvent _ | TerminatedEvent | OtherEvent _ => true
  | _ => false
  end.

(** The text of [fmt.Sprintf("%T", msg)]. *)
Definition typeName (m : Message) : string :=
  match m with
  | StackTraceResponse _ _ => "*dap.StackTraceResponse"
  | ScopesResponse _ _ => "*dap.ScopesResponse"
  | VariablesResponse _ _ => "*dap.VariablesResponse"
  | EvaluateResponse _ _ _ => "*dap.EvaluateResponse"
  | SetBreakpointsResponse _ _ => "*dap.SetBreakpointsResponse"
  | LoadedSourcesResponse _ _ => "*dap.LoadedSourcesResponse"
  | ModulesResponse _ _ => "*dap.ModulesResponse"
  | ErrorResponse _ => "*dap.ErrorResponse"
  | OtherResponse ty _ => ty
  | StoppedEvent _ => "*dap.StoppedEvent"
  | TerminatedEvent => "*dap.TerminatedEvent"
  | OtherEvent ty => ty
  | ReverseRequest ty => ty
  end.

End dap.

(** ** Requests

    One constructor per request method of [DAPClient] that [tools.go]
    calls, with the arguments of the call. *)

Module RestartArguments.
(** The inner map of the argument of [RestartRequest]. *)
Record t := {
  request : string;
  mode : string;
  stopOnEntry : bool;
  args : option (list string);
  rebuild : bool
}.
End RestartArguments.

Inductive Request :=
| InitializeRequest
| LaunchRequest (mode program : string) (stopOnEntry : bool) (args : list string)
| AttachRequest (mode : string) (processId : Z)
| SetBreakpointsRequest (file : string) (lines : list Z)
| SetFunctionBreakpointsRequest (functions : list string)
| ConfigurationDoneRequest
| ContinueRequest (threadId : Z)
| NextRequest (threadId : Z)
| StepInRequest (threadId : Z)
| StepOutRequest (threadId : Z)
| PauseRequest (threadId : Z)
| StackTraceRequest (threadId start levels : Z)
| ScopesRequest (frameId : Z)
| VariablesRequest (variablesReference : Z)
| EvaluateRequest (expression : string) (frameId : Z) (context : string)
| SetVariableRequest (variablesReference : Z) (name value : string)
| RestartRequest (arguments : RestartArguments.t)
| TerminateRequest
| DisconnectRequest (terminateDebuggee : bool)
| LoadedSourcesRequest
| ModulesRequest
| DisassembleRequest (memoryReference : string) (offset count : Z).

(** ** The session and its environment *)

(** What one [ReadMessage] yields: a decoded message or a read error. *)
Inductive ReadResult :=
| RMsg (m : dap.Message)
| RErr (e : string).

(** Modelled from the spec: the [DAPClient] type and its methods live in a
    file of the repository that is not part of the sources at hand.  By the
    transport contract (send serialises one message; receive blocks until
    one complete message is decoded or returns an error when the stream is
    closed) a client is the address it dialled, the requests written so far
    ([sent], oldest first), the outcomes of the writes still to come
    ([sendErrs]: [Some e] fails that write with [e]; an exhausted script
    means success), the reads still to come ([inbox]; an exhausted script
    is the closed stream, which reads as the error [EOF]) and whether
    [Close] was called. *)
Record DAPClient := {
  addr : string;
  sent : list Request;
  sendErrs : list (option string);
  inbox : list ReadResult;
  closed : bool
}.

(** [exec.Cmd]: the command line and the [Process] field, which is nil
    until [Start] has succeeded. *)
Record Cmd := {
  cmd_Args : list string;
  Process : option nat
}.

Record debuggerSession := {
  cmd : option Cmd;
  client : option DAPClient;
  launchMode : string;
  programPath : string;
  programArgs : list string
}.

(** The session together with the operating system's view of the adapter
    subprocesses this server has started (the pids still running and the
    next fresh pid) and a record of every request the server has written
    on any connection, oldest first. *)
Record World := {
  ds : debuggerSession;
  running : list nat;
  nextPid : nat;
  wire : list Request
}.

(** How the operating system and a freshly spawned adapter answer one
    [debug] call: the outcome of [StdoutPipe] and of [Start], the complete
    lines the adapter prints on its standard output, and the scripts of the
    connection that [newDAPClient] opens. *)
Record Spawn := {
  pipeErr : option string;
  startErr : option string;
  stdout : list string;
  connSendErrs : list (option string);
  connInbox : list ReadResult
}.

Definition initialSession : debuggerSession :=
  {| cmd := None; client := None; launchMode := ""; programPath := "";
     programArgs := [] |}.

Definition initialWorld : World :=
  {| ds := initialSession; running := []; nextPid := 0; wire := [] |}.

(** ** The monad of the handlers *)

Inductive Res (A : Type) :=
| Ok (a : A)
| Err (e : string).
Arguments Ok {A} a.
Arguments Err {A} e.

Definition M (A : Type) : Type := World -> Res A * World.

#[global] Instance M_ret : MRet M := fun A a w => (Ok a, w).

#[global] Instance M_bind : MBind M := fun A B f m w =>
  match m w with
  | (Ok a, w1) => f a w1
  | (Err e, w1) => (Err e, w1)
  end.

(** [return nil, err]. *)
Definition fail {A} (e : string) : M A := fun w => (Err e, w).

Definition getSession : M debuggerSession := fun w => (Ok (ds w), w).

Definition modifySession (f : debuggerSession -> debuggerSession) : M unit :=
  fun w => (Ok tt, {| ds := f (ds w); running := running w; nextPid := nextPid w;
                      wire := wire w |}).

Definition set_cmd (c : option Cmd) (s : debuggerSession) : debuggerSession :=
  {| cmd := c; client := client s; launchMode := launchMode s;
     programPath := programPath s; programArgs := programArgs s |}.

Definition set_client (c : option DAPClient) (s : debuggerSession) : debuggerSession :=
  {| cmd := cmd s; client := c; launchMode := launchMode s;
     programPath := programPath s; programArgs := programArgs s |}.

Definition set_launch (m p : string) (a : list string) (s : debuggerSession)
  : debuggerSession :=
  {| cmd := cmd s; client := client s; launchMode := m;
     programPath := p; programArgs := a |}.

(** A call through a nil [ds.client] panics; every handler tests the
    pointer first, so no run reaches this error. *)
Definition nilClient : string := "invalid memory address or nil pointer dereference".

Definition EOF : string := "EOF".

(** Modelled from the spec: every [XxxRequest] method of the absent
    [DAPClient] serialises its request and writes it; the write either
    fails, leaving nothing on the wire, or appends the request to [sent]. *)
Definition send (r : Request) : M unit := fun w =>
  match client (ds w) with
  | None => (Err nilClient, w)
  | Some c =>
      let rest := tail (sendErrs c) in
      match head (sendErrs c) with
      | Some (Some e) =>
          (Err e,
           {| ds := set_client (Some {| addr := addr c; sent := sent c;
                                        sendErrs := rest; inbox := inbox c;
                                        closed := closed c |}) (ds w);
              running := running w; nextPid := nextPid w; wire := wire w |})
      | _ =>
          (Ok tt,
           {| ds := set_client (Some {| addr := addr c; sent := sent c ++ [r];
                                        sendErrs := rest; inbox := inbox c;
                                        closed := closed c |}) (ds w);
              running := running w; nextPid := nextPid w;
              wire := wire w ++ [r] |})
      end
  end.

(** A loop [for { msg, err := ReadMessage(); if err != nil { return err };
    switch ... }] whose body only inspects the message: [body m] is
    [Some r] when the body leaves the loop with [r] and [None] when it
    goes round again.  The recursion is on the reads still to come. *)
Fixpoint readLoop {A} (body : dap.Message -> option (Res A))
    (l : list ReadResult) : Res A * list ReadResult :=
  match l with
  | [] => (Err EOF, [])
  | RErr e :: rest => (Err e, rest)
  | RMsg m :: rest =>
      match body m with
      | Some r => (r, rest)
      | None => readLoop body rest
      end
  end.

Definition readUntil {A} (body : dap.Message -> option (Res A)) : M A := fun w =>
  match client (ds w) with
  | None => (Err nilClient, w)
  | Some c =>
      let '(r, rest) := readLoop body (inbox c) in
      (r,
       {| ds := set_client (Some {| addr := addr c; sent := sent c;
                                    sendErrs := sendErrs c; inbox := rest;
                                    closed := closed c |}) (ds w);
          running := running w; nextPid := nextPid w; wire := wire w |})
  end.

(** Modelled from the spec: [ReadMessage] of the absent [DAPClient]
    returns the next decoded message or the read error. *)
Definition ReadMessage : M dap.Message := readUntil (fun m => Some (Ok m)).

(** [try]: run [m] and hand its outcome to the caller instead of
    propagating the error ([if err := ...; err != nil { ... continue }]). *)
Definition attempt {A} (m : M A) : M (Res A) := fun w =>
  let '(r, w1) := m w in (Ok r, w1).

(** Modelled from the spec: [Close] of the absent [DAPClient] closes the
    connection. *)
Definition Close : M unit := fun w =>
  match client (ds w) with
  | None => (Err nilClient, w)
  | Some c =>
      (Ok tt,
       {| ds := set_client (Some {| addr := addr c; sent := sent c;
                                    sendErrs := sendErrs c; inbox := inbox c;
                                    closed := true |}) (ds w);
          running := running w; nextPid := nextPid w; wire := wire w |})
  end.

(** [Process.Kill]: fails when the process has already exited. *)
Definition Kill (pid : nat) : M unit := fun w =>
  if decide (pid ∈ running w) then (Ok tt, w)
  else (Err "os: process already finished", w).

(** [cmd.Wait]: returns once the process has exited. *)
Definition Wait (pid : nat) : M unit := fun w =>
  (Ok tt,
   {| ds := ds w; running := filter (λ q, q ≠ pid) (running w);
      nextPid := nextPid w; wire := wire w |}).

(** ** Tool parameters *)

Module BreakpointSpec.
Record t := { File : string; Line : Z; Function : string }.
End BreakpointSpec.

Module DebugParams.
Record t := {
  Mode : string;
  Path : string;
  Args : list string;
  ProcessID : Z;
  Breakpoints : list BreakpointSpec.t;
  StopOnEntry : bool;
  Port : string
}.
End DebugParams.

Module ContextParams.
Record t := { ThreadID : Z; FrameID : Z; MaxFrames : Z }.
End ContextParams.

Module StepParams.
Record t := { Mode : string; ThreadID : Z }.
End StepParams.

Module InfoParams.
Record t := { Type_ : string }.
End InfoParams.

Module BreakpointToolParams.
Record t := { File : string; Line : Z; Function : string }.
End BreakpointToolParams.

Module ClearBreakpointsParams.
Record t := { File : string; All : bool }.
End ClearBreakpointsParams.

Module ContinueParams.
Record t := { ThreadID : Z; To : option BreakpointSpec.t }.
End ContinueParams.

Module PauseParams.
Record t := { ThreadID : Z }.
End PauseParams.

Module EvaluateParams.
Record t := { Expression : string; FrameID : Z; Context : string }.
End EvaluateParams.

Module SetVariableParams.
Record t := { VariablesReference : Z; Name : string; Value : string }.
End SetVariableParams.

Module RestartParams.
(** [Args] is [None] when the parameter is omitted (the nil slice, which
    the request carries as it is) and [Some l] when it is given. *)
Record t := { Args : option (list string) }.
End RestartParams.

Module DisassembleParams.
Record t := {
  MemoryReference : string;
  InstructionOffset : Z;
  InstructionCount : Z
}.
End DisassembleParams.

(** ** Helpers shared by the handlers *)

(** The line feed that the Go sources write as a backslash followed by n. *)
Definition LF : string := String (Ascii.ascii_of_nat 10) "".

Definition notStarted : string := "debugger not started".

(** [if ds.client == nil { return nil, fmt.Errorf("debugger not started") }] *)
Definition requireClient : M unit := fun w =>
  match client (ds w) with
  | None => (Err notStarted, w)
  | Some _ => (Ok tt, w)
  end.

Definition readAndValidateResponse (errorPrefix : string) : M unit :=
  readUntil (λ msg,
    match dap.GetResponse msg with
    | Some resp =>
        if dap.Response.Success resp then Some (Ok tt)
        else Some (Err (errorPrefix +:+ ": " +:+ dap.Response.Message resp))
    | None => None
    end).

(** ** The context snapshot *)

Definition currentLocation (frames : list dap.StackFrame.t) : string :=
  match frames with
  | [] => ""
  | top :: _ =>
      "## Current Location" +:+ LF +:+
      "Function: " +:+ dap.StackFrame.Name top +:+ LF +:+
      match dap.StackFrame.Source top with
      | Some src =>
          "File: " +:+ dap.Source.Path src +:+ ":" +:+
          pretty (dap.StackFrame.Line top) +:+ LF
      | None => ""
      end +:+ LF
  end.

Definition frameLine (i : Z) (frame : dap.StackFrame.t) : string :=
  "#" +:+ pretty i +:+ " (Frame ID: " +:+ pretty (dap.StackFrame.Id frame) +:+
  ") " +:+ dap.StackFrame.Name frame +:+
  match dap.StackFrame.Source frame with
  | Some src =>
      if decide (dap.Source.Path src ≠ "")
      then " at " +:+ dap.Source.Path src +:+ ":" +:+
           pretty (dap.StackFrame.Line frame)
      else ""
  | None => ""
  end +:+
  (if decide (dap.StackFrame.PresentationHint frame = "subtle")
   then " (runtime)" else "") +:+ LF.

Fixpoint frameLines (i : Z) (frames : list dap.StackFrame.t) : string :=
  match frames with
  | [] => ""
  | frame :: rest => frameLine i frame +:+ frameLines (i + 1)%Z rest
  end.

Definition stackTrace (frames : list dap.StackFrame.t) : string :=
  "## Stack Trace" +:+ LF +:+ frameLines 0%Z frames +:+ LF.

Definition variableLine (v : dap.Variable_.t) : string :=
  "  " +:+ dap.Variable_.Name v +:+
  (if decide (dap.Variable_.Type_ v ≠ "")
   then " (" +:+ dap.Variable_.Type_ v +:+ ")" else "") +:+
  " = " +:+ dap.Variable_.Value v +:+ LF.

Fixpoint variableLines (vars : list dap.Variable_.t) : string :=
  match vars with
  | [] => ""
  | v :: rest => variableLine v +:+ variableLines rest
  end.

Definition variablesHeading : string := "## Variables" +:+ LF.
Definition scopesUnavailable : string := "(unable to retrieve scopes)" +:+ LF.
Definition variablesUnavailable : string := "  (unable to retrieve variables)" +:+ LF.

Definition unexpectedType (msg : dap.Message) : string :=
  "unexpected response type: " +:+ dap.typeName msg.

(** The body of the loop that waits for the [StackTraceResponse]. *)
Definition onStackTrace (msg : dap.Message) : option (Res (list dap.StackFrame.t)) :=
  match msg with
  | dap.StackTraceResponse resp frames =>
      if dap.Response.Success resp then Some (Ok frames)
      else Some (Err ("unable to get stack trace: " +:+ dap.Response.Message resp))
  | _ => if dap.isEvent msg then None else Some (Err (unexpectedType msg))
  end.

(** The body of the loop that waits for the [ScopesResponse]; [Ok None]
    is the exit through the branch that writes the scopes marker. *)
Definition onScopes (msg : dap.Message) : option (Res (option (list dap.Scope.t))) :=
  match msg with
  | dap.ScopesResponse resp scopes =>
      if dap.Response.Success resp then Some (Ok (Some scopes))
      else Some (Ok None)
  | _ => if dap.isEvent msg then None else Some (Err (unexpectedType msg))
  end.

(** One turn of [for _, scope := range scopes]: the text it appends. *)
Definition scopeText (scope : dap.Scope.t) : M string :=
  body ←
    (if decide (0 < dap.Scope.VariablesReference scope)%Z then
       sr ← attempt (send (VariablesRequest (dap.Scope.VariablesReference scope)));
       match sr with
       | Err _ => mret variablesUnavailable
       | Ok _ =>
           rr ← attempt ReadMessage;
           match rr with
           | Err _ => mret variablesUnavailable
           | Ok (dap.VariablesResponse varResp vars) =>
               if dap.Response.Success varResp
               then mret (variableLines vars)
               else mret variablesUnavailable
           | Ok _ => mret variablesUnavailable
           end
       end
     else mret "");
  mret ("### " +:+ dap.Scope.Name scope +:+ LF +:+ body).

Fixpoint scopesText (scopes : list dap.Scope.t) : M string :=
  match scopes with
  | [] => mret ""
  | scope :: rest =>
      a ← scopeText scope;
      b ← scopesText rest;
      mret (a +:+ b)
  end.

Definition targetFrame (frameID : Z) (frames : list dap.StackFrame.t) : Z :=
  match frames with
  | top :: _ => if decide (frameID = 0%Z) then dap.StackFrame.Id top else frameID
  | [] => frameID
  end.

Definition getFullContext (threadID frameID maxFrames : Z) : M string :=
  requireClient;;
  send (StackTraceRequest threadID 0%Z maxFrames);;
  frames ← readUntil onStackTrace;
  let result := currentLocation frames +:+ stackTrace frames in
  send (ScopesRequest (targetFrame frameID frames));;
  got ← readUntil onScopes;
  match got with
  | None => mret (result +:+ variablesHeading +:+ scopesUnavailable)
  | Some [] => mret result
  | Some (scope :: rest) =>
      vars ← scopesText (scope :: rest);
      mret (result +:+ variablesHeading +:+ vars)
  end.

(** ** The handlers *)

Definition clearBreakpoints (params : ClearBreakpointsParams.t) : M string :=
  requireClient;;
  if ClearBreakpointsParams.All params then
    send (SetFunctionBreakpointsRequest []);;
    ReadMessage;;
    mret "Cleared all breakpoints"
  else if decide (ClearBreakpointsParams.File params ≠ "") then
    send (SetBreakpointsRequest (ClearBreakpointsParams.File params) []);;
    ReadMessage;;
    mret ("Cleared breakpoints in: " +:+ ClearBreakpointsParams.File params)
  else fail "specify 'file' or 'all'".

(** How a resume-type handler leaves its wait loop. *)
Inductive Halt :=
| Stopped (threadId : Z)
| Terminated.

(** The body of the wait loop of [continueExecution] and [step]. *)
Definition onHalt (what : string) (msg : dap.Message) : option (Res Halt) :=
  match dap.GetResponse msg with
  | Some resp =>
      if dap.Response.Success resp then None
      else Some (Err (what +:+ " failed: " +:+ dap.Response.Message resp))
  | None =>
      match msg with
      | dap.StoppedEvent threadId => Some (Ok (Stopped threadId))
      | dap.TerminatedEvent => Some (Ok Terminated)
      | _ => None
      end
  end.

Definition afterHalt (h : Halt) : M string :=
  match h with
  | Stopped threadId => getFullContext threadId 0%Z 20%Z
  | Terminated => mret "Program terminated"
  end.

Definition continueExecution (params : ContinueParams.t) : M string :=
  requireClient;;
  match ContinueParams.To params with
  | Some to =>
      (if decide (BreakpointSpec.Function to ≠ "") then
         send (SetFunctionBreakpointsRequest [BreakpointSpec.Function to])
       else if decide (BreakpointSpec.File to ≠ "" ∧ (0 < BreakpointSpec.Line to)%Z) then
         send (SetBreakpointsRequest (BreakpointSpec.File to) [BreakpointSpec.Line to])
       else mret tt);;
      ReadMessage;;
      mret tt
  | None => mret tt
  end;;
  send (ContinueRequest (ContinueParams.ThreadID params));;
  h ← readUntil (onHalt "continue");
  afterHalt h.

Definition pauseExecution (params : PauseParams.t) : M string :=
  requireClient;;
  send (PauseRequest (PauseParams.ThreadID params));;
  readAndValidateResponse "unable to pause execution";;
  mret "Paused execution".

Definition onEvaluate (msg : dap.Message) : option (Res string) :=
  match msg with
  | dap.EvaluateResponse resp result type =>
      if dap.Response.Success resp then
        Some (Ok (if decide (type ≠ "")
                  then result +:+ " (type: " +:+ type +:+ ")"
                  else result))
      else Some (Err ("unable to evaluate expression: " +:+ dap.Response.Message resp))
  | _ => if dap.isEvent msg then None else Some (Err (unexpectedType msg))
  end.

Definition evaluateExpression (params : EvaluateParams.t) : M string :=
  requireClient;;
  let context :=
    if decide (EvaluateParams.Context params = "") then "repl"
    else EvaluateParams.Context params in
  send (EvaluateRequest (EvaluateParams.Expression params)
                        (EvaluateParams.FrameID params) context);;
  readUntil onEvaluate.

Definition setVariable (params : SetVariableParams.t) : M string :=
  requireClient;;
  send (SetVariableRequest (SetVariableParams.VariablesReference params)
                           (SetVariableParams.Name params)
                           (SetVariableParams.Value params));;
  msg ← ReadMessage;
  match dap.GetResponse msg with
  | Some resp =>
      if dap.Response.Success resp then
        mret ("Set variable " +:+ SetVariableParams.Name params +:+ " to " +:+
              SetVariableParams.Value params)
      else fail ("unable to set variable: " +:+ dap.Response.Message resp)
  | None => fail "unexpected response type"
  end.

Definition restartDebugger (params : RestartParams.t) : M string :=
  requireClient;;
  send (RestartRequest
          {| RestartArguments.request := "launch";
             RestartArguments.mode := "exec";
             RestartArguments.stopOnEntry := false;
             RestartArguments.args := RestartParams.Args params;
             RestartArguments.rebuild := false |});;
  readAndValidateResponse "unable to restart debugger";;
  mret "Restarted debugging session".

Fixpoint sourceLines (srcs : list dap.Source.t) : string :=
  match srcs with
  | [] => ""
  | src :: rest => "  " +:+ dap.Source.Path src +:+ LF +:+ sourceLines rest
  end.

Fixpoint moduleLines (mods : list dap.Module_.t) : string :=
  match mods with
  | [] => ""
  | mod_ :: rest =>
      "  " +:+ dap.Module_.Name mod_ +:+ " (" +:+ dap.Module_.Path mod_ +:+ ")" +:+
      LF +:+ moduleLines rest
  end.

Definition info (params : InfoParams.t) : M string :=
  requireClient;;
  if decide (InfoParams.Type_ params = "sources") then
    send LoadedSourcesRequest;;
    msg ← ReadMessage;
    match msg with
    | dap.LoadedSourcesResponse resp sources =>
        if dap.Response.Success resp
        then mret ("Loaded Sources:" +:+ LF +:+ sourceLines sources)
        else fail ("failed to get loaded sources: " +:+ dap.Response.Message resp)
    | _ => fail "unexpected response type for loaded sources"
    end
  else if decide (InfoParams.Type_ params = "modules") then
    send ModulesRequest;;
    msg ← ReadMessage;
    match msg with
    | dap.ModulesResponse resp modules =>
        if dap.Response.Success resp
        then mret ("Loaded Modules:" +:+ LF +:+ moduleLines modules)
        else fail ("failed to get modules: " +:+ dap.Response.Message resp)
    | _ => fail "unexpected response type for modules"
    end
  else fail ("invalid type: " +:+ InfoParams.Type_ params +:+
             " (must be 'sources' or 'modules')").

Definition disassembleCode (params : DisassembleParams.t) : M string :=
  requireClient;;
  send (DisassembleRequest (DisassembleParams.MemoryReference params)
                           (DisassembleParams.InstructionOffset params)
                           (DisassembleParams.InstructionCount params));;
  msg ← ReadMessage;
  match dap.GetResponse msg with
  | Some resp =>
      if dap.Response.Success resp then mret "Disassembled code"
      else fail ("unable to disassemble: " +:+ dap.Response.Message resp)
  | None => fail "unexpected response type"
  end.

(** The block of [stop] that ends the debuggee: terminate, disconnect,
    close, and forget the client.  The two requests are written without
    waiting for an answer, and a failed write is only logged. *)
Definition terminateDebuggee : M unit :=
  attempt (send TerminateRequest);;
  attempt (send (DisconnectRequest true));;
  Close;;
  modifySession (set_client None).

(** The block of [stop] that kills the adapter process, waits for it and
    forgets the handle.  A failed kill is at most logged. *)
Definition killDebugger (pid : nat) : M unit :=
  attempt (Kill pid);;
  Wait pid;;
  modifySession (set_cmd None).

Definition stop (_ : unit) : M string :=
  s ← getSession;
  match cmd s, client s with
  | None, None => mret "No debug session active"
  | _, _ =>
      match client s with
      | Some _ => terminateDebuggee
      | None => mret tt
      end;;
      match cmd s with
      | Some c =>
          match Process c with
          | Some pid => killDebugger pid
          | None => mret tt
          end
      | None => mret tt
      end;;
      modifySession (set_launch "" "" []);;
      mret "Debug session stopped"
  end.

(** [exec.Command("dlv", "dap", "--listen", port, "--log", "--log-output",
    "dap")] assigned to [ds.cmd]. *)
Definition execCommand (port : string) : M unit :=
  modifySession (set_cmd (Some
    {| cmd_Args := ["dlv"; "dap"; "--listen"; port; "--log"; "--log-output"; "dap"];
       Process := None |})).

Definition StdoutPipe (env : Spawn) : M unit := fun w =>
  match pipeErr env with
  | Some e => (Err e, w)
  | None => (Ok tt, w)
  end.

(** [ds.cmd.Start()]: on success the process is running under a fresh pid
    and [ds.cmd.Process] is set. *)
Definition Start (env : Spawn) : M unit := fun w =>
  match startErr env with
  | Some e => (Err e, w)
  | None =>
      match cmd (ds w) with
      | None => (Err nilClient, w)
      | Some c =>
          (Ok tt,
           {| ds := set_cmd (Some {| cmd_Args := cmd_Args c;
                                     Process := Some (nextPid w) |}) (ds w);
              running := running w ++ [nextPid w];
              nextPid := S (nextPid w); wire := wire w |})
      end
  end.

(** The loop over [r.ReadString] that waits for the readiness line. *)
Fixpoint waitListening (lines : list string) : Res unit :=
  match lines with
  | [] => Err EOF
  | s :: rest =>
      if String.prefix "DAP server listening at" s then Ok tt
      else waitListening rest
  end.

(** Modelled from the spec: [newDAPClient] of the absent [DAPClient] file
    opens the connection to the adapter's listen endpoint.  It returns a
    client and no error, so [debug] has no failure of it to handle. *)
Definition newDAPClient (env : Spawn) (address : string) : M unit :=
  modifySession (set_client (Some
    {| addr := address; sent := []; sendErrs := connSendErrs env;
       inbox := connInbox env; closed := false |})).

(** One turn of [for _, bp := range params.Arguments.Breakpoints]. *)
Definition setInitialBreakpoint (bp : BreakpointSpec.t) : M unit :=
  if decide (BreakpointSpec.Function bp ≠ "") then
    send (SetFunctionBreakpointsRequest [BreakpointSpec.Function bp]);;
    readAndValidateResponse "unable to set function breakpoint"
  else if decide (BreakpointSpec.File bp ≠ "" ∧ (0 < BreakpointSpec.Line bp)%Z) then
    send (SetBreakpointsRequest (BreakpointSpec.File bp) [BreakpointSpec.Line bp]);;
    ReadMessage;;
    mret tt
  else mret tt.

Fixpoint setInitialBreakpoints (bps : list BreakpointSpec.t) : M unit :=
  match bps with
  | [] => mret tt
  | bp :: rest => setInitialBreakpoint bp;; setInitialBreakpoints rest
  end.

(** The body of the wait loop of [debug]. *)
Definition onFirstHalt (msg : dap.Message) : option (Res unit) :=
  match msg with
  | dap.StoppedEvent _ | dap.TerminatedEvent => Some (Ok tt)
  | _ => None
  end.

Definition listenPort (p : string) : string :=
  let port := if decide (p = "") then "9090" else p in
  if String.prefix ":" port then port else ":" +:+ port.

Definition validMode (mode : string) : bool :=
  bool_decide (mode = "source" ∨ mode = "binary" ∨ mode = "attach").

(** [len(Breakpoints) > 0 && !StopOnEntry] *)
Definition runsToBreakpoint (params : DebugParams.t) : bool :=
  match DebugParams.Breakpoints params with
  | [] => false
  | _ :: _ => negb (DebugParams.StopOnEntry params)
  end.

Definition startedText (path : string) : string :=
  "Debug session started for " +:+ path +:+
  ". Use 'breakpoint' to set breakpoints and 'continue' to run.".

(** The switch on [mode] and the test of its required parameter. *)
Definition checkDebugParams (params : DebugParams.t) : M unit :=
  let mode := DebugParams.Mode params in
  if negb (validMode mode) then
    fail ("invalid mode: " +:+ mode +:+ " (must be 'source', 'binary', or 'attach')")
  else if decide (mode = "attach") then
    if decide (DebugParams.ProcessID params = 0%Z)
    then fail "processId is required for attach mode"
    else mret tt
  else
    if decide (DebugParams.Path params = "")
    then fail ("path is required for " +:+ mode +:+ " mode")
    else mret tt.

Definition awaitReady (env : Spawn) : M unit := fun w =>
  (waitListening (stdout env), w).

(** The [switch mode] that issues exactly one of launch and attach. *)
Definition launchOrAttach (params : DebugParams.t) : Request :=
  let mode := DebugParams.Mode params in
  let stopOnEntry :=
    DebugParams.StopOnEntry params ||
    bool_decide (DebugParams.Breakpoints params = []) in
  if decide (mode = "source") then
    LaunchRequest "debug" (DebugParams.Path params) stopOnEntry
                  (DebugParams.Args params)
  else if decide (mode = "binary") then
    LaunchRequest "exec" (DebugParams.Path params) stopOnEntry
                  (DebugParams.Args params)
  else
    AttachRequest "local" (DebugParams.ProcessID params).

(** [debug] up to and including the configuration-done round trip. *)
Definition startSession (env : Spawn) (params : DebugParams.t) : M unit :=
  let port := listenPort (DebugParams.Port params) in
  checkDebugParams params;;
  execCommand port;;
  StdoutPipe env;;
  Start env;;
  awaitReady env;;
  newDAPClient env ("localhost" +:+ port);;
  send InitializeRequest;;
  ReadMessage;;
  modifySession (set_launch (DebugParams.Mode params) (DebugParams.Path params)
                            (DebugParams.Args params));;
  send (launchOrAttach params);;
  readAndValidateResponse "unable to start debug session";;
  setInitialBreakpoints (DebugParams.Breakpoints params);;
  send ConfigurationDoneRequest;;
  readAndValidateResponse "unable to complete configuration".

(** The end of [debug]: continue to the first breakpoint, or report that
    the session stands at its entry. *)
Definition firstStop (params : DebugParams.t) : M string :=
  if runsToBreakpoint params then
    send (ContinueRequest 0%Z);;
    readUntil onFirstHalt;;
    getFullContext 1%Z 0%Z 20%Z
  else
    mret (startedText (DebugParams.Path params)).

Definition debug (env : Spawn) (params : DebugParams.t) : M string :=
  startSession env params;;
  firstStop params.

Definition context (params : ContextParams.t) : M string :=
  let threadID :=
    if decide (ContextParams.ThreadID params = 0%Z) then 1%Z
    else ContextParams.ThreadID params in
  let maxFrames :=
    if decide (ContextParams.MaxFrames params = 0%Z) then 20%Z
    else ContextParams.MaxFrames params in
  getFullContext threadID (ContextParams.FrameID params) maxFrames.

Definition step (params : StepParams.t) : M string :=
  requireClient;;
  let threadID :=
    if decide (StepParams.ThreadID params = 0%Z) then 1%Z
    else StepParams.ThreadID params in
  (if decide (StepParams.Mode params = "over") then send (NextRequest threadID)
   else if decide (StepParams.Mode params = "in") then send (StepInRequest threadID)
   else if decide (StepParams.Mode params = "out") then send (StepOutRequest threadID)
   else fail ("invalid step mode: " +:+ StepParams.Mode params +:+
              " (must be 'over', 'in', or 'out')"));;
  h ← readUntil (onHalt "step");
  afterHalt h.

Definition breakpoint (params : BreakpointToolParams.t) : M string :=
  requireClient;;
  if decide (BreakpointToolParams.Function params ≠ "") then
    send (SetFunctionBreakpointsRequest [BreakpointToolParams.Function params]);;
    readAndValidateResponse "unable to set function breakpoint";;
    mret ("Breakpoint set on function: " +:+ BreakpointToolParams.Function params)
  else if decide (BreakpointToolParams.File params = "" ∨
                  BreakpointToolParams.Line params = 0%Z) then
    fail "either function or file+line is required"
  else
    send (SetBreakpointsRequest (BreakpointToolParams.File params)
                                [BreakpointToolParams.Line params]);;
    msg ← ReadMessage;
    match msg with
    | dap.SetBreakpointsResponse _ (bp :: _) =>
        if dap.Breakpoint.Verified bp then
          mret ("Breakpoint " +:+ pretty (dap.Breakpoint.Id bp) +:+ " set at " +:+
                BreakpointToolParams.File params +:+ ":" +:+
                pretty (dap.Breakpoint.Line bp))
        else fail ("breakpoint not verified: " +:+ dap.Breakpoint.Message bp)
    | dap.ErrorResponse resp => fail (dap.Response.Message resp)
    | _ => fail "unexpected response"
    end.

(** ** The tool table of [registerTools] *)

Inductive Call :=
| CallDebug (env : Spawn) (params : DebugParams.t)
| CallStop
| CallRestart (params : RestartParams.t)
| CallBreakpoint (params : BreakpointToolParams.t)
| CallClearBreakpoints (params : ClearBreakpointsParams.t)
| CallContinue (params : ContinueParams.t)
| CallStep (params : StepParams.t)
| CallPause (params : PauseParams.t)
| CallContext (params : ContextParams.t)
| CallEvaluate (params : EvaluateParams.t)
| CallSetVariable (params : SetVariableParams.t)
| CallInfo (params : InfoParams.t)
| CallDisassemble (params : DisassembleParams.t).

Definition callTool (c : Call) : M string :=
  match c with
  | CallDebug env params => debug env params
  | CallStop => stop tt
  | CallRestart params => restartDebugger params
  | CallBreakpoint params => breakpoint params
  | CallClearBreakpoints params => clearBreakpoints params
  | CallContinue params => continueExecution params
  | CallStep params => step params
  | CallPause params => pauseExecution params
  | CallContext params => context params
  | CallEvaluate params => evaluateExpression params
  | CallSetVariable params => setVariable params
  | CallInfo params => info params
  | CallDisassemble params => disassembleCode params
  end.

(** The world after a sequence of tool calls, one after the other. *)
Definition serve (calls : list Call) (w : World) : World :=
  foldl (λ w c, (callTool c w).2) w calls.

(** The worlds the server can be in. *)
Definition reachable (w : World) : Prop :=
  ∃ calls, w = serve calls initialWorld.

(** ** What is on the wire, and the adapter's breakpoint tables *)

Definition sentOf (w : World) : list Request :=
  match client (ds w) with
  | Some c => sent c
  | None => []
  end.

Definition inboxOf (w : World) : list ReadResult :=
  match client (ds w) with
  | Some c => inbox c
  | None => []
  end.

Definition sendErrsOf (w : World) : list (option string) :=
  match client (ds w) with
  | Some c => sendErrs c
  | None => []
  end.

(** Modelled from the spec: the adapter is an external process; its two
    breakpoint tables follow the design notes, section 4.4: each set
    breakpoints request for a file replaces the entire table of that file,
    and each set function breakpoints request replaces the whole function
    table.  No other request touches a table. *)
Record Tables := {
  fileTable : gmap string (list Z);
  functionTable : list string
}.

Definition noTables : Tables := {| fileTable := ∅; functionTable := [] |}.

Definition applyRequest (t : Tables) (r : Request) : Tables :=
  match r with
  | SetBreakpointsRequest file lines =>
      {| fileTable := <[file := lines]> (fileTable t);
         functionTable := functionTable t |}
  | SetFunctionBreakpointsRequest functions =>
      {| fileTable := fileTable t; functionTable := functions |}
  | _ => t
  end.

Definition tablesAfter (reqs : list Request) : Tables :=
  foldl applyRequest noTables reqs.

(** The lines armed in [file]. *)
Definition armed (t : Tables) (file : string) : list Z :=
  default [] (fileTable t !! file).

(** ** Relations between worlds *)

(** [steps R m]: whatever [m] returns, it takes a world to an [R]-related
    one. *)
Definition steps {A} (R : relation World) (m : M A) : Prop :=
  ∀ w, R w (m w).2.

(** [emits P w w']: from [w] to [w'] the server has written on the
    connection of the session a list of requests that all satisfy [P], and
    has neither touched the subprocess handle nor any process. *)
Definition emits (P : Request → Prop) : relation World := λ w w',
  cmd (ds w') = cmd (ds w) ∧ running w' = running w ∧ nextPid w' = nextPid w ∧
  ∃ l, wire w' = wire w ++ l ∧ sentOf w' = sentOf w ++ l ∧ Forall P l.

(** [wireEmits P w w']: the same about the wire alone, whatever happens
    to the session. *)
Definition wireEmits (P : Request → Prop) : relation World := λ w w',
  ∃ l, wire w' = wire w ++ l ∧ Forall P l.

(** [wrote l w w']: from [w] to [w'] exactly the requests [l] were
    written on the session's connection, which kept its address; the
    handle and the processes are untouched. *)
Definition wrote (l : list Request) : relation World := λ w w',
  cmd (ds w') = cmd (ds w) ∧ running w' = running w ∧ nextPid w' = nextPid w ∧
  wire w' = wire w ++ l ∧ sentOf w' = sentOf w ++ l.

(** No process is stopped. *)
Definition runningGrows : relation World := λ w w', running w ⊆ running w'.

(** The handle and the processes are as they were. *)
Definition keepsProcs : relation World := λ w w',
  cmd (ds w') = cmd (ds w) ∧ running w' = running w ∧ nextPid w' = nextPid w.

(** The launch parameters stored in the session are as they were. *)
Definition keepsLaunch : relation World := λ w w',
  launchMode (ds w') = launchMode (ds w) ∧
  programPath (ds w') = programPath (ds w) ∧
  programArgs (ds w') = programArgs (ds w).

(** Every running process and the process of the stored handle were
    started by this server: their pids are below the next fresh one. *)
Definition knownPids (w : World) : Prop :=
  (∀ pid, pid ∈ running w → pid < nextPid w) ∧
  (∀ c pid, cmd (ds w) = Some c → Process c = Some pid → pid < nextPid w).

Definition keepsKnownPids : relation World := λ w w', knownPids w → knownPids w'.

(** ** Classes of requests and messages *)

(** A set-breakpoints request that carries at most one line. *)
Definition singleLine (r : Request) : Prop :=
  match r with
  | SetBreakpointsRequest _ lines => length lines ≤ 1
  | _ => True
  end.

(** The requests of the context snapshot. *)
Definition inspects (r : Request) : Prop :=
  match r with
  | StackTraceRequest _ _ _ | ScopesRequest _ | VariablesRequest _ => True
  | _ => False
  end.


(** The requests by which [stop] ends a debuggee. *)
Definition endsSession (r : Request) : bool :=
  match r with
  | TerminateRequest | DisconnectRequest _ => true
  | _ => false
  end.

(** Requests that leave the breakpoint tables alone. *)
Definition leavesTables (r : Request) : Prop :=
  match r with
  | SetBreakpointsRequest _ _ | SetFunctionBreakpointsRequest _ => False
  | _ => True
  end.

Definition isSetBreakpoints (r : Request) : bool :=
  match r with
  | SetBreakpointsRequest _ _ => true
  | _ => false
  end.

(** The requests that re-set the table of [file]. *)
Definition touches (file : string) (r : Request) : Prop :=
  match r with
  | SetBreakpointsRequest f _ => f = file
  | _ => False
  end.

(** ** What [debug] and [restartDebugger] write *)

(** The parameters that pass the validation of [debug]. *)
Definition validParams (p : DebugParams.t) : Prop :=
  ((DebugParams.Mode p = "source" ∨ DebugParams.Mode p = "binary") ∧
   DebugParams.Path p ≠ "") ∨
  (DebugParams.Mode p = "attach" ∧ DebugParams.ProcessID p ≠ 0%Z).

(** The requests that the breakpoint loop of [debug] writes. *)
Definition initialRequest (bp : BreakpointSpec.t) : list Request :=
  if decide (BreakpointSpec.Function bp ≠ "") then
    [SetFunctionBreakpointsRequest [BreakpointSpec.Function bp]]
  else if decide (BreakpointSpec.File bp ≠ "" ∧ (0 < BreakpointSpec.Line bp)%Z) then
    [SetBreakpointsRequest (BreakpointSpec.File bp) [BreakpointSpec.Line bp]]
  else [].

(** The requests that [debug] writes before it resumes or returns. *)
Definition startRequests (p : DebugParams.t) : list Request :=
  [InitializeRequest; launchOrAttach p] ++
  concat (initialRequest <$> DebugParams.Breakpoints p) ++
  [ConfigurationDoneRequest].

(** The world in which [Start] has just succeeded. *)
Definition started (p : DebugParams.t) (w : World) : World :=
  {| ds := set_cmd (Some {| cmd_Args := ["dlv"; "dap"; "--listen";
                                         listenPort (DebugParams.Port p);
                                         "--log"; "--log-output"; "dap"];
                            Process := Some (nextPid w) |}) (ds w);
     running := running w ++ [nextPid w];
     nextPid := S (nextPid w);
     wire := wire w |}.

(** The world in which [debug] has spawned the adapter and opened the
    connection, before the first request. *)
Definition connected (env : Spawn) (p : DebugParams.t) (w : World) : World :=
  {| ds :=
       {| cmd := Some {| cmd_Args := ["dlv"; "dap"; "--listen";
                                      listenPort (DebugParams.Port p);
                                      "--log"; "--log-output"; "dap"];
                         Process := Some (nextPid w) |};
          client := Some {| addr := "localhost" +:+ listenPort (DebugParams.Port p);
                            sent := []; sendErrs := connSendErrs env;
                            inbox := connInbox env; closed := false |};
          launchMode := launchMode (ds w);
          programPath := programPath (ds w);
          programArgs := programArgs (ds w) |};
     running := running w ++ [nextPid w];
     nextPid := S (nextPid w);
     wire := wire w |}.

(** The initial breakpoints that [debug] sets by file and line: those
    without a function name, with a file and with a positive line. *)
Definition fileBreakpoint (bp : BreakpointSpec.t) : Prop :=
  BreakpointSpec.Function bp = "" ∧ BreakpointSpec.File bp ≠ "" ∧
  (0 < BreakpointSpec.Line bp)%Z.

#[global] Instance fileBreakpoint_dec bp : Decision (fileBreakpoint bp) :=
  decide (BreakpointSpec.Function bp = "" ∧ BreakpointSpec.File bp ≠ "" ∧
          (0 < BreakpointSpec.Line bp)%Z).

(** The request for one breakpoint: its file and its line alone. *)
Definition lineRequest (bp : BreakpointSpec.t) : Request :=
  SetBreakpointsRequest (BreakpointSpec.File bp) [BreakpointSpec.Line bp].


(** ** Replies, and the text of the scopes *)

(** The reply to a request: the first thing read that is not an event;
    the closed stream when there is none. *)
Fixpoint firstReply (l : list ReadResult) : ReadResult :=
  match l with
  | [] => RErr EOF
  | RErr e :: _ => RErr e
  | RMsg m :: rest => if dap.isEvent m then firstReply rest else RMsg m
  end.

(** What is still to be read after the reply. *)
Fixpoint afterReply (l : list ReadResult) : list ReadResult :=
  match l with
  | [] => []
  | RErr _ :: rest => rest
  | RMsg m :: rest => if dap.isEvent m then afterReply rest else rest
  end.

(** The read that answers the next request: the head of what is still to
    be read, the closed stream when nothing is. *)
Definition nextRead (l : list ReadResult) : ReadResult :=
  match l with
  | r :: _ => r
  | [] => RErr EOF
  end.

(** The variables that one read delivers: those of a successful
    variables response, and none for anything else. *)
Definition variablesOf (r : ReadResult) : option (list dap.Variable_.t) :=
  match r with
  | RMsg (dap.VariablesResponse resp vars) =>
      if dap.Response.Success resp then Some vars else None
  | _ => None
  end.

(** The heading of a scope followed by the lines under it. *)
Definition scopeWith (s : dap.Scope.t) (lines : string) : string :=
  "### " +:+ dap.Scope.Name s +:+ LF +:+ lines.

(** The text of one scope, from the read that answers its request. *)
Definition scopeBlock (s : dap.Scope.t) (r : ReadResult) : string :=
  scopeWith s match variablesOf r with
              | Some vars => variableLines vars
              | None => variablesUnavailable
              end.

Definition fetches (s : dap.Scope.t) : Prop :=
  (0 < dap.Scope.VariablesReference s)%Z.

(** The text of the scopes, each from its own read: a scope with a
    variable container takes the next read, a scope without takes none. *)
Fixpoint scopeBlocks (scopes : list dap.Scope.t) (reads : list ReadResult) : string :=
  match scopes with
  | [] => ""
  | s :: rest =>
      if decide (fetches s) then
        match reads with
        | r :: reads' => scopeBlock s r +:+ scopeBlocks rest reads'
        | [] => scopeBlock s (RErr EOF) +:+ scopeBlocks rest []
        end
      else scopeWith s "" +:+ scopeBlocks rest reads
  end.

(** The snapshot text up to the variables section. *)
Definition stackText (frames : list dap.StackFrame.t) : string :=
  currentLocation frames +:+ stackTrace frames.

(** ** Sample sessions

    The run of the test suite: a binary started with one argument and one
    breakpoint at line 15 of its main file, and variations of it. *)

Definition okResponse : dap.Response.t :=
  {| dap.Response.Success := true; dap.Response.Message := "" |}.

Definition failedResponse (message : string) : dap.Response.t :=
  {| dap.Response.Success := false; dap.Response.Message := message |}.

Definition mainFrame : dap.StackFrame.t :=
  {| dap.StackFrame.Id := 1000;
     dap.StackFrame.Name := "main.main";
     dap.StackFrame.Source := Some {| dap.Source.Path := "main.go" |};
     dap.StackFrame.Line := 15;
     dap.StackFrame.PresentationHint := "" |}.

Definition argumentsScope : dap.Scope.t :=
  {| dap.Scope.Name := "Arguments"; dap.Scope.VariablesReference := 1001 |}.

Definition localsScope : dap.Scope.t :=
  {| dap.Scope.Name := "Locals"; dap.Scope.VariablesReference := 1002 |}.

Definition greeting : dap.Variable_.t :=
  {| dap.Variable_.Name := "greeting";
     dap.Variable_.Type_ := "string";
     dap.Variable_.Value := "hello, world" |}.

Definition mainBreakpoint : BreakpointSpec.t :=
  {| BreakpointSpec.File := "main.go"; BreakpointSpec.Line := 15;
     BreakpointSpec.Function := "" |}.

Definition sampleParams : DebugParams.t :=
  {| DebugParams.Mode := "binary";
     DebugParams.Path := "/tmp/restart";
     DebugParams.Args := ["world"];
     DebugParams.ProcessID := 0;
     DebugParams.Breakpoints := [mainBreakpoint];
     DebugParams.StopOnEntry := false;
     DebugParams.Port := "9092" |}.

(** The adapter starts, announces itself and answers every request; the
    debuggee stops at the breakpoint. *)
Definition sampleSpawn : Spawn :=
  {| pipeErr := None;
     startErr := None;
     stdout := ["DAP server listening at: 127.0.0.1:9092"];
     connSendErrs := [];
     connInbox :=
       [RMsg (dap.OtherResponse "*dap.InitializeResponse" okResponse);
        RMsg (dap.OtherEvent "*dap.InitializedEvent");
        RMsg (dap.OtherResponse "*dap.LaunchResponse" okResponse);
        RMsg (dap.SetBreakpointsResponse okResponse
                [{| dap.Breakpoint.Id := 1; dap.Breakpoint.Verified := true;
                    dap.Breakpoint.Message := ""; dap.Breakpoint.Line := 15 |}]);
        RMsg (dap.OtherResponse "*dap.ConfigurationDoneResponse" okResponse);
        RMsg (dap.OtherResponse "*dap.ContinueResponse" okResponse);
        RMsg (dap.StoppedEvent 1);
        RMsg (dap.StackTraceResponse okResponse [mainFrame]);
        RMsg (dap.ScopesResponse okResponse [localsScope]);
        RMsg (dap.VariablesResponse okResponse [greeting])] |}.

Definition sampleSnapshot : string :=
  Eval vm_compute in
    match (debug sampleSpawn sampleParams initialWorld).1 with
    | Ok text => text
    | Err e => e
    end.

(** The world once the sample session stands at its breakpoint. *)
Definition sampleWorld : World :=
  Eval vm_compute in (debug sampleSpawn sampleParams initialWorld).2.

(** The adapter has delivered further messages on the connection. *)
Definition deliver (msgs : list ReadResult) (w : World) : World :=
  match client (ds w) with
  | None => w
  | Some c =>
      {| ds := set_client (Some {| addr := addr c; sent := sent c;
                                   sendErrs := sendErrs c;
                                   inbox := inbox c ++ msgs;
                                   closed := closed c |}) (ds w);
         running := running w; nextPid := nextPid w; wire := wire w |}
  end.

(** The [dlv] binary cannot be started. *)
Definition noAdapter : Spawn :=
  {| pipeErr := None;
     startErr := Some "exec: dlv: executable file not found in $PATH";
     stdout := [];
     connSendErrs := [];
     connInbox := [] |}.

Definition noMode : DebugParams.t :=
  {| DebugParams.Mode := "core";
     DebugParams.Path := "/tmp/restart";
     DebugParams.Args := [];
     DebugParams.ProcessID := 0;
     DebugParams.Breakpoints := [];
     DebugParams.StopOnEntry := false;
     DebugParams.Port := "" |}.

(** A second program, debugged on another port. *)
Definition secondParams : DebugParams.t :=
  {| DebugParams.Mode := "binary";
     DebugParams.Path := "/tmp/step";
     DebugParams.Args := [];
     DebugParams.ProcessID := 0;
     DebugParams.Breakpoints := [mainBreakpoint];
     DebugParams.StopOnEntry := false;
     DebugParams.Port := "9093" |}.

(** The sample program with two breakpoints in its main file. *)
Definition twoBreakpoints : DebugParams.t :=
  {| DebugParams.Mode := "binary";
     DebugParams.Path := "/tmp/restart";
     DebugParams.Args := ["world"];
     DebugParams.ProcessID := 0;
     DebugParams.Breakpoints :=
       [mainBreakpoint;
        {| BreakpointSpec.File := "main.go"; BreakpointSpec.Line := 20;
           BreakpointSpec.Function := "" |}];
     DebugParams.StopOnEntry := true;
     DebugParams.Port := "9092" |}.

Definition twoSpawn : Spawn :=
  {| pipeErr := None;
     startErr := None;
     stdout := ["DAP server listening at: 127.0.0.1:9092"];
     connSendErrs := [];
     connInbox :=
       [RMsg (dap.OtherResponse "*dap.InitializeResponse" okResponse);
        RMsg (dap.OtherResponse "*dap.LaunchResponse" okResponse);
        RMsg (dap.SetBreakpointsResponse okResponse []);
        RMsg (dap.SetBreakpointsResponse okResponse []);
        RMsg (dap.OtherResponse "*dap.ConfigurationDoneResponse" okResponse)] |}.

Definition clearAll : ClearBreakpointsParams.t :=
  {| ClearBreakpointsParams.File := ""; ClearBreakpointsParams.All := true |}.

(** The sample session after the adapter has answered one more request. *)
Definition answeredWorld : World :=
  deliver [RMsg (dap.OtherResponse "*dap.SetFunctionBreakpointsResponse" okResponse)]
          sampleWorld.

(** The sample session after the adapter has acknowledged a restart. *)
Definition restartableWorld : World :=
  deliver [RMsg (dap.OtherResponse "*dap.RestartResponse" okResponse)] sampleWorld.

Definition frameAt20 : dap.StackFrame.t :=
  {| dap.StackFrame.Id := 1000;
     dap.StackFrame.Name := "main.main";
     dap.StackFrame.Source := Some {| dap.Source.Path := "main.go" |};
     dap.StackFrame.Line := 20;
     dap.StackFrame.PresentationHint := "" |}.

(** What the adapter sends when a resumed debuggee stops at line 20. *)
Definition stopAt20 : list ReadResult :=
  [RMsg (dap.OtherResponse "*dap.ContinueResponse" okResponse);
   RMsg (dap.StoppedEvent 1);
   RMsg (dap.StackTraceResponse okResponse [frameAt20]);
   RMsg (dap.ScopesResponse okResponse [])].

Definition plainContinue : ContinueParams.t :=
  {| ContinueParams.ThreadID := 0; ContinueParams.To := None |}.

Definition runToLine20 : ContinueParams.t :=
  {| ContinueParams.ThreadID := 0;
     ContinueParams.To :=
       Some {| BreakpointSpec.File := "main.go"; BreakpointSpec.Line := 20;
               BreakpointSpec.Function := "" |} |}.

(** The sample session once the adapter has answered a run to line 20. *)
Definition cursorWorld : World :=
  deliver (RMsg (dap.SetBreakpointsResponse okResponse
                   [{| dap.Breakpoint.Id := 2; dap.Breakpoint.Verified := true;
                       dap.Breakpoint.Message := ""; dap.Breakpoint.Line := 20 |}])
           :: stopAt20)
          sampleWorld.

(** ** Single steps, waits and the requests of a snapshot *)

(** The tools that work on a started session: all but [debug] and [stop]. *)
Definition needsSession (c : Call) : bool :=
  match c with
  | CallDebug _ _ | CallStop => false
  | _ => true
  end.

(** The next write on the connection does not fail. *)
Definition nextWriteOk (c : DAPClient) : Prop :=
  ∀ e, head (sendErrs c) ≠ Some (Some e).

(** The answer that [readAndValidateResponse] waits for: the first read
    that is an error or a response of any kind; the closed stream when
    there is none. *)
Fixpoint firstResponse (l : list ReadResult) : Res dap.Response.t :=
  match l with
  | [] => Err EOF
  | RErr e :: _ => Err e
  | RMsg m :: rest =>
      match dap.GetResponse m with
      | Some resp => Ok resp
      | None => firstResponse rest
      end
  end.

(** What is still to be read after that answer. *)
Fixpoint afterResponse (l : list ReadResult) : list ReadResult :=
  match l with
  | [] => []
  | RErr _ :: rest => rest
  | RMsg m :: rest =>
      match dap.GetResponse m with
      | Some _ => rest
      | None => afterResponse rest
      end
  end.

(** The variables requests of a snapshot: one for each scope that has a
    variable container, in the order of the scopes. *)
Definition variableRequests (scopes : list dap.Scope.t) : list Request :=
  (λ s, VariablesRequest (dap.Scope.VariablesReference s)) <$> filter fetches scopes.

(** A target of [continue] that names neither a function nor a file with
    a positive line. *)
Definition emptyTarget (to : BreakpointSpec.t) : Prop :=
  BreakpointSpec.Function to = "" ∧
  ¬ (BreakpointSpec.File to ≠ "" ∧ (0 < BreakpointSpec.Line to)%Z).

(** What the wait of a resumed program reads past: a response that
    reports success, and an event other than stopped and terminated. *)
Definition passedOver (m : dap.Message) : bool :=
  match dap.GetResponse m with
  | Some resp => dap.Response.Success resp
  | None =>
      match m with
      | dap.StoppedEvent _ | dap.TerminatedEvent => false
      | _ => true
      end
  end.

(** What ends the wait of a resumed program: the first read that is not
    passed over; the closed stream when there is none. *)
Fixpoint firstHalt (l : list ReadResult) : ReadResult :=
  match l with
  | [] => RErr EOF
  | RErr e :: _ => RErr e
  | RMsg m :: rest => if passedOver m then firstHalt rest else RMsg m
  end.

(** What is still to be read after the wait has ended. *)
Fixpoint afterFirstHalt (l : list ReadResult) : list ReadResult :=
  match l with
  | [] => []
  | RErr _ :: rest => rest
  | RMsg m :: rest => if passedOver m then afterFirstHalt rest else rest
  end.

(** The outcome of a resume-type handler, by what ended its wait in the
    world [w] that the wait leaves: the snapshot of the thread that the
    stopped event names, the notice of the end of the program, the read
    error, or the message of the failed response. *)
Definition haltOutcome (what : string) (r : ReadResult) (w : World)
    : Res string * World :=
  match r with
  | RErr e => (Err e, w)
  | RMsg (dap.StoppedEvent threadId) => getFullContext threadId 0%Z 20%Z w
  | RMsg dap.TerminatedEvent => (Ok "Program terminated", w)
  | RMsg m =>
      (Err (what +:+ " failed: " +:+
            from_option dap.Response.Message "" (dap.GetResponse m)), w)
  end.

(** The session is still the same one: the handle, the processes, the
    address and the state of the connection are as they were; only the
    traffic on the connection may differ. *)
Definition sameEndpoint : relation World := λ w w',
  cmd (ds w') = cmd (ds w) ∧ running w' = running w ∧ nextPid w' = nextPid w ∧
  addr <$> client (ds w') = addr <$> client (ds w) ∧
  closed <$> client (ds w') = closed <$> client (ds w).


(** ** What the connection delivers

    [ReadMessage] leaves the choice of the Go type of a message to the
    decoder of the DAP library.  The decoder gives a response the type of
    its command only when the response reports success; a response that
    reports failure is delivered as [*dap.ErrorResponse], whatever its
    command.  [decoded] says this of one message.  It is an assumption on
    the connection, and a hypothesis of the properties that depend on
    it. *)
Definition decoded (m : dap.Message) : Prop :=
  match m with
  | dap.ErrorResponse r => dap.Response.Success r = false
  | _ =>
      match dap.GetResponse m with
      | Some r => dap.Response.Success r = true
      | None => True
      end
  end.





(** ** Further sample sessions *)




Definition clearMain : ClearBreakpointsParams.t :=
  {| ClearBreakpointsParams.File := "main.go"; ClearBreakpointsParams.All := false |}.

(** The sample session after the adapter has answered a request for the
    breakpoints of a file. *)
Definition clearedWorld : World :=
  deliver [RMsg (dap.SetBreakpointsResponse okResponse [])] sampleWorld.

(** The client of the sample session when [l] is still to be read. *)
Definition sampleClient (l : list ReadResult) : DAPClient :=
  {| addr := "localhost:9092"; sent := sentOf sampleWorld; sendErrs := [];
     inbox := l; closed := false |}.

Definition nameArgument : dap.Variable_.t :=
  {| dap.Variable_.Name := "name";
     dap.Variable_.Type_ := "string";
     dap.Variable_.Value := "world" |}.

(** The sample session when the adapter answers the stack request and
    rejects the scopes request; the decoder delivers the rejection as an
    error response. *)
Definition failedScopesWorld : World :=
  deliver [RMsg (dap.StackTraceResponse okResponse [mainFrame]);
           RMsg (dap.ErrorResponse (failedResponse "unable to list scopes"))]
          sampleWorld.

(** The sample session when the adapter answers every request of a
    snapshot, and an output event of the debuggee arrives between the
    scopes and the variables of the first scope. *)
Definition shiftedWorld : World :=
  deliver [RMsg (dap.StackTraceResponse okResponse [mainFrame]);
           RMsg (dap.ScopesResponse okResponse [argumentsScope; localsScope]);
           RMsg (dap.OtherEvent "*dap.OutputEvent");
           RMsg (dap.VariablesResponse okResponse [nameArgument]);
           RMsg (dap.VariablesResponse okResponse [greeting])]
          sampleWorld.


(** * Properties *)

(** ** Reasoning in the monad *)

Lemma bind_eq {A B} (m : M A) (f : A → M B) (w : World) :
  (m ≫= f) w =
  match m w with
  | (Ok a, w1) => f a w1
  | (Err e, w1) => (Err e, w1)
  end.
Proof. reflexivity. Qed.

Lemma bind_ok_inv {A B} (m : M A) (f : A → M B) w b w' :
  (m ≫= f) w = (Ok b, w') →
  ∃ a w1, m w = (Ok a, w1) ∧ f a w1 = (Ok b, w').
Proof.
  rewrite bind_eq. destruct (m w) as [[a|e] w1]; [eauto | discriminate].
Qed.

Lemma ret_ok_inv {A} (a b : A) (w w' : World) :
  (mret a : M A) w = (Ok b, w') → a = b ∧ w = w'.
Proof. by intros [= -> ->]. Qed.

Lemma bind_ok {A B} (m : M A) (f : A → M B) w a w1 :
  m w = (Ok a, w1) → (m ≫= f) w = f a w1.
Proof. intros H. by rewrite bind_eq, H. Qed.

Lemma bind_err {A B} (m : M A) (f : A → M B) w e w1 :
  m w = (Err e, w1) → (m ≫= f) w = (Err e, w1).
Proof. intros H. by rewrite bind_eq, H. Qed.

Section Steps.
Context (R : relation World) `{!PreOrder R}.

Lemma steps_bind {A B} (m : M A) (f : A → M B) :
  steps R m → (∀ a, steps R (f a)) → steps R (m ≫= f).
Proof.
  intros Hm Hf w. rewrite bind_eq. specialize (Hm w).
  destruct (m w) as [[a|e] w1]; simpl in *; [|done].
  etrans; [exact Hm | apply Hf].
Qed.

Lemma steps_ret {A} (a : A) : steps R (mret a).
Proof. intros w. simpl. reflexivity. Qed.

Lemma steps_fail {A} e : steps R (@fail A e).
Proof. intros w. simpl. reflexivity. Qed.

Lemma steps_attempt {A} (m : M A) : steps R m → steps R (attempt m).
Proof.
  intros Hm w. unfold attempt. specialize (Hm w).
  by destruct (m w) as [r w1].
Qed.

Lemma steps_requireClient : steps R requireClient.
Proof. intros w. unfold requireClient. destruct (client (ds w)); simpl; reflexivity. Qed.

Lemma steps_getSession : steps R getSession.
Proof. intros w. simpl. reflexivity. Qed.

End Steps.

Create HintDb steps.

(** Splits a handler into its primitive steps; the steps themselves are
    closed from the hypotheses and the hints of [steps]. *)
Ltac steps_split :=
  repeat first
    [ assumption
    | solve [ auto 2 with steps ]
    | apply steps_ret; apply _
    | apply steps_fail; apply _
    | apply steps_requireClient; apply _
    | apply steps_getSession; apply _
    | apply steps_attempt
    | apply steps_bind; [apply _ | | intros ? ]
    | match goal with
      | |- steps _ (if ?b then _ else _) => destruct b
      | |- steps _ (match ?x with _ => _ end) => destruct x
      end ].

Lemma steps_mono {A} (R R' : relation World) (m : M A) :
  (∀ w w', R w w' → R' w w') → steps R m → steps R' m.
Proof. intros HR Hm w. apply HR, Hm. Qed.

(** ** Single steps on a started session *)

Lemma requireClient_ok w c : client (ds w) = Some c → requireClient w = (Ok tt, w).
Proof. intros H. unfold requireClient. by rewrite H. Qed.

Lemma requireClient_none w :
  client (ds w) = None → requireClient w = (Err notStarted, w).
Proof. intros H. unfold requireClient. by rewrite H. Qed.

Lemma send_next r w c :
  client (ds w) = Some c → nextWriteOk c →
  ∃ w' c', send r w = (Ok tt, w') ∧ client (ds w') = Some c' ∧
           inbox c' = inbox c ∧ sendErrs c' = tail (sendErrs c) ∧
           wire w' = wire w ++ [r].
Proof.
  destruct w as [[k cl lm pp pa] run np wi]. simpl. intros ->.
  destruct c as [ad se er ib closed]. unfold nextWriteOk. simpl. intros Hok.
  unfold send. simpl. destruct er as [|[e|] er]; simpl.
  - by eexists _, _.
  - by destruct (Hok e).
  - by eexists _, _.
Qed.

Lemma send_fails r w c e :
  client (ds w) = Some c → head (sendErrs c) = Some (Some e) →
  ∃ w', send r w = (Err e, w').
Proof.
  destruct w as [[k cl lm pp pa] run np wi]. simpl. intros ->.
  unfold send. simpl. intros ->. by eexists.
Qed.

Lemma read_next {A} (body : dap.Message → option (Res A)) w c :
  client (ds w) = Some c →
  ∃ w' c', readUntil body w = ((readLoop body (inbox c)).1, w') ∧
           client (ds w') = Some c' ∧ inbox c' = (readLoop body (inbox c)).2 ∧
           sendErrs c' = sendErrs c ∧ wire w' = wire w.
Proof.
  destruct w as [[k cl lm pp pa] run np wi]. simpl. intros ->.
  unfold readUntil. simpl. destruct (readLoop body (inbox c)) as [r rest].
  by eexists _, _.
Qed.

Lemma inboxOf_client w c : client (ds w) = Some c → inboxOf w = inbox c.
Proof. intros H. unfold inboxOf. by rewrite H. Qed.

Lemma quiet_nextWriteOk c : sendErrs c = [] → nextWriteOk c.
Proof. intros H e. by rewrite H. Qed.

Lemma isEvent_not_response m : dap.isEvent m = true → dap.GetResponse m = None.
Proof. by destruct m. Qed.

Lemma read_one w c :
  client (ds w) = Some c →
  ∃ w' c', ReadMessage w =
             (match nextRead (inbox c) with RMsg m => Ok m | RErr e => Err e end, w') ∧
           client (ds w') = Some c' ∧ sendErrs c' = sendErrs c ∧
           inbox c' = tail (inbox c) ∧ wire w' = wire w.
Proof.
  destruct w as [[k cl lm pp pa] run np wi]. simpl. intros ->.
  destruct c as [ad se er ib closed]. unfold ReadMessage, readUntil. simpl.
  destruct ib as [|[m|e] ib]; simpl; eexists _, _; (split; [reflexivity|done]).
Qed.

Lemma readLoop_response prefix l :
  readLoop (λ msg,
    match dap.GetResponse msg with
    | Some resp =>
        if dap.Response.Success resp then Some (Ok tt)
        else Some (Err (prefix +:+ ": " +:+ dap.Response.Message resp))
    | None => None
    end) l =
  (match firstResponse l with
   | Ok resp =>
       if dap.Response.Success resp then Ok tt
       else Err (prefix +:+ ": " +:+ dap.Response.Message resp)
   | Err e => Err e
   end, afterResponse l).
Proof.
  induction l as [|[m|e] l IH]; simpl; [done| |done].
  destruct (dap.GetResponse m) as [resp|]; [|done].
  by destruct (dap.Response.Success resp).
Qed.

Lemma validate_next prefix w c :
  client (ds w) = Some c →
  ∃ w' c', readAndValidateResponse prefix w =
             (match firstResponse (inbox c) with
              | Ok resp =>
                  if dap.Response.Success resp then Ok tt
                  else Err (prefix +:+ ": " +:+ dap.Response.Message resp)
              | Err e => Err e
              end, w') ∧
           client (ds w') = Some c' ∧ inbox c' = afterResponse (inbox c) ∧
           sendErrs c' = sendErrs c ∧ wire w' = wire w.
Proof.
  intros Hc. unfold readAndValidateResponse.
  match goal with
  | |- context [readUntil ?b w] =>
      destruct (read_next b w c Hc) as (w1 & c1 & H1 & Hc1 & Hin1 & Hq1 & Hw1)
  end.
  rewrite readLoop_response in H1, Hin1. by exists w1, c1.
Qed.

(** ** What a handler writes *)

#[local] Instance emits_preorder P : PreOrder (emits P).
Proof.
  split.
  - intros w. repeat split. exists []. by rewrite !app_nil_r.
  - intros w1 w2 w3 (Hc1 & Hr1 & Hn1 & l1 & Hw1 & Hs1 & Hl1)
      (Hc2 & Hr2 & Hn2 & l2 & Hw2 & Hs2 & Hl2).
    repeat split; try congruence.
    exists (l1 ++ l2). rewrite Hw2, Hw1, Hs2, Hs1, !app_assoc.
    repeat split. by apply Forall_app.
Qed.

#[local] Instance wireEmits_preorder P : PreOrder (wireEmits P).
Proof.
  split.
  - intros w. exists []. by rewrite app_nil_r.
  - intros w1 w2 w3 (l1 & Hw1 & Hl1) (l2 & Hw2 & Hl2).
    exists (l1 ++ l2). rewrite Hw2, Hw1, app_assoc.
    split; [done | by apply Forall_app].
Qed.

Lemma emits_mono (P Q : Request → Prop) w w' :
  (∀ r, P r → Q r) → emits P w w' → emits Q w w'.
Proof.
  intros HPQ (Hc & Hr & Hn & l & Hw & Hs & Hl).
  repeat split; try done. exists l. repeat split; try done.
  eapply Forall_impl; eauto.
Qed.

Lemma emits_wire P w w' : emits P w w' → wireEmits P w w'.
Proof. intros (_ & _ & _ & l & Hw & _ & Hl). by exists l. Qed.

Lemma emits_same w w' :
  cmd (ds w') = cmd (ds w) → running w' = running w → nextPid w' = nextPid w →
  wire w' = wire w → sentOf w' = sentOf w → ∀ P, emits P w w'.
Proof.
  intros Hc Hr Hn Hw Hs P. repeat split; try done.
  exists []. by rewrite !app_nil_r.
Qed.

Lemma send_emits (P : Request → Prop) r : P r → steps (emits P) (send r).
Proof.
  intros Hr [[k [c|] lm pp pa] run np wi]; unfold send; simpl;
    [|by apply emits_same].
  destruct (head (sendErrs c)) as [[e|]|]; simpl;
    try (by apply emits_same);
    (repeat split; exists [r]; repeat split; by constructor).
Qed.

Lemma readUntil_emits {A} P (body : dap.Message → option (Res A)) :
  steps (emits P) (readUntil body).
Proof.
  intros [[k [c|] lm pp pa] run np wi]; unfold readUntil; simpl;
    [|by apply emits_same].
  destruct (readLoop body (inbox c)) as [r rest]. by apply emits_same.
Qed.

Lemma ReadMessage_emits P : steps (emits P) ReadMessage.
Proof. apply readUntil_emits. Qed.

Lemma readAndValidateResponse_emits P prefix :
  steps (emits P) (readAndValidateResponse prefix).
Proof. apply readUntil_emits. Qed.

Lemma set_launch_emits P m p a : steps (emits P) (modifySession (set_launch m p a)).
Proof. intros w. by apply emits_same. Qed.

#[local] Hint Resolve readUntil_emits ReadMessage_emits
  readAndValidateResponse_emits set_launch_emits : steps.
#[local] Hint Extern 1 (steps (emits _) (send _)) =>
  apply send_emits; simpl; first [exact I | lia | done] : steps.

Lemma scopesText_emits l : steps (emits inspects) (scopesText l).
Proof.
  induction l as [|s l IH]; cbn [scopesText]; [steps_split|].
  apply steps_bind; [apply _ | unfold scopeText; steps_split | intros ?].
  steps_split.
Qed.

Lemma getFullContext_emits t f n : steps (emits inspects) (getFullContext t f n).
Proof.
  pose proof scopesText_emits. unfold getFullContext. steps_split.
Qed.

Lemma inspects_singleLine r : inspects r → singleLine r.
Proof. by destruct r. Qed.

Lemma getFullContext_singleLine t f n :
  steps (emits singleLine) (getFullContext t f n).
Proof.
  eapply steps_mono; [|apply getFullContext_emits].
  intros w w'. apply emits_mono, inspects_singleLine.
Qed.
#[local] Hint Resolve getFullContext_singleLine : steps.

Lemma afterHalt_singleLine h : steps (emits singleLine) (afterHalt h).
Proof. destruct h; simpl; steps_split. Qed.
#[local] Hint Resolve afterHalt_singleLine : steps.

Lemma setInitialBreakpoints_singleLine bps :
  steps (emits singleLine) (setInitialBreakpoints bps).
Proof.
  induction bps as [|bp bps IH]; cbn [setInitialBreakpoints]; [steps_split|].
  apply steps_bind; [apply _ | unfold setInitialBreakpoint; steps_split | done].
Qed.
#[local] Hint Resolve setInitialBreakpoints_singleLine : steps.

(** The handlers that keep the session's connection. *)
Lemma session_handlers_singleLine :
  (∀ p, steps (emits singleLine) (restartDebugger p)) ∧
  (∀ p, steps (emits singleLine) (breakpoint p)) ∧
  (∀ p, steps (emits singleLine) (clearBreakpoints p)) ∧
  (∀ p, steps (emits singleLine) (continueExecution p)) ∧
  (∀ p, steps (emits singleLine) (step p)) ∧
  (∀ p, steps (emits singleLine) (pauseExecution p)) ∧
  (∀ p, steps (emits singleLine) (context p)) ∧
  (∀ p, steps (emits singleLine) (evaluateExpression p)) ∧
  (∀ p, steps (emits singleLine) (setVariable p)) ∧
  (∀ p, steps (emits singleLine) (info p)) ∧
  (∀ p, steps (emits singleLine) (disassembleCode p)).
Proof.
  repeat apply conj; intros p.
  - unfold restartDebugger. steps_split.
  - unfold breakpoint. steps_split.
  - unfold clearBreakpoints. steps_split.
  - unfold continueExecution. steps_split.
  - unfold step. steps_split.
  - unfold pauseExecution. steps_split.
  - unfold context. steps_split.
  - unfold evaluateExpression. steps_split.
  - unfold setVariable. steps_split.
  - unfold info. steps_split.
  - unfold disassembleCode. steps_split.
Qed.

(** The steps of [debug] and [stop] that replace the handle or the client
    write nothing. *)
Lemma wireEmits_same P w w' : wire w' = wire w → wireEmits P w w'.
Proof. intros H. exists []. by rewrite app_nil_r. Qed.

Lemma steps_emits_wire {A} P (m : M A) : steps (emits P) m → steps (wireEmits P) m.
Proof. apply steps_mono. intros w w'. apply emits_wire. Qed.

Lemma modifySession_wire P f : steps (wireEmits P) (modifySession f).
Proof. intros w. by apply wireEmits_same. Qed.

Lemma StdoutPipe_wire P env : steps (wireEmits P) (StdoutPipe env).
Proof. intros w. unfold StdoutPipe. destruct (pipeErr env); by apply wireEmits_same. Qed.

Lemma Start_wire P env : steps (wireEmits P) (Start env).
Proof.
  intros w. unfold Start.
  destruct (startErr env); [by apply wireEmits_same|].
  destruct (cmd (ds w)); by apply wireEmits_same.
Qed.

Lemma awaitReady_wire P env : steps (wireEmits P) (awaitReady env).
Proof. intros w. by apply wireEmits_same. Qed.

Lemma Close_wire P : steps (wireEmits P) Close.
Proof.
  intros w. unfold Close. destruct (client (ds w)); by apply wireEmits_same.
Qed.

Lemma Kill_wire P pid : steps (wireEmits P) (Kill pid).
Proof. intros w. unfold Kill. case_decide; by apply wireEmits_same. Qed.

Lemma Wait_wire P pid : steps (wireEmits P) (Wait pid).
Proof. intros w. by apply wireEmits_same. Qed.

Lemma checkDebugParams_wire P p : steps (wireEmits P) (checkDebugParams p).
Proof. unfold checkDebugParams. steps_split. Qed.

#[local] Hint Resolve modifySession_wire StdoutPipe_wire Start_wire awaitReady_wire
  Close_wire Kill_wire Wait_wire checkDebugParams_wire : steps.
#[local] Hint Extern 3 (steps (wireEmits _) _) =>
  apply steps_emits_wire; solve [auto 2 with steps] : steps.

Lemma launchOrAttach_singleLine p : singleLine (launchOrAttach p).
Proof. unfold launchOrAttach. by repeat case_decide. Qed.

Lemma debug_singleLine env p : steps (wireEmits singleLine) (debug env p).
Proof.
  unfold debug, startSession, firstStop, execCommand, newDAPClient. steps_split.
  apply steps_emits_wire, send_emits, launchOrAttach_singleLine.
Qed.

Lemma stop_singleLine : steps (wireEmits singleLine) (stop tt).
Proof. unfold stop, terminateDebuggee, killDebugger. steps_split. Qed.

Lemma callTool_singleLine c : steps (wireEmits singleLine) (callTool c).
Proof.
  destruct session_handlers_singleLine
    as (? & ? & ? & ? & ? & ? & ? & ? & ? & ? & ?).
  destruct c; simpl;
    first [apply debug_singleLine | apply stop_singleLine
          | apply steps_emits_wire; auto].
Qed.

Lemma serve_snoc calls c w : serve (calls ++ [c]) w = (callTool c (serve calls w)).2.
Proof. unfold serve. by rewrite foldl_app. Qed.

Lemma reachable_singleLine w : reachable w → Forall singleLine (wire w).
Proof.
  intros [calls ->]. induction calls as [|c calls IH] using rev_ind; [constructor|].
  rewrite serve_snoc.
  destruct (callTool_singleLine c (serve calls initialWorld)) as (l & -> & Hl).
  by apply Forall_app.
Qed.

(** ** What a successful step writes and reads, exactly *)

Lemma wrote_refl w : wrote [] w w.
Proof. repeat split; by rewrite app_nil_r. Qed.

Lemma wrote_trans l1 l2 w1 w2 w3 :
  wrote l1 w1 w2 → wrote l2 w2 w3 → wrote (l1 ++ l2) w1 w3.
Proof.
  intros (Hc1 & Hr1 & Hn1 & Hw1 & Hs1) (Hc2 & Hr2 & Hn2 & Hw2 & Hs2).
  repeat split; try congruence.
  - by rewrite Hw2, Hw1, app_assoc.
  - by rewrite Hs2, Hs1, app_assoc.
Qed.

Lemma emits_wrote P w w' : emits P w w' ↔ ∃ l, wrote l w w' ∧ Forall P l.
Proof.
  split.
  - intros (Hc & Hr & Hn & l & Hw & Hs & Hl). exists l. by repeat split.
  - intros (l & (Hc & Hr & Hn & Hw & Hs) & Hl). repeat split; try done. by exists l.
Qed.

Lemma send_ok r w u w' : send r w = (Ok u, w') → wrote [r] w w' ∧ inboxOf w' = inboxOf w.
Proof.
  destruct w as [[k [c|] lm pp pa] run np wi]; unfold send; simpl; [|done].
  destruct (head (sendErrs c)) as [[e|]|]; simpl; intros H; simplify_eq;
    by repeat split.
Qed.

Lemma send_ok_client r w u w' :
  send r w = (Ok u, w') → is_Some (client (ds w')).
Proof.
  destruct w as [[k [c|] lm pp pa] run np wi]; unfold send; simpl; [|done].
  destruct (head (sendErrs c)) as [[e|]|]; simpl; intros H; simplify_eq;
    by eexists.
Qed.

Lemma readUntil_any {A} (body : dap.Message → option (Res A)) w r w' :
  readUntil body w = (r, w') → wrote [] w w'.
Proof.
  intros H. pose proof (readUntil_emits (λ _, False) body w) as He.
  rewrite H in He. apply emits_wrote in He as (l & Hl & HF).
  by destruct HF.
Qed.

Lemma setInitialBreakpoint_ok bp w u w' :
  setInitialBreakpoint bp w = (Ok u, w') → wrote (initialRequest bp) w w'.
Proof.
  unfold setInitialBreakpoint, initialRequest. repeat case_decide.
  - intros (? & w1 & Hs & Hr)%bind_ok_inv.
    apply send_ok in Hs as [Hs _]. apply readUntil_any in Hr.
    by apply (wrote_trans _ _ _ _ _ Hs) in Hr.
  - intros (? & w1 & Hs & (? & w2 & Hr & [= <- <-])%bind_ok_inv)%bind_ok_inv.
    apply send_ok in Hs as [Hs _]. apply readUntil_any in Hr.
    by apply (wrote_trans _ _ _ _ _ Hs) in Hr.
  - intros [= <- <-]. apply wrote_refl.
Qed.

Lemma setInitialBreakpoints_ok bps w u w' :
  setInitialBreakpoints bps w = (Ok u, w') →
  wrote (concat (initialRequest <$> bps)) w w'.
Proof.
  revert w. induction bps as [|bp bps IH]; intros w; cbn [setInitialBreakpoints].
  - intros [= <- <-]. apply wrote_refl.
  - intros (? & w1 & H1 & H2)%bind_ok_inv.
    apply setInitialBreakpoint_ok in H1. apply IH in H2.
    simpl. by eapply wrote_trans.
Qed.

Lemma checkDebugParams_ok p w u w' :
  checkDebugParams p w = (Ok u, w') →
  w' = w ∧ validMode (DebugParams.Mode p) = true ∧
  (DebugParams.Mode p = "attach" → DebugParams.ProcessID p ≠ 0%Z) ∧
  (DebugParams.Mode p ≠ "attach" → DebugParams.Path p ≠ "").
Proof.
  unfold checkDebugParams.
  destruct (validMode (DebugParams.Mode p)); simpl; [|done].
  repeat case_decide; try done; intros [= <- <-]; by repeat split.
Qed.

(** Inverts [H : (m ≫= f) w = (Ok _, _)] into the run of [m], named [Hm],
    which ends in the world [w1], and the run of the rest, again [H]. *)
Ltac bind_inv H w1 Hm :=
  apply bind_ok_inv in H; destruct H as (? & w1 & Hm & H).

Lemma startSession_ok env p w u w' :
  startSession env p w = (Ok u, w') →
  pipeErr env = None ∧ startErr env = None ∧ waitListening (stdout env) = Ok tt ∧
  wrote (startRequests p) (connected env p w) w'.
Proof.
  unfold startSession. intros H.
  bind_inv H w1 H1. apply checkDebugParams_ok in H1 as (-> & _).
  bind_inv H w2 H2. unfold execCommand, modifySession in H2.
  bind_inv H w3 H3.
  unfold StdoutPipe in H3. destruct (pipeErr env) eqn:Hpipe; [done|].
  bind_inv H w4 H4.
  unfold Start in H4. destruct (startErr env) eqn:Hstart; [done|].
  simplify_eq. cbn in H4. simplify_eq.
  bind_inv H w5 H5.
  unfold awaitReady in H5.
  destruct (waitListening (stdout env)) as [[]|] eqn:Hready; [|done].
  bind_inv H w6 H6. unfold newDAPClient, modifySession in H6.
  simplify_eq. cbn in H.
  change {| ds := _; running := _; nextPid := _; wire := _ |}
    with (connected env p w) in H.
  repeat (split; [done|]).
  bind_inv H w7 H7. apply send_ok in H7 as [H7 _].
  bind_inv H w8 H8. apply readUntil_any in H8.
  bind_inv H w9 H9. unfold modifySession in H9. simplify_eq.
  bind_inv H w10 H10. apply send_ok in H10 as [H10 _].
  bind_inv H w11 H11. apply readUntil_any in H11.
  bind_inv H w12 H12. apply setInitialBreakpoints_ok in H12.
  bind_inv H w13 H13. apply send_ok in H13 as [H13 _].
  apply readUntil_any in H.
  pose proof (wrote_trans _ _ _ _ _ H7 H8) as Ha.
  pose proof (wrote_trans _ _ _ _ _ Ha H10) as Hc.
  pose proof (wrote_trans _ _ _ _ _ Hc H11) as Hd.
  pose proof (wrote_trans _ _ _ _ _ Hd H12) as He.
  pose proof (wrote_trans _ _ _ _ _ He H13) as Hf.
  pose proof (wrote_trans _ _ _ _ _ Hf H) as Hg.
  match type of Hg with
  | wrote ?l _ _ => replace (startRequests p) with l; [exact Hg|]
  end.
  unfold startRequests. simpl. by rewrite ?app_nil_r, <- ?app_assoc.
Qed.

(** ** The first stop of [debug] *)












(** ** Validation of the parameters of [debug] *)

(** C8.  A [debug] call with a mode other than source, binary and attach,
    with mode attach and no process id, or with mode source or binary and
    no path returns an error and leaves the world as it was: the stored
    session is unchanged, no process has been started, and nothing was
    written on any connection.  The answer does not depend on how the
    operating system or an adapter would have behaved. *)
Theorem debug_rejects_invalid env params w :
  ¬ (DebugParams.Mode params = "source" ∨ DebugParams.Mode params = "binary" ∨
     DebugParams.Mode params = "attach") ∨
  (DebugParams.Mode params = "attach" ∧ DebugParams.ProcessID params = 0%Z) ∨
  ((DebugParams.Mode params = "source" ∨ DebugParams.Mode params = "binary") ∧
   DebugParams.Path params = "") →
  ∃ e, debug env params w = (Err e, w).
Proof.
  intros H. unfold debug, startSession.
  rewrite !bind_eq. unfold checkDebugParams, validMode.
  case_bool_decide as Hmode; simpl.
  - repeat case_decide; simpl; eauto.
    + destruct H as [?|[[? ?]|[[?|?] ?]]]; congruence.
    + destruct H as [?|[[? ?]|[[?|?] ?]]]; try congruence.
      all: destruct Hmode as [?|[?|?]]; congruence.
  - eauto.
Qed.

(** ** Stopping a session *)

Lemma stop_idle w :
  cmd (ds w) = None → client (ds w) = None →
  stop tt w = (Ok "No debug session active", w).
Proof.
  intros Hcmd Hclient. unfold stop. rewrite bind_eq. simpl.
  by rewrite Hcmd, Hclient.
Qed.

Lemma terminateDebuggee_ok w c :
  client (ds w) = Some c →
  ∃ w', terminateDebuggee w = (Ok tt, w') ∧
        ds w' = set_client None (ds w) ∧
        running w' = running w ∧ nextPid w' = nextPid w.
Proof.
  destruct w as [[k [[ad se er ib cl]|] lm pp pa] run np wi]; [|done].
  intros _. unfold terminateDebuggee, attempt, send.
  destruct er as [|[e1|] [|[e2|] er]]; by eexists.
Qed.

Lemma killDebugger_ok pid w :
  killDebugger pid w =
  (Ok tt, {| ds := set_cmd None (ds w);
             running := filter (λ q, q ≠ pid) (running w);
             nextPid := nextPid w; wire := wire w |}).
Proof.
  unfold killDebugger. rewrite bind_eq. unfold attempt, Kill. by case_decide.
Qed.

(** [stop] returns a result, never an error, in every world. *)
Lemma stop_never_errors w : ∃ text w', stop tt w = (Ok text, w').
Proof.
  unfold stop. rewrite bind_eq. cbn [getSession].
  destruct (client (ds w)) as [c|] eqn:Hclient.
  - destruct (terminateDebuggee_ok w c Hclient) as (w1 & H1 & _).
    destruct (cmd (ds w)) as [[a [pid|]]|].
    + erewrite bind_ok by exact H1. erewrite bind_ok by apply killDebugger_ok.
      eexists _, _; reflexivity.
    + erewrite bind_ok by exact H1. 
      eexists _, _; reflexivity.
    + erewrite bind_ok by exact H1. 
      eexists _, _; reflexivity.
  - destruct (cmd (ds w)) as [[a [pid|]]|].
    + erewrite (bind_ok (mret tt)) by reflexivity.
      erewrite bind_ok by apply killDebugger_ok.
      eexists _, _; reflexivity.
    + eexists _, _; reflexivity.
    + eexists _, _; reflexivity.
Qed.

(** A session whose handle is nil or holds a started process is cleared
    by [stop] whatever the outcome of the terminate and disconnect writes
    and of the kill: no client, no handle, no launch parameters, and the
    process is gone. *)
Lemma stop_clears w :
  (∀ c, cmd (ds w) = Some c → is_Some (Process c)) →
  is_Some (cmd (ds w)) ∨ is_Some (client (ds w)) →
  ∃ w', stop tt w = (Ok "Debug session stopped", w') ∧
        ds w' = initialSession ∧
        (∀ c pid, cmd (ds w) = Some c → Process c = Some pid → pid ∉ running w').
Proof.
  intros Hproc Hactive. unfold stop. rewrite bind_eq. cbn [getSession].
  destruct (client (ds w)) as [c|] eqn:Hclient.
  - destruct (terminateDebuggee_ok w c Hclient) as (w1 & H1 & Hds & Hrun & _).
    destruct (cmd (ds w)) as [[a [pid|]]|] eqn:Hcmd.
    + erewrite bind_ok by exact H1. erewrite bind_ok by apply killDebugger_ok.
      eexists. split; [reflexivity|]. simpl. rewrite Hds. split; [done|].
      intros ? ? [= <-] [= <-]. rewrite Hrun.
      by intros [? ?]%list_elem_of_filter.
    + by destruct (Hproc _ eq_refl).
    + erewrite bind_ok by exact H1.
      eexists. split; [reflexivity|]. split; [|done].
      cbn. unfold set_launch. rewrite Hds. cbn. by rewrite Hcmd.
  - destruct (cmd (ds w)) as [[a [pid|]]|] eqn:Hcmd.
    + erewrite (bind_ok (mret tt)) by reflexivity.
      erewrite bind_ok by apply killDebugger_ok.
      eexists. split; [reflexivity|]. split; [cbn; unfold set_launch, set_cmd; cbn; by rewrite Hclient|]. cbn.
      intros ? ? [= <-] [= <-]. by intros [? ?]%list_elem_of_filter.
    + by destruct (Hproc _ eq_refl).
    + by destruct Hactive as [[? ?]|[? ?]].
Qed.

(** Two [stop] calls in a row on such a session: the second finds the
    session idle and returns the neutral result. *)
Lemma stop_twice w :
  (∀ c, cmd (ds w) = Some c → is_Some (Process c)) →
  ∃ text w', stop tt w = (Ok text, w') ∧
             stop tt w' = (Ok "No debug session active", w').
Proof.
  intros Hproc.
  destruct (cmd (ds w)) as [c|] eqn:Hcmd; [|destruct (client (ds w)) eqn:Hclient].
  - destruct (stop_clears w) as (w' & H & Hds & _); [by rewrite Hcmd|by left|].
    exists "Debug session stopped", w'. split; [done|].
    apply stop_idle; by rewrite Hds.
  - destruct (stop_clears w) as (w' & H & Hds & _);
      [by rewrite Hcmd|by rewrite Hclient; right|].
    exists "Debug session stopped", w'. split; [done|].
    apply stop_idle; by rewrite Hds.
  - exists "No debug session active", w. split; by apply stop_idle.
Qed.

(** C6, at the input where it fails.  After a [debug] call whose [Start]
    failed (the adapter binary is missing) the session holds a handle
    without a process and no client.  [stop] then returns its ordinary
    result, not the neutral one, and leaves the world exactly as it was:
    the handle is still stored, and every further [stop] does the same. *)
Theorem stop_keeps_unstarted_handle :
  let w := (debug noAdapter sampleParams initialWorld).2 in
  reachable w ∧
  client (ds w) = None ∧
  (∃ c, cmd (ds w) = Some c ∧ Process c = None) ∧
  stop tt w = (Ok "Debug session stopped", w) ∧
  stop tt (stop tt w).2 = (Ok "Debug session stopped", w).
Proof.
  split; [by exists [CallDebug noAdapter sampleParams]|].
  split; [done|]. split; [by eexists|]. split; by vm_compute.
Qed.

(** ** Starting a session while one is active *)

#[local] Instance runningGrows_preorder : PreOrder runningGrows.
Proof. unfold runningGrows. split; [by intros w | intros w1 w2 w3; set_solver]. Qed.

#[local] Instance keepsProcs_preorder : PreOrder keepsProcs.
Proof.
  split; [by intros w|].
  intros w1 w2 w3 (? & ? & ?) (? & ? & ?). repeat split; congruence.
Qed.

Lemma emits_keepsProcs P w w' : emits P w w' → keepsProcs w w'.
Proof. intros (? & ? & ? & _). by repeat split. Qed.

Lemma keepsProcs_runningGrows w w' : keepsProcs w w' → runningGrows w w'.
Proof. intros (_ & Hr & _). unfold runningGrows. by rewrite Hr. Qed.

Lemma steps_emits_keepsProcs {A} P (m : M A) :
  steps (emits P) m → steps keepsProcs m.
Proof. apply steps_mono. intros w w'. apply emits_keepsProcs. Qed.

Lemma set_client_keepsProcs c : steps keepsProcs (modifySession (set_client c)).
Proof. by intros w. Qed.

Lemma set_launch_keepsProcs m p a : steps keepsProcs (modifySession (set_launch m p a)).
Proof. by intros w. Qed.

Lemma awaitReady_keepsProcs env : steps keepsProcs (awaitReady env).
Proof. by intros w. Qed.

Lemma StdoutPipe_keepsProcs env : steps keepsProcs (StdoutPipe env).
Proof. intros w. unfold StdoutPipe. by destruct (pipeErr env). Qed.

Lemma checkDebugParams_keepsProcs p : steps keepsProcs (checkDebugParams p).
Proof. unfold checkDebugParams. steps_split. Qed.

#[local] Hint Resolve set_client_keepsProcs set_launch_keepsProcs
  awaitReady_keepsProcs StdoutPipe_keepsProcs checkDebugParams_keepsProcs : steps.
#[local] Hint Extern 3 (steps keepsProcs _) =>
  apply (steps_emits_keepsProcs (λ _, True)); solve [auto 2 with steps] : steps.

Lemma launchOrAttach_keepsProcs p : steps keepsProcs (send (launchOrAttach p)).
Proof. apply (steps_emits_keepsProcs (λ _, True)), send_emits. exact I. Qed.
#[local] Hint Resolve launchOrAttach_keepsProcs : steps.

Lemma setInitialBreakpoints_keepsProcs bps :
  steps keepsProcs (setInitialBreakpoints bps).
Proof. apply (steps_emits_keepsProcs singleLine), setInitialBreakpoints_singleLine. Qed.

Lemma getFullContext_keepsProcs t f n : steps keepsProcs (getFullContext t f n).
Proof. apply (steps_emits_keepsProcs inspects), getFullContext_emits. Qed.
#[local] Hint Resolve setInitialBreakpoints_keepsProcs getFullContext_keepsProcs : steps.

Lemma steps_keepsProcs_runningGrows {A} (m : M A) :
  steps keepsProcs m → steps runningGrows m.
Proof. apply steps_mono. intros w w'. apply keepsProcs_runningGrows. Qed.

Lemma execCommand_runningGrows port : steps runningGrows (execCommand port).
Proof. intros w. unfold runningGrows. done. Qed.

Lemma Start_runningGrows env : steps runningGrows (Start env).
Proof.
  intros w. unfold Start, runningGrows.
  destruct (startErr env); [done|]. destruct (cmd (ds w)); [|done].
  simpl. set_solver.
Qed.

#[local] Hint Resolve execCommand_runningGrows Start_runningGrows : steps.
#[local] Hint Extern 4 (steps runningGrows _) =>
  apply steps_keepsProcs_runningGrows; solve [auto 4 with steps] : steps.

(** [debug] stops no process, whatever its parameters and its outcome. *)
Lemma debug_runningGrows env p : steps runningGrows (debug env p).
Proof.
  unfold debug, startSession, firstStop, newDAPClient. steps_split.
Qed.

Lemma checkDebugParams_valid p w :
  validParams p → checkDebugParams p w = (Ok tt, w).
Proof.
  unfold checkDebugParams, validMode.
  intros [[Hm Hp]|[Hm Hp]]; (case_bool_decide as Hmode; simpl;
    [|destruct Hmode; destruct Hm; by auto]);
    repeat case_decide; try done; destruct Hm; congruence.
Qed.

(** Once [Start] has succeeded, the rest of [debug] keeps the new handle
    and starts or stops no process, whether it succeeds or fails. *)
Lemma debug_after_Start env p w :
  validParams p → pipeErr env = None → startErr env = None →
  keepsProcs (started p w) (debug env p w).2.
Proof.
  intros Hvalid Hpipe Hstart. unfold debug, startSession.
  set (rest := awaitReady env ≫= _).
  rewrite (bind_eq (checkDebugParams p ≫= _)).
  erewrite (bind_ok (checkDebugParams p)) by by apply checkDebugParams_valid.
  erewrite (bind_ok (execCommand _)) by reflexivity.
  erewrite (bind_ok (StdoutPipe env)) by (unfold StdoutPipe; by rewrite Hpipe).
  erewrite (bind_ok (Start env));
    [|unfold Start; rewrite Hstart; reflexivity].
  assert (Hrest : steps keepsProcs (rest ≫= λ _, firstStop p)).
  { unfold rest, firstStop, newDAPClient. steps_split. }
  specialize (Hrest (started p w)). rewrite bind_eq in Hrest. exact Hrest.
Qed.

#[local] Instance keepsKnownPids_preorder : PreOrder keepsKnownPids.
Proof.
  split; [by intros w H|]. intros w1 w2 w3 H12 H23 H. by apply H23, H12.
Qed.

Lemma keepsProcs_keepsKnownPids w w' : keepsProcs w w' → keepsKnownPids w w'.
Proof.
  intros (Hc & Hr & Hn) [H1 H2]. unfold knownPids. rewrite Hc, Hr, Hn. done.
Qed.

Lemma steps_keepsProcs_known {A} (m : M A) :
  steps keepsProcs m → steps keepsKnownPids m.
Proof. apply steps_mono. intros w w'. apply keepsProcs_keepsKnownPids. Qed.

Lemma execCommand_known port : steps keepsKnownPids (execCommand port).
Proof.
  intros w [H1 H2]. split; simpl; [done|]. intros c pid [= <-]. simpl. intros [=].
Qed.

Lemma Start_known env : steps keepsKnownPids (Start env).
Proof.
  intros w Hk. pose proof Hk as [H1 H2]. unfold Start.
  destruct (startErr env); [exact Hk|].
  destruct (cmd (ds w)) eqn:Hcmd; [|exact Hk].
  split; simpl.
  - intros pid [Hpid| ->%list_elem_of_singleton]%elem_of_app; [|lia].
    specialize (H1 pid Hpid). lia.
  - intros c' pid [= <-] [= <-]. lia.
Qed.

Lemma Wait_known pid : steps keepsKnownPids (Wait pid).
Proof.
  intros w [H1 H2]. split; simpl; [|done].
  intros q [_ Hq]%list_elem_of_filter. by apply H1.
Qed.

Lemma Kill_known pid : steps keepsKnownPids (Kill pid).
Proof. intros w H. unfold Kill. case_decide; exact H. Qed.

Lemma Close_known : steps keepsKnownPids Close.
Proof. intros w H. unfold Close. destruct (client (ds w)); exact H. Qed.

Lemma set_cmd_None_known : steps keepsKnownPids (modifySession (set_cmd None)).
Proof. intros w [H1 H2]. split; simpl; [done|]. intros c pid [=]. Qed.

Lemma checkDebugParams_known p : steps keepsKnownPids (checkDebugParams p).
Proof. apply steps_keepsProcs_known, checkDebugParams_keepsProcs. Qed.

#[local] Hint Resolve execCommand_known Start_known Wait_known Kill_known Close_known
  set_cmd_None_known checkDebugParams_known : steps.
#[local] Hint Extern 5 (steps keepsKnownPids _) =>
  apply steps_keepsProcs_known; solve [auto 4 with steps] : steps.

Lemma callTool_known c : steps keepsKnownPids (callTool c).
Proof.
  destruct session_handlers_singleLine
    as (? & ? & ? & ? & ? & ? & ? & ? & ? & ? & ?).
  destruct c; simpl;
    try (apply steps_keepsProcs_known,
               (steps_emits_keepsProcs singleLine); solve [auto]).
  - unfold debug, startSession, firstStop, newDAPClient. steps_split.
  - unfold stop, terminateDebuggee, killDebugger. steps_split.
Qed.

(** In every world the server can be in, the pids in use are known. *)
Lemma reachable_knownPids w : reachable w → knownPids w.
Proof.
  intros [calls ->]. induction calls as [|c calls IH] using rev_ind.
  - split; [by intros pid ?%elem_of_nil | by intros c pid [=]].
  - rewrite serve_snoc. by apply (callTool_known c).
Qed.

(** C1, as the code has it.  [debug] makes no check for an active
    session.  When, in a world the server can be in, the session holds the
    handle of a running subprocess and [debug] is called with valid
    parameters and the new adapter starts, then, whether the rest of the
    call succeeds or fails, the old subprocess is still running, and the
    stored handle is now that of the new process, which is a different
    one. *)
Theorem debug_overwrites_active_session env params w c pid :
  reachable w →
  cmd (ds w) = Some c → Process c = Some pid → pid ∈ running w →
  validParams params → pipeErr env = None → startErr env = None →
  pid ∈ running (debug env params w).2 ∧
  ∃ c', cmd (ds (debug env params w).2) = Some c' ∧
        Process c' = Some (nextPid w) ∧
        Process c' ≠ Process c ∧
        nextPid w ∈ running (debug env params w).2.
Proof.
  intros Hreach Hc Hpid Hrun Hvalid Hpipe Hstart.
  assert (Hfresh : pid < nextPid w).
  { by apply (reachable_knownPids w Hreach). }
  split; [by apply (debug_runningGrows env params w)|].
  destruct (debug_after_Start env params w Hvalid Hpipe Hstart) as (Hcmd & Hr & _).
  eexists. split; [exact Hcmd|]. simpl. split; [done|]. split.
  - rewrite Hpid. intros [= ?]. lia.
  - rewrite Hr. simpl. set_solver.
Qed.

Lemma debug_overwrites_active_session_witness :
  0 ∈ running (debug sampleSpawn sampleParams sampleWorld).2 ∧
  ∃ c', cmd (ds (debug sampleSpawn sampleParams sampleWorld).2) = Some c' ∧
        Process c' = Some (nextPid sampleWorld) ∧
        Process c' ≠ Some 0 ∧
        nextPid sampleWorld ∈ running (debug sampleSpawn sampleParams sampleWorld).2.
Proof.
  apply (debug_overwrites_active_session sampleSpawn sampleParams sampleWorld
           {| cmd_Args := ["dlv"; "dap"; "--listen"; ":9092"; "--log";
                           "--log-output"; "dap"];
              Process := Some 0 |} 0).
  - exists [CallDebug sampleSpawn sampleParams]. vm_compute. reflexivity.
  - reflexivity.
  - reflexivity.
  - simpl. apply list_elem_of_here.
  - left. split; [by right | discriminate].
  - reflexivity.
  - reflexivity.
Defined.

(** C1 fails on the code: a [debug] call on the sample session, whose
    adapter process 0 is running, is not rejected and stops nothing.  It
    succeeds, leaves process 0 running, writes no terminate or disconnect
    request, and stores the handle of the new process 1 and the client of
    the new connection in place of the old ones. *)
Lemma debug_leaks_active_session :
  let w := sampleWorld in
  let r := debug sampleSpawn secondParams w in
  (Process <$> cmd (ds w)) = Some (Some 0) ∧ 0 ∈ running w ∧
  (addr <$> client (ds w)) = Some "localhost:9092" ∧
  r.1 = Ok sampleSnapshot ∧
  running r.2 = [0; 1] ∧
  (Process <$> cmd (ds r.2)) = Some (Some 1) ∧
  (addr <$> client (ds r.2)) = Some "localhost:9093" ∧
  filter endsSession (wire r.2) = [].
Proof.
  intros w r.
  split; [reflexivity|]. split; [apply list_elem_of_here|].
  split; [reflexivity|].
  repeat split; vm_compute; reflexivity.
Qed.

(** ** Clearing breakpoints *)

Lemma tablesAfter_snoc l r :
  tablesAfter (l ++ [r]) = applyRequest (tablesAfter l) r.
Proof. unfold tablesAfter. by rewrite foldl_app. Qed.

Lemma send_next_sent r w c :
  client (ds w) = Some c → nextWriteOk c → sentOf (send r w).2 = sentOf w ++ [r].
Proof.
  intros Hc Hok.
  destruct (send_next r w c Hc Hok) as (w1 & c1 & H1 & _).
  rewrite H1. by apply send_ok in H1 as [(_ & _ & _ & _ & Hs) _].
Qed.

Lemma read_keeps_sent {A} (body : dap.Message → option (Res A)) w :
  sentOf (readUntil body w).2 = sentOf w.
Proof.
  destruct (readUntil body w) as [r w'] eqn:H.
  apply readUntil_any in H as (_ & _ & _ & _ & Hs). simpl.
  by rewrite Hs, app_nil_r.
Qed.

(** One request and one read whose message is dropped, as both branches
    of [clearBreakpoints] have them. *)
Lemma send_and_drop r (text : string) w c m :
  client (ds w) = Some c → nextWriteOk c → nextRead (inbox c) = RMsg m →
  ∃ w', ((send r;; ReadMessage;; mret text) : M string) w = (Ok text, w') ∧
        wire w' = wire w ++ [r] ∧ sentOf w' = sentOf w ++ [r].
Proof.
  intros Hc Hok Hm.
  destruct (send_next r w c Hc Hok) as (w1 & c1 & H1 & Hc1 & Hin1 & _ & Hw1).
  pose proof (send_next_sent r w c Hc Hok) as Hs1. rewrite H1 in Hs1.
  destruct (read_one w1 c1 Hc1) as (w2 & c2 & H2 & _ & _ & _ & Hw2).
  rewrite Hin1, Hm in H2.
  pose proof (read_keeps_sent (λ m, Some (Ok m)) w1) as Hs2.
  change (readUntil (λ m, Some (Ok m))) with ReadMessage in Hs2.
  rewrite H2 in Hs2. simpl in Hs1, Hs2.
  exists w2. erewrite bind_ok by exact H1. erewrite bind_ok by exact H2.
  split; [done|]. by rewrite Hw2, Hw1, Hs2, Hs1.
Qed.

(** C2, on the code.  With a session started, the write succeeding and a
    message arriving, [clearBreakpoints] with [all] set answers that all
    breakpoints are cleared, having written one set-function-breakpoints
    request with the empty list and nothing else: the function table is
    re-set to empty and the table of every file is what it was, so every
    line armed in a file is still armed.  Without [all] and with a file it
    writes one set-breakpoints request for the file with the empty list:
    the table of that file is re-set to empty, and the other tables are
    what they were. *)
Theorem clearBreakpoints_tables params w c m :
  client (ds w) = Some c → nextWriteOk c → nextRead (inbox c) = RMsg m →
  (ClearBreakpointsParams.All params = true →
     (clearBreakpoints params w).1 = Ok "Cleared all breakpoints" ∧
     wire (clearBreakpoints params w).2 =
       wire w ++ [SetFunctionBreakpointsRequest []] ∧
     functionTable (tablesAfter (sentOf (clearBreakpoints params w).2)) = [] ∧
     fileTable (tablesAfter (sentOf (clearBreakpoints params w).2)) =
       fileTable (tablesAfter (sentOf w))) ∧
  (ClearBreakpointsParams.All params = false →
   ClearBreakpointsParams.File params ≠ "" →
     (clearBreakpoints params w).1 =
       Ok ("Cleared breakpoints in: " +:+ ClearBreakpointsParams.File params) ∧
     wire (clearBreakpoints params w).2 =
       wire w ++ [SetBreakpointsRequest (ClearBreakpointsParams.File params) []] ∧
     armed (tablesAfter (sentOf (clearBreakpoints params w).2))
           (ClearBreakpointsParams.File params) = [] ∧
     (∀ file, file ≠ ClearBreakpointsParams.File params →
        armed (tablesAfter (sentOf (clearBreakpoints params w).2)) file =
        armed (tablesAfter (sentOf w)) file) ∧
     functionTable (tablesAfter (sentOf (clearBreakpoints params w).2)) =
       functionTable (tablesAfter (sentOf w))).
Proof.
  intros Hc Hok Hm. unfold clearBreakpoints.
  erewrite bind_ok by by eapply requireClient_ok.
  split.
  - intros ->.
    destruct (send_and_drop (SetFunctionBreakpointsRequest [])
                "Cleared all breakpoints" w c m Hc Hok Hm) as (w' & -> & Hw & Hs).
    simpl. by rewrite Hw, Hs, tablesAfter_snoc.
  - intros -> Hfile. rewrite decide_True by done.
    destruct (send_and_drop
                (SetBreakpointsRequest (ClearBreakpointsParams.File params) [])
                ("Cleared breakpoints in: " +:+ ClearBreakpointsParams.File params)
                w c m Hc Hok Hm) as (w' & -> & Hw & Hs).
    simpl. rewrite Hw, Hs, tablesAfter_snoc. unfold armed. simpl.
    split; [done|]. split; [done|]. split; [by rewrite lookup_insert_eq|].
    split; [|done]. intros file Hne. by rewrite lookup_insert_ne.
Qed.

Lemma clearBreakpoints_tables_witness :
  (armed (tablesAfter (sentOf answeredWorld)) "main.go" = [15%Z] ∧
   (clearBreakpoints clearAll answeredWorld).1 = Ok "Cleared all breakpoints" ∧
   wire (clearBreakpoints clearAll answeredWorld).2 =
     wire answeredWorld ++ [SetFunctionBreakpointsRequest []] ∧
   armed (tablesAfter (sentOf (clearBreakpoints clearAll answeredWorld).2)) "main.go" =
     [15%Z]) ∧
  ((clearBreakpoints clearMain clearedWorld).1 = Ok "Cleared breakpoints in: main.go" ∧
   wire (clearBreakpoints clearMain clearedWorld).2 =
     wire clearedWorld ++ [SetBreakpointsRequest "main.go" []] ∧
   armed (tablesAfter (sentOf (clearBreakpoints clearMain clearedWorld).2)) "main.go" =
     []).
Proof.
  split.
  - destruct (clearBreakpoints_tables clearAll answeredWorld
                (sampleClient (inboxOf answeredWorld))
                (dap.OtherResponse "*dap.SetFunctionBreakpointsResponse" okResponse))
      as [(Hr & Hw & _ & Hf) _].
    + reflexivity.
    + intros e. discriminate.
    + reflexivity.
    + reflexivity.
    + split; [reflexivity|]. split; [exact Hr|]. split; [exact Hw|].
      unfold armed. rewrite Hf. reflexivity.
  - destruct (clearBreakpoints_tables clearMain clearedWorld
                (sampleClient (inboxOf clearedWorld))
                (dap.SetBreakpointsResponse okResponse []))
      as [_ H].
    + reflexivity.
    + intros e. discriminate.
    + reflexivity.
    + destruct H as (Hr & Hw & Ha & _); [reflexivity|discriminate|].
      split; [exact Hr|]. split; [exact Hw|exact Ha].
Defined.

(** C2, at the input where it fails.  In the sample session line 15 of
    the main file is armed; clearing with [all] set answers that all
    breakpoints are cleared, and line 15 is still armed. *)
Lemma clearBreakpoints_all_keeps_file_table :
  let r := clearBreakpoints clearAll answeredWorld in
  armed (tablesAfter (sentOf answeredWorld)) "main.go" = [15%Z] ∧
  r.1 = Ok "Cleared all breakpoints" ∧
  armed (tablesAfter (sentOf r.2)) "main.go" = [15%Z].
Proof. intros r. repeat split; vm_compute; reflexivity. Qed.

(** ** Restarting *)

#[local] Instance keepsLaunch_preorder : PreOrder keepsLaunch.
Proof.
  split; [by intros w|].
  intros w1 w2 w3 (? & ? & ?) (? & ? & ?). repeat split; congruence.
Qed.

Lemma send_keepsLaunch r : steps keepsLaunch (send r).
Proof.
  intros [[k [c|] lm pp pa] run np wi]; unfold send; simpl; [|done].
  by destruct (head (sendErrs c)) as [[e|]|].
Qed.

Lemma readUntil_keepsLaunch {A} (body : dap.Message → option (Res A)) :
  steps keepsLaunch (readUntil body).
Proof.
  intros [[k [c|] lm pp pa] run np wi]; unfold readUntil; simpl; [|done].
  by destruct (readLoop body (inbox c)).
Qed.

Lemma readAndValidateResponse_keepsLaunch prefix :
  steps keepsLaunch (readAndValidateResponse prefix).
Proof. apply readUntil_keepsLaunch. Qed.

#[local] Hint Resolve send_keepsLaunch readUntil_keepsLaunch
  readAndValidateResponse_keepsLaunch : steps.






(** ** Continuing to a location *)

Lemma foldl_leavesTables t l :
  Forall leavesTables l → foldl applyRequest t l = t.
Proof.
  intros H. revert t. induction H as [|r l Hr _ IH]; intros t; [done|].
  simpl. rewrite IH. by destruct r.
Qed.

Lemma tablesAfter_app l1 l2 :
  tablesAfter (l1 ++ l2) = foldl applyRequest (tablesAfter l1) l2.
Proof. unfold tablesAfter. by rewrite foldl_app. Qed.

Lemma inspects_leavesTables r : inspects r → leavesTables r.
Proof. by destruct r. Qed.

Lemma afterHalt_emits h : steps (emits inspects) (afterHalt h).
Proof. destruct h; simpl; [apply getFullContext_emits | steps_split]. Qed.

(** What [continueExecution] with a file and line target does in general:
    a successful call has written the set-breakpoints request for the
    target, then the continue, then only requests of the snapshot; no
    request after the continue touches a breakpoint table, so the target
    is still armed when the call returns. *)
Lemma continueExecution_to_line_ok params to w text w' :
  ContinueParams.To params = Some to →
  BreakpointSpec.Function to = "" →
  BreakpointSpec.File to ≠ "" → (0 < BreakpointSpec.Line to)%Z →
  continueExecution params w = (Ok text, w') →
  ∃ rest,
    wrote (SetBreakpointsRequest (BreakpointSpec.File to) [BreakpointSpec.Line to]
           :: ContinueRequest (ContinueParams.ThreadID params) :: rest) w w' ∧
    Forall inspects rest ∧
    armed (tablesAfter (sentOf w')) (BreakpointSpec.File to) = [BreakpointSpec.Line to].
Proof.
  intros Hto Hfun Hfile Hline H. unfold continueExecution in H. rewrite Hto in H.
  bind_inv H w1 H1. unfold requireClient in H1.
  destruct (client (ds w)); [|done]. simplify_eq.
  bind_inv H w2 H2.
  rewrite decide_False in H2 by (by intros ?).
  rewrite decide_True in H2 by done.
  bind_inv H2 w3 H3. apply send_ok in H3 as [H3 _].
  bind_inv H2 w4 H4. apply readUntil_any in H4.
  apply ret_ok_inv in H2 as [_ <-].
  bind_inv H w5 H5. apply send_ok in H5 as [H5 _].
  bind_inv H w6 H6. apply readUntil_any in H6.
  pose proof (afterHalt_emits x3 w6) as Hctx. rewrite H in Hctx. simpl in Hctx.
  apply emits_wrote in Hctx as (rest & Hrest & Hinsp).
  pose proof (wrote_trans _ _ _ _ _ H3 H4) as Ha.
  pose proof (wrote_trans _ _ _ _ _ Ha H5) as Hb.
  pose proof (wrote_trans _ _ _ _ _ Hb H6) as Hc.
  pose proof (wrote_trans _ _ _ _ _ Hc Hrest) as Hd.
  simpl in Hd. exists rest. split; [done|]. split; [done|].
  destruct Hd as (_ & _ & _ & _ & ->).
  rewrite (tablesAfter_app _ (_ :: _ :: rest)). simpl.
  rewrite foldl_leavesTables
    by (eapply Forall_impl; [exact Hinsp | apply inspects_leavesTables]).
  unfold armed. simpl. by rewrite lookup_insert_eq.
Qed.

(** C7, at the input where it fails.  In the sample session line 15 of
    the main file is armed.  A continue to line 20 of that file succeeds;
    the requests it writes are the set-breakpoints request for line 20,
    the continue and the two requests of the snapshot, none of which
    disarms the target: when the call returns, line 20 is armed, as an
    ordinary breakpoint, and line 15 no longer is.  A plain continue that
    follows writes no breakpoint request either, so line 20 is armed
    during and after that resume as well. *)
Theorem continue_to_leaves_target_armed :
  let w := cursorWorld in
  let r := continueExecution runToLine20 w in
  let r' := continueExecution plainContinue (deliver stopAt20 r.2) in
  armed (tablesAfter (sentOf w)) "main.go" = [15%Z] ∧
  (∃ text, r.1 = Ok text) ∧
  wire r.2 = wire w ++ [SetBreakpointsRequest "main.go" [20%Z]; ContinueRequest 0;
                        StackTraceRequest 1 0 20; ScopesRequest 1000] ∧
  armed (tablesAfter (sentOf r.2)) "main.go" = [20%Z] ∧
  (∃ text, r'.1 = Ok text) ∧
  wire r'.2 = wire r.2 ++ [ContinueRequest 0; StackTraceRequest 1 0 20;
                           ScopesRequest 1000] ∧
  armed (tablesAfter (sentOf r'.2)) "main.go" = [20%Z].
Proof.
  intros w r r'. split; [vm_compute; reflexivity|]. split.
  { eexists. vm_compute. reflexivity. }
  split; [vm_compute; reflexivity|]. split; [vm_compute; reflexivity|]. split.
  { eexists. vm_compute. reflexivity. }
  split; vm_compute; reflexivity.
Qed.

(** ** The context snapshot under partial failure *)

Lemma append_assoc (a b c : string) : (a +:+ b) +:+ c = a +:+ b +:+ c.
Proof. induction a as [|x a IH]; [done|]. change (String x ((a +:+ b) +:+ c) = String x (a +:+ b +:+ c)). by rewrite IH. Qed.

Lemma scopeBlocks_app before s after rb r ra :
  length rb = length (filter fetches before) → fetches s →
  scopeBlocks (before ++ s :: after) (rb ++ r :: ra) =
  scopeBlocks before rb +:+ scopeBlock s r +:+ scopeBlocks after ra.
Proof.
  intros Hlen Hs. revert rb Hlen.
  induction before as [|b before IH]; intros rb Hlen.
  - destruct rb; [|done]. cbn [app scopeBlocks]. by rewrite decide_True.
  - rewrite <- app_comm_cons. cbn [scopeBlocks].
    rewrite filter_cons in Hlen. destruct (decide (fetches b)).
    + destruct rb as [|r0 rb]; [done|]. rewrite <- app_comm_cons.
      rewrite IH by (simpl in Hlen; lia). by rewrite append_assoc.
    + rewrite IH by done. by rewrite !append_assoc.
Qed.

Lemma firstReply_not_event l m : firstReply l = RMsg m → dap.isEvent m = false.
Proof.
  induction l as [|[m'|e] l IH]; simpl; [done| |done].
  destruct (dap.isEvent m') eqn:Hm'; [done|]. by intros [= <-].
Qed.

Lemma readLoop_reply {A} (body : dap.Message → option (Res A)) l :
  (∀ m, dap.isEvent m = true → body m = None) →
  (∀ m, dap.isEvent m = false → is_Some (body m)) →
  readLoop body l =
  (match firstReply l with
   | RMsg m => default (Err EOF) (body m)
   | RErr e => Err e
   end, afterReply l).
Proof.
  intros Hev Hrep. induction l as [|[m|e] l IH]; simpl; [done| |done].
  destruct (dap.isEvent m) eqn:Hm.
  - by rewrite (Hev m Hm).
  - by destruct (Hrep m Hm) as [r ->].
Qed.

Lemma onStackTrace_reply l :
  readLoop onStackTrace l =
  (match firstReply l with
   | RMsg m => default (Err EOF) (onStackTrace m)
   | RErr e => Err e
   end, afterReply l).
Proof.
  apply readLoop_reply; intros m Hm; destruct m; try done;
    simpl; by destruct (dap.Response.Success _).
Qed.

Lemma onScopes_reply l :
  readLoop onScopes l =
  (match firstReply l with
   | RMsg m => default (Err EOF) (onScopes m)
   | RErr e => Err e
   end, afterReply l).
Proof.
  apply readLoop_reply; intros m Hm; destruct m; try done;
    simpl; by destruct (dap.Response.Success _).
Qed.

Lemma scopeBlocks_cons s rest reads :
  scopeBlocks (s :: rest) reads =
  if decide (fetches s)
  then scopeBlock s (nextRead reads) +:+ scopeBlocks rest (tail reads)
  else scopeWith s "" +:+ scopeBlocks rest reads.
Proof. cbn [scopeBlocks]. case_decide; [|done]. by destruct reads. Qed.

(** One scope, when every write succeeds: its text comes from the next
    read alone, and the scope never fails the snapshot. *)
Lemma scopeText_quiet s w c :
  client (ds w) = Some c → sendErrs c = [] →
  ∃ w' c', client (ds w') = Some c' ∧ sendErrs c' = [] ∧
    if decide (fetches s)
    then scopeText s w = (Ok (scopeBlock s (nextRead (inbox c))), w') ∧
         inbox c' = tail (inbox c)
    else scopeText s w = (Ok (scopeWith s ""), w') ∧ inbox c' = inbox c.
Proof.
  destruct w as [[k cl lm pp pa] run np wi]. simpl. intros ->.
  destruct c as [ad se er ib closed]. simpl. intros ->.
  unfold scopeText, fetches.
  destruct (decide (0 < dap.Scope.VariablesReference s)%Z).
  - destruct ib as [|[m|e] ib].
    + eexists _, _. split; [|split; [|split]]; [| |reflexivity|]; reflexivity.
    + destruct m as [| |resp vars| | | | | | | | | |];
        try (eexists _, _; split; [|split; [|split]]; [| |reflexivity|]; reflexivity).
      destruct resp as [[] msg];
        eexists _, _; (split; [|split; [|split]]; [| |reflexivity|]); reflexivity.
    + eexists _, _. split; [|split; [|split]]; [| |reflexivity|]; reflexivity.
  - eexists _, _. split; [|split; [|split]]; [| |reflexivity|]; reflexivity.
Qed.

Lemma scopesText_blocks scopes : ∀ w c,
  client (ds w) = Some c → sendErrs c = [] →
  ∃ w', scopesText scopes w = (Ok (scopeBlocks scopes (inbox c)), w').
Proof.
  induction scopes as [|s scopes IH]; intros w c Hc Hq; [by eexists|].
  cbn [scopesText]. rewrite scopeBlocks_cons.
  destruct (scopeText_quiet s w c Hc Hq) as (w1 & c1 & Hc1 & Hq1 & H).
  destruct (decide (fetches s)); destruct H as [Hs Hin];
    destruct (IH w1 c1 Hc1 Hq1) as [w2 H2]; rewrite Hin in H2;
    erewrite bind_ok by exact Hs; erewrite bind_ok by exact H2; by eexists.
Qed.

Lemma send_quiet r w c :
  client (ds w) = Some c → sendErrs c = [] →
  ∃ w' c', send r w = (Ok tt, w') ∧ client (ds w') = Some c' ∧
           sendErrs c' = [] ∧ inbox c' = inbox c.
Proof.
  destruct w as [[k cl lm pp pa] run np wi]. simpl. intros ->.
  destruct c as [ad se er ib closed]. simpl. intros ->.
  by eexists _, _.
Qed.

Lemma readUntil_client {A} (body : dap.Message → option (Res A)) w c :
  client (ds w) = Some c →
  ∃ w' c', readUntil body w = ((readLoop body (inbox c)).1, w') ∧
           client (ds w') = Some c' ∧ sendErrs c' = sendErrs c ∧
           inbox c' = (readLoop body (inbox c)).2.
Proof.
  destruct w as [[k cl lm pp pa] run np wi]. simpl. intros ->.
  unfold readUntil. simpl. destruct (readLoop body (inbox c)) as [r rest].
  by eexists _, _.
Qed.

(** The stack request fails the whole snapshot. *)
Lemma getFullContext_stack_fatal t f n w c :
  client (ds w) = Some c →
  (∃ e, head (sendErrs c) = Some (Some e)) ∨
  (sendErrs c = [] ∧
   ∀ resp frames, firstReply (inbox c) = RMsg (dap.StackTraceResponse resp frames) →
                  dap.Response.Success resp = false) →
  ∃ e w', getFullContext t f n w = (Err e, w').
Proof.
  intros Hc Hfail. unfold getFullContext.
  erewrite bind_ok by by eapply requireClient_ok.
  destruct Hfail as [[e He]|[Hq Hreply]].
  - destruct (send_fails (StackTraceRequest t 0 n) w c e Hc He) as [w1 H1].
    erewrite bind_err by exact H1. by eexists _, _.
  - destruct (send_quiet (StackTraceRequest t 0 n) w c Hc Hq)
      as (w1 & c1 & H1 & Hc1 & Hq1 & Hin1).
    erewrite bind_ok by exact H1.
    destruct (readUntil_client onStackTrace w1 c1 Hc1) as (w2 & c2 & H2 & _).
    rewrite Hin1, onStackTrace_reply in H2. simpl in H2.
    destruct (firstReply (inbox c)) as [m|e] eqn:Hm.
    + destruct m; simpl in H2;
        try (erewrite bind_err by exact H2; by eexists _, _).
      rewrite (Hreply _ _ eq_refl) in H2.
      erewrite bind_err by exact H2. by eexists _, _.
    + erewrite bind_err by exact H2. by eexists _, _.
Qed.

(** With the stack at hand and every write succeeding, the snapshot is
    decided by the reply to the scopes request and by the reads after it. *)
Lemma getFullContext_with_stack t f n w c resp frames :
  client (ds w) = Some c → sendErrs c = [] →
  firstReply (inbox c) = RMsg (dap.StackTraceResponse resp frames) →
  dap.Response.Success resp = true →
  ∃ w',
    getFullContext t f n w =
    (match firstReply (afterReply (inbox c)) with
     | RErr e => Err e
     | RMsg (dap.ScopesResponse resp2 scopes) =>
         if dap.Response.Success resp2 then
           match scopes with
           | [] => Ok (stackText frames)
           | _ :: _ =>
               Ok (stackText frames +:+ variablesHeading +:+
                   scopeBlocks scopes (afterReply (afterReply (inbox c))))
           end
         else Ok (stackText frames +:+ variablesHeading +:+ scopesUnavailable)
     | RMsg m => Err (unexpectedType m)
     end, w').
Proof.
  intros Hc Hq Hstack Hok. unfold getFullContext.
  erewrite bind_ok by by eapply requireClient_ok.
  destruct (send_quiet (StackTraceRequest t 0 n) w c Hc Hq)
    as (w1 & c1 & H1 & Hc1 & Hq1 & Hin1).
  erewrite bind_ok by exact H1.
  destruct (readUntil_client onStackTrace w1 c1 Hc1) as (w2 & c2 & H2 & Hc2 & Hq2 & Hin2).
  rewrite Hin1, onStackTrace_reply in H2, Hin2. rewrite Hstack in H2.
  simpl in H2, Hin2. rewrite Hok in H2. rewrite Hq1 in Hq2.
  erewrite bind_ok by exact H2.
  destruct (send_quiet (ScopesRequest (targetFrame f frames)) w2 c2 Hc2 Hq2)
    as (w3 & c3 & H3 & Hc3 & Hq3 & Hin3).
  erewrite bind_ok by exact H3.
  destruct (readUntil_client onScopes w3 c3 Hc3) as (w4 & c4 & H4 & Hc4 & Hq4 & Hin4).
  rewrite Hin3, Hin2, onScopes_reply in H4, Hin4. simpl in H4, Hin4.
  rewrite Hq3 in Hq4.
  destruct (firstReply (afterReply (inbox c))) as [m|e] eqn:Hm.
  - apply firstReply_not_event in Hm.
    destruct m; try done; simpl in H4;
      try (erewrite bind_err by exact H4; by eexists).
    destruct (dap.Response.Success r) eqn:Hr.
    + erewrite bind_ok by exact H4.
      destruct Scopes as [|s scopes]; [by eexists|].
      destruct (scopesText_blocks (s :: scopes) w4 c4 Hc4 Hq4) as [w5 H5].
      rewrite Hin4 in H5. erewrite bind_ok by exact H5. by eexists.
    + erewrite bind_ok by exact H4. by eexists.
  - erewrite bind_err by exact H4. by eexists.
Qed.

(** C4, on the code.  A failure to fetch the call stack, be it the write
    of the request, the read of the reply or a reply that is not a
    successful stack trace, makes [getFullContext] return an error.  With
    the stack at hand and every write succeeding, the reply to the scopes
    request decides.  As the decoder delivers it, a reply is either the
    scopes, and then the snapshot is returned, or anything else, and then
    the whole operation returns an error that names the type of the reply:
    a rejected scopes request arrives as an error response, so it fails
    the snapshot and no snapshot is marked for its scopes.  A read error
    in place of the reply is returned as well.  When the scopes arrive,
    the text of each scope that has variables comes from the one read
    that follows its request, and a read that yields no variables marks
    that scope alone.  That read need not be the reply to the request:
    after an event the first scope is marked, and the second scope shows
    the variables that answer the request of the first. *)
Theorem getFullContext_failures t f n w c :
  client (ds w) = Some c →
  ((∃ e, head (sendErrs c) = Some (Some e)) ∨
   (sendErrs c = [] ∧
    ∀ resp frames,
      firstReply (inbox c) = RMsg (dap.StackTraceResponse resp frames) →
      dap.Response.Success resp = false) →
   ∃ e w', getFullContext t f n w = (Err e, w')) ∧
  (∀ resp frames,
     sendErrs c = [] →
     firstReply (inbox c) = RMsg (dap.StackTraceResponse resp frames) →
     dap.Response.Success resp = true →
     (∀ m,
        firstReply (afterReply (inbox c)) = RMsg m → decoded m →
        (getFullContext t f n w).1 =
          match m with
          | dap.ScopesResponse _ [] => Ok (stackText frames)
          | dap.ScopesResponse _ scopes =>
              Ok (stackText frames +:+ variablesHeading +:+
                  scopeBlocks scopes (afterReply (afterReply (inbox c))))
          | _ => Err ("unexpected response type: " +:+ dap.typeName m)
          end) ∧
     (∀ e,
        firstReply (afterReply (inbox c)) = RErr e →
        (getFullContext t f n w).1 = Err e) ∧
     (∀ resp2 before s after rb r ra,
        firstReply (afterReply (inbox c)) =
          RMsg (dap.ScopesResponse resp2 (before ++ s :: after)) →
        dap.Response.Success resp2 = true →
        afterReply (afterReply (inbox c)) = rb ++ r :: ra →
        length rb = length (filter fetches before) → fetches s →
        (getFullContext t f n w).1 =
          Ok (stackText frames +:+ variablesHeading +:+
              scopeBlocks before rb +:+ scopeBlock s r +:+
              scopeBlocks after ra) ∧
        (variablesOf r = None → scopeBlock s r = scopeWith s variablesUnavailable)) ∧
     (∀ resp2 s1 s2 scopes ev r rest,
        firstReply (afterReply (inbox c)) =
          RMsg (dap.ScopesResponse resp2 (s1 :: s2 :: scopes)) →
        dap.Response.Success resp2 = true →
        fetches s1 → fetches s2 →
        afterReply (afterReply (inbox c)) = RMsg ev :: r :: rest →
        dap.isEvent ev = true →
        (getFullContext t f n w).1 =
          Ok (stackText frames +:+ variablesHeading +:+
              scopeWith s1 variablesUnavailable +:+ scopeBlock s2 r +:+
              scopeBlocks scopes rest))).
Proof.
  intros Hc. split; [by apply getFullContext_stack_fatal|].
  intros resp frames Hq Hstack Hok.
  destruct (getFullContext_with_stack t f n w c resp frames Hc Hq Hstack Hok)
    as [w' H].
  rewrite H. clear H. simpl. repeat apply conj.
  - intros m -> Hdec.
    destruct m; simpl in Hdec; try done.
    rewrite Hdec. by destruct Scopes.
  - by intros e ->.
  - intros resp2 before s after rb r ra -> -> -> Hlen Hs.
    rewrite scopeBlocks_app by done.
    split; [by destruct before | by unfold scopeBlock; intros ->].
  - intros resp2 s1 s2 scopes ev r rest -> -> Hs1 Hs2 -> Hev.
    rewrite !scopeBlocks_cons, !decide_True by done. simpl.
    unfold scopeBlock at 1. by destruct ev.
Qed.

Lemma getFullContext_failures_witness :
  (getFullContext 1 0 20 failedScopesWorld).1 =
    Err "unexpected response type: *dap.ErrorResponse" ∧
  (getFullContext 1 0 20 shiftedWorld).1 =
    Ok (stackText [mainFrame] +:+ variablesHeading +:+
        scopeWith argumentsScope variablesUnavailable +:+
        scopeWith localsScope (variableLines [nameArgument]) +:+
        scopeBlocks [] [RMsg (dap.VariablesResponse okResponse [greeting])]).
Proof.
  split.
  - destruct (getFullContext_failures 1 0 20 failedScopesWorld
                (sampleClient (inboxOf failedScopesWorld)) eq_refl) as [_ H].
    destruct (H okResponse [mainFrame] eq_refl eq_refl eq_refl) as (Hreply & _).
    apply (Hreply (dap.ErrorResponse (failedResponse "unable to list scopes")));
      reflexivity.
  - destruct (getFullContext_failures 1 0 20 shiftedWorld
                (sampleClient (inboxOf shiftedWorld)) eq_refl) as [_ H].
    destruct (H okResponse [mainFrame] eq_refl eq_refl eq_refl)
      as (_ & _ & _ & Hshift).
    apply (Hshift okResponse argumentsScope localsScope []
             (dap.OtherEvent "*dap.OutputEvent")
             (RMsg (dap.VariablesResponse okResponse [nameArgument]))
             [RMsg (dap.VariablesResponse okResponse [greeting])]);
      try reflexivity; unfold fetches; simpl; lia.
Defined.

(** C4, at another input where it fails.  The stack arrives, then the
    connection breaks while the handler waits for the scopes.  No snapshot
    is returned; the whole operation returns the read error. *)
Lemma getFullContext_scopes_read_error :
  let w := deliver [RMsg (dap.StackTraceResponse okResponse [mainFrame]);
                    RErr "read tcp 127.0.0.1:9092: connection reset by peer"]
                   sampleWorld in
  firstReply (inboxOf w) = RMsg (dap.StackTraceResponse okResponse [mainFrame]) ∧
  firstReply (afterReply (inboxOf w)) =
    RErr "read tcp 127.0.0.1:9092: connection reset by peer" ∧
  (getFullContext 1 0 20 w).1 =
    Err "read tcp 127.0.0.1:9092: connection reset by peer".
Proof. intros w. repeat split; vm_compute; reflexivity. Qed.

(** ** One line per set-breakpoints request *)

(** As [bind_inv], naming the value of the first computation as well. *)
Ltac bind_inv_as H a w1 Hm :=
  apply bind_ok_inv in H; destruct H as (a & w1 & Hm & H).

Lemma initialRequest_fileBreakpoint bp :
  fileBreakpoint bp → initialRequest bp = [lineRequest bp].
Proof.
  intros (Hf & Hfile & Hline). unfold initialRequest.
  rewrite decide_False by (by intros ?). by rewrite decide_True.
Qed.

Lemma initialRequest_filter bp :
  filter isSetBreakpoints (initialRequest bp) =
  if decide (fileBreakpoint bp) then [lineRequest bp] else [].
Proof.
  unfold initialRequest, fileBreakpoint.
  repeat case_decide; try done; exfalso; intuition.
Qed.

Lemma initialRequests_filter bps :
  filter isSetBreakpoints (concat (initialRequest <$> bps)) =
  lineRequest <$> filter fileBreakpoint bps.
Proof.
  induction bps as [|bp bps IH]; [done|].
  rewrite fmap_cons. change (concat (?x :: ?l)) with (x ++ concat l).
  rewrite filter_app, IH, initialRequest_filter, filter_cons.
  by case_decide.
Qed.

Lemma startRequests_filter p :
  filter isSetBreakpoints (startRequests p) =
  lineRequest <$> filter fileBreakpoint (DebugParams.Breakpoints p).
Proof.
  unfold startRequests. rewrite !filter_app, initialRequests_filter.
  assert (filter isSetBreakpoints [InitializeRequest; launchOrAttach p] = []) as ->.
  { unfold launchOrAttach. by repeat case_decide. }
  simpl. by rewrite app_nil_r.
Qed.

Lemma leavesTables_filter l :
  Forall leavesTables l → filter isSetBreakpoints l = [].
Proof.
  induction 1 as [|r l Hr _ IH]; [done|].
  rewrite filter_cons, IH. by destruct r.
Qed.

Lemma armed_untouched file t l :
  Forall (λ r, ¬ touches file r) l →
  armed (foldl applyRequest t l) file = armed t file.
Proof.
  intros H. revert t. induction H as [|r l Hr _ IH]; intros t; [done|].
  simpl. rewrite IH. destruct r; try done.
  unfold armed. simpl. rewrite lookup_insert_ne; [done|]. by intros ->.
Qed.

Lemma armed_last file line before after :
  Forall (λ r, ¬ touches file r) after →
  armed (tablesAfter (before ++ SetBreakpointsRequest file [line] :: after)) file =
  [line].
Proof.
  intros H. rewrite tablesAfter_app. simpl. rewrite armed_untouched by done.
  unfold armed. simpl. by rewrite lookup_insert_eq.
Qed.

Lemma initialRequests_untouched file bps :
  Forall (λ b, ¬ (fileBreakpoint b ∧ BreakpointSpec.File b = file)) bps →
  Forall (λ r, ¬ touches file r) (concat (initialRequest <$> bps)).
Proof.
  induction 1 as [|b bps Hb _ IH]; [constructor|].
  rewrite fmap_cons. change (concat (?x :: ?l)) with (x ++ concat l).
  apply Forall_app. split; [|done].
  unfold initialRequest. repeat case_decide; repeat constructor.
  - by intros [].
  - simpl. intros Hfile. apply Hb. unfold fileBreakpoint.
    destruct (decide (BreakpointSpec.Function b = "")); intuition.
Qed.

Lemma leavesTables_untouched file l :
  Forall leavesTables l → Forall (λ r, ¬ touches file r) l.
Proof.
  intros H. eapply Forall_impl; [exact H|].
  intros r Hr. destruct r; simpl in *; tauto.
Qed.

(** What a successful [debug] has written on the new connection. *)
Lemma debug_ok_wrote env p w text w' :
  debug env p w = (Ok text, w') →
  ∃ rest, wrote (startRequests p ++ rest) (connected env p w) w' ∧
          Forall leavesTables rest.
Proof.
  unfold debug. intros H. bind_inv H w0 Hstart.
  apply startSession_ok in Hstart as (_ & _ & _ & Hstart).
  unfold firstStop in H. destruct (runsToBreakpoint p).
  - bind_inv H w1 H1. apply send_ok in H1 as [H1 _].
    bind_inv H w2 H2. apply readUntil_any in H2.
    pose proof (getFullContext_emits 1 0 20 w2) as Hctx.
    rewrite H in Hctx. simpl in Hctx.
    apply emits_wrote in Hctx as (l & Hl & Hinsp).
    exists (ContinueRequest 0 :: l). split.
    + pose proof (wrote_trans _ _ _ _ _ (wrote_trans _ _ _ _ _
        (wrote_trans _ _ _ _ _ Hstart H1) H2) Hl) as Hall.
      by rewrite app_nil_r, <- app_assoc in Hall.
    + constructor; [done|]. eapply Forall_impl; [exact Hinsp|].
      apply inspects_leavesTables.
  - apply ret_ok_inv in H as [_ <-]. exists []. by rewrite app_nil_r.
Qed.

Lemma breakpoint_line_ok params w text w' :
  BreakpointToolParams.Function params = "" →
  breakpoint params w = (Ok text, w') →
  wrote [SetBreakpointsRequest (BreakpointToolParams.File params)
                               [BreakpointToolParams.Line params]] w w'.
Proof.
  intros Hf H. unfold breakpoint in H.
  bind_inv H w1 H1. unfold requireClient in H1.
  destruct (client (ds w)); [|done]. simplify_eq.
  rewrite decide_False in H by (by intros ?).
  case_decide; [done|].
  bind_inv H w2 H2. apply send_ok in H2 as [H2 _].
  bind_inv_as H msg w3 H3. apply readUntil_any in H3.
  assert (w' = w3) as ->.
  { destruct msg as [| | | |resp [|bp bps]| | | | | | | |]; try done.
    - destruct (dap.Breakpoint.Verified bp); [|done].
      by apply ret_ok_inv in H as [_ <-]. }
  by apply (wrote_trans _ _ _ _ _ H2) in H3.
Qed.

(** C10.  Every set-breakpoints request that the server has written in a
    reachable world carries at most one line.  With a session started and
    the write succeeding, a [breakpoint] call by file and line writes one
    such request with the requested line alone, and nothing else,
    whatever is then read; and so does one turn of the breakpoint loop
    of [debug] for a supplied file breakpoint.  A successful [breakpoint]
    call by file and line has written that one request.  A successful
    [debug] call has written, among the requests
    of the new connection, one set-breakpoints request for each supplied
    file breakpoint, in order, each with the line of that breakpoint
    alone; so with the replace-on-set tables of the adapter, a supplied
    file breakpoint that no later supplied one shares its file with is the
    one line armed in that file when [debug] returns. *)
Theorem single_line_breakpoint_requests :
  (∀ w, reachable w → Forall singleLine (wire w)) ∧
  (∀ params w c,
     client (ds w) = Some c → nextWriteOk c →
     BreakpointToolParams.Function params = "" →
     BreakpointToolParams.File params ≠ "" →
     BreakpointToolParams.Line params ≠ 0%Z →
     wire (breakpoint params w).2 =
       wire w ++ [SetBreakpointsRequest (BreakpointToolParams.File params)
                                        [BreakpointToolParams.Line params]]) ∧
  (∀ bp w c,
     client (ds w) = Some c → nextWriteOk c → fileBreakpoint bp →
     wire (setInitialBreakpoint bp w).2 =
       wire w ++ [SetBreakpointsRequest (BreakpointSpec.File bp)
                                        [BreakpointSpec.Line bp]]) ∧
  (∀ params w text w',
     breakpoint params w = (Ok text, w') →
     BreakpointToolParams.Function params = "" →
     wire w' = wire w ++ [SetBreakpointsRequest (BreakpointToolParams.File params)
                                                [BreakpointToolParams.Line params]]) ∧
  (∀ env params w text w',
     debug env params w = (Ok text, w') →
     ∃ issued,
       wire w' = wire w ++ issued ∧ sentOf w' = issued ∧
       filter isSetBreakpoints issued =
         lineRequest <$> filter fileBreakpoint (DebugParams.Breakpoints params) ∧
       ∀ bps1 bp bps2,
         DebugParams.Breakpoints params = bps1 ++ bp :: bps2 →
         fileBreakpoint bp →
         Forall (λ b, ¬ (fileBreakpoint b ∧
                         BreakpointSpec.File b = BreakpointSpec.File bp)) bps2 →
         armed (tablesAfter issued) (BreakpointSpec.File bp) =
           [BreakpointSpec.Line bp]).
Proof.
  split; [exact reachable_singleLine|]. split; [|split; [|split]].
  - intros params w c Hc Hok Hfun Hfile Hline. unfold breakpoint.
    erewrite bind_ok by by eapply requireClient_ok.
    rewrite decide_False by (by intros ?).
    rewrite decide_False by (by intros [?|?]).
    destruct (send_next (SetBreakpointsRequest (BreakpointToolParams.File params)
                           [BreakpointToolParams.Line params]) w c Hc Hok)
      as (w1 & c1 & H1 & Hc1 & _ & _ & Hw1).
    erewrite bind_ok by exact H1.
    destruct (read_one w1 c1 Hc1) as (w2 & c2 & H2 & _ & _ & _ & Hw2).
    rewrite bind_eq, H2, <- Hw1, <- Hw2.
    destruct (nextRead (inbox c1)) as [m|e]; [|done].
    destruct m as [| | | |resp [|bp bps]| | | | | | | |]; try done.
    by destruct (dap.Breakpoint.Verified bp).
  - intros bp w c Hc Hok (Hfun & Hfile & Hline). unfold setInitialBreakpoint.
    rewrite decide_False by (by intros ?). rewrite decide_True by done.
    destruct (send_next (SetBreakpointsRequest (BreakpointSpec.File bp)
                           [BreakpointSpec.Line bp]) w c Hc Hok)
      as (w1 & c1 & H1 & Hc1 & _ & _ & Hw1).
    erewrite bind_ok by exact H1.
    destruct (read_one w1 c1 Hc1) as (w2 & c2 & H2 & _ & _ & _ & Hw2).
    rewrite bind_eq, H2, <- Hw1, <- Hw2.
    by destruct (nextRead (inbox c1)).
  - intros params w text w' H Hf.
    by destruct (breakpoint_line_ok params w text w' Hf H) as (_ & _ & _ & -> & _).
  - intros env params w text w' H.
    destruct (debug_ok_wrote env params w text w' H)
      as (rest & (_ & _ & _ & Hw & Hs) & Hrest).
    exists (startRequests params ++ rest). split; [done|]. split; [done|]. split.
    + by rewrite filter_app, startRequests_filter, (leavesTables_filter rest),
        app_nil_r.
    + intros bps1 bp bps2 Hbps Hbp Hlast.
      unfold startRequests. rewrite Hbps, fmap_app, fmap_cons, concat_app.
      change (concat (?x :: ?l)) with (x ++ concat l).
      rewrite (initialRequest_fileBreakpoint bp Hbp).
      replace (([InitializeRequest; launchOrAttach params] ++
                (concat (initialRequest <$> bps1) ++
                 [lineRequest bp] ++ concat (initialRequest <$> bps2)) ++
                [ConfigurationDoneRequest]) ++ rest)
        with (([InitializeRequest; launchOrAttach params] ++
               concat (initialRequest <$> bps1)) ++
              lineRequest bp ::
              (concat (initialRequest <$> bps2) ++ [ConfigurationDoneRequest] ++ rest))
        by (by rewrite <- !app_assoc).
      apply armed_last. apply Forall_app. split.
      * by apply initialRequests_untouched.
      * apply Forall_app. split; [|by apply leavesTables_untouched].
        repeat constructor. by intros [].
Qed.

Lemma single_line_breakpoint_requests_witness :
  wire (breakpoint {| BreakpointToolParams.File := "main.go";
                      BreakpointToolParams.Line := 20;
                      BreakpointToolParams.Function := "" |} cursorWorld).2 =
    wire cursorWorld ++ [SetBreakpointsRequest "main.go" [20%Z]] ∧
  wire (setInitialBreakpoint mainBreakpoint clearedWorld).2 =
    wire clearedWorld ++ [SetBreakpointsRequest "main.go" [15%Z]] ∧
  ∃ issued,
    wire (debug twoSpawn twoBreakpoints initialWorld).2 = wire initialWorld ++ issued ∧
    filter isSetBreakpoints issued =
      [SetBreakpointsRequest "main.go" [15%Z]; SetBreakpointsRequest "main.go" [20%Z]] ∧
    armed (tablesAfter issued) "main.go" = [20%Z].
Proof.
  destruct single_line_breakpoint_requests as (_ & Htool & Hloop & _ & H).
  split; [|split].
  - apply (Htool {| BreakpointToolParams.File := "main.go";
                    BreakpointToolParams.Line := 20;
                    BreakpointToolParams.Function := "" |}
                 cursorWorld (sampleClient (inboxOf cursorWorld)));
      [reflexivity | intros e; discriminate | reflexivity | discriminate
      | discriminate].
  - apply (Hloop mainBreakpoint clearedWorld (sampleClient (inboxOf clearedWorld)));
      [reflexivity | intros e; discriminate |].
    split; [reflexivity|]. split; [discriminate|reflexivity].
  - destruct (H twoSpawn twoBreakpoints initialWorld
                (startedText "/tmp/restart")
                (debug twoSpawn twoBreakpoints initialWorld).2)
      as (issued & Hw & _ & Hf & Ha).
    + vm_compute. reflexivity.
    + exists issued. split; [exact Hw|]. split; [exact Hf|].
      apply (Ha [mainBreakpoint]
                {| BreakpointSpec.File := "main.go"; BreakpointSpec.Line := 20;
                   BreakpointSpec.Function := "" |} []).
      * reflexivity.
      * unfold fileBreakpoint. simpl. split; [reflexivity|]. split; [discriminate|lia].
      * constructor.
Defined.

(** ** Witnesses of the remaining statements *)


Lemma debug_rejects_invalid_witness :
  ∃ e, debug sampleSpawn noMode sampleWorld = (Err e, sampleWorld).
Proof.
  apply (debug_rejects_invalid sampleSpawn noMode sampleWorld).
  left. simpl. intros [H|[H|H]]; discriminate H.
Defined.

(** * Further properties of the handlers *)

(** ** Handlers without a session *)

(** X1.  Every tool other than [debug] and [stop], called while the
    session stores no client, fails at once with the error that the
    debugger is not started and leaves the world as it was: nothing is
    written, read, started or stored. *)
Theorem idle_handlers_reject c w :
  needsSession c = true → client (ds w) = None →
  callTool c w = (Err "debugger not started", w).
Proof.
  intros Hc Hw. pose proof (requireClient_none w Hw) as Hr.
  destruct c; try done; simpl;
    unfold restartDebugger, breakpoint, clearBreakpoints, continueExecution,
      step, pauseExecution, context, getFullContext, evaluateExpression,
      setVariable, info, disassembleCode;
    by erewrite bind_err by exact Hr.
Qed.

Lemma idle_handlers_reject_witness :
  callTool (CallEvaluate {| EvaluateParams.Expression := "greeting";
                            EvaluateParams.FrameID := 1000;
                            EvaluateParams.Context := "repl" |}) initialWorld =
  (Err "debugger not started", initialWorld).
Proof. apply idle_handlers_reject; reflexivity. Defined.

(** ** Parameters that are rejected before anything is written *)

(** X2.  With a session started, [step] with a mode other than over, in
    and out fails with the error that names the mode, and leaves the
    world as it was: no request is written and nothing is read. *)
Theorem step_invalid_mode params w c :
  client (ds w) = Some c →
  StepParams.Mode params ≠ "over" → StepParams.Mode params ≠ "in" →
  StepParams.Mode params ≠ "out" →
  step params w =
  (Err ("invalid step mode: " +:+ StepParams.Mode params +:+
        " (must be 'over', 'in', or 'out')"), w).
Proof.
  intros Hc Hover Hin Hout. unfold step.
  erewrite bind_ok by by eapply requireClient_ok.
  by rewrite !decide_False by done.
Qed.

Lemma step_invalid_mode_witness :
  step {| StepParams.Mode := "into"; StepParams.ThreadID := 1 |} sampleWorld =
  (Err "invalid step mode: into (must be 'over', 'in', or 'out')", sampleWorld).
Proof.
  eapply (step_invalid_mode {| StepParams.Mode := "into"; StepParams.ThreadID := 1 |}
            sampleWorld); [reflexivity | discriminate | discriminate | discriminate].
Defined.

(** X3.  With a session started, [info] with a type other than sources
    and modules fails with the error that names the type, and leaves the
    world as it was. *)
Theorem info_invalid_type params w c :
  client (ds w) = Some c →
  InfoParams.Type_ params ≠ "sources" → InfoParams.Type_ params ≠ "modules" →
  info params w =
  (Err ("invalid type: " +:+ InfoParams.Type_ params +:+
        " (must be 'sources' or 'modules')"), w).
Proof.
  intros Hc Hs Hm. unfold info.
  erewrite bind_ok by by eapply requireClient_ok.
  by rewrite !decide_False by done.
Qed.

Lemma info_invalid_type_witness :
  info {| InfoParams.Type_ := "threads" |} sampleWorld =
  (Err "invalid type: threads (must be 'sources' or 'modules')", sampleWorld).
Proof.
  eapply (info_invalid_type {| InfoParams.Type_ := "threads" |} sampleWorld);
    [reflexivity | discriminate | discriminate].
Defined.

(** X4.  With a session started, [breakpoint] without a function name
    and without both a file and a line other than zero fails, and leaves
    the world as it was: no breakpoint request is written. *)
Theorem breakpoint_requires_location params w c :
  client (ds w) = Some c →
  BreakpointToolParams.Function params = "" →
  BreakpointToolParams.File params = "" ∨ BreakpointToolParams.Line params = 0%Z →
  breakpoint params w = (Err "either function or file+line is required", w).
Proof.
  intros Hc Hf Hloc. unfold breakpoint.
  erewrite bind_ok by by eapply requireClient_ok.
  rewrite decide_False by (by intros ?). by rewrite decide_True.
Qed.

Lemma breakpoint_requires_location_witness :
  breakpoint {| BreakpointToolParams.File := "main.go";
                BreakpointToolParams.Line := 0;
                BreakpointToolParams.Function := "" |} sampleWorld =
  (Err "either function or file+line is required", sampleWorld).
Proof.
  eapply (breakpoint_requires_location _ sampleWorld);
    [reflexivity | reflexivity | by right].
Defined.

(** ** Evaluating an expression *)

Lemma onEvaluate_reply l :
  readLoop onEvaluate l =
  (match firstReply l with
   | RMsg m => default (Err EOF) (onEvaluate m)
   | RErr e => Err e
   end, afterReply l).
Proof.
  apply readLoop_reply; intros m Hm; destruct m; try done;
    simpl; by destruct (dap.Response.Success _).
Qed.

(** X5.  With a session started, the write succeeding and the reply as
    the decoder delivers it, [evaluate] writes one evaluate request, with
    the context [repl] when none is given, and its outcome is decided by
    the first thing read that is not an event.  An evaluate response gives
    its result, followed by the type when there is one; a read error is
    returned; and any other message gives the error that names its type.
    A failed evaluation arrives as an error response, so the call then
    fails with [unexpected response type: *dap.ErrorResponse] and the
    message of the adapter is not reported.  The events before the reply
    are dropped and everything after the reply is left to be read. *)
Theorem evaluate_reply params w c :
  client (ds w) = Some c → nextWriteOk c →
  (∀ m, firstReply (inbox c) = RMsg m → decoded m) →
  (evaluateExpression params w).1 =
    match firstReply (inbox c) with
    | RErr e => Err e
    | RMsg (dap.EvaluateResponse _ result type) =>
        Ok (if decide (type = "") then result
            else result +:+ " (type: " +:+ type +:+ ")")
    | RMsg m => Err ("unexpected response type: " +:+ dap.typeName m)
    end ∧
  (∀ failure, firstReply (inbox c) = RMsg (dap.ErrorResponse failure) →
     (evaluateExpression params w).1 =
       Err "unexpected response type: *dap.ErrorResponse") ∧
  wire (evaluateExpression params w).2 =
    wire w ++ [EvaluateRequest (EvaluateParams.Expression params)
                               (EvaluateParams.FrameID params)
                               (if decide (EvaluateParams.Context params = "")
                                then "repl" else EvaluateParams.Context params)] ∧
  inboxOf (evaluateExpression params w).2 = afterReply (inbox c).
Proof.
  intros Hc Hok Hdec. unfold evaluateExpression.
  erewrite bind_ok by by eapply requireClient_ok.
  edestruct (send_next) as (w1 & c1 & H1 & Hc1 & Hin1 & _ & Hw1); [exact Hc|exact Hok|].
  erewrite bind_ok by exact H1.
  destruct (read_next onEvaluate w1 c1 Hc1) as (w2 & c2 & H2 & Hc2 & Hin2 & _ & Hw2).
  rewrite H2. simpl. rewrite (inboxOf_client _ _ Hc2), Hin2, Hw2, Hw1, Hin1.
  rewrite onEvaluate_reply. simpl.
  split; [|split; [by intros failure ->|done]].
  destruct (firstReply (inbox c)) as [m|e] eqn:Hm; [|done].
  specialize (Hdec m eq_refl).
  apply firstReply_not_event in Hm.
  destruct m; try done. simpl in *. rewrite Hdec. by repeat case_decide.
Qed.

Lemma evaluate_reply_witness :
  let p := {| EvaluateParams.Expression := "greeting";
              EvaluateParams.FrameID := 1000;
              EvaluateParams.Context := "" |} in
  let w := deliver [RMsg (dap.OtherEvent "*dap.OutputEvent");
                    RMsg (dap.EvaluateResponse okResponse "hello, world" "string");
                    RMsg (dap.StoppedEvent 1)] sampleWorld in
  let w' := deliver [RMsg (dap.ErrorResponse
                             (failedResponse "could not find symbol value for greeting"))]
                    sampleWorld in
  ((evaluateExpression p w).1 = Ok "hello, world (type: string)" ∧
   wire (evaluateExpression p w).2 =
     wire w ++ [EvaluateRequest "greeting" 1000 "repl"] ∧
   inboxOf (evaluateExpression p w).2 = [RMsg (dap.StoppedEvent 1)]) ∧
  (evaluateExpression p w').1 = Err "unexpected response type: *dap.ErrorResponse".
Proof.
  intros p w w'. split.
  - destruct (evaluate_reply p w (sampleClient (inboxOf w))) as (Hr & _ & Hw & Hin).
    + reflexivity.
    + intros e. discriminate.
    + intros m [= <-]. reflexivity.
    + split; [exact Hr|]. split; [exact Hw|exact Hin].
  - destruct (evaluate_reply p w' (sampleClient (inboxOf w'))) as (_ & Hf & _).
    + reflexivity.
    + intros e. discriminate.
    + intros m [= <-]. reflexivity.
    + by apply (Hf (failedResponse "could not find symbol value for greeting")).
Defined.

(** ** Waiting for an acknowledgement *)

(** X6.  [readAndValidateResponse] reads up to and including the first
    response of any kind, and that response alone decides its outcome:
    success when the response reports success, the prefixed message of the
    response when it reports failure, and the read error when a read fails
    first.  Every event read on the way, a stopped or terminated event
    included, is dropped; what follows the response is left to be read;
    nothing is written. *)
Theorem readAndValidateResponse_first_response prefix w c :
  client (ds w) = Some c →
  (readAndValidateResponse prefix w).1 =
    match firstResponse (inbox c) with
    | Ok resp =>
        if dap.Response.Success resp then Ok tt
        else Err (prefix +:+ ": " +:+ dap.Response.Message resp)
    | Err e => Err e
    end ∧
  inboxOf (readAndValidateResponse prefix w).2 = afterResponse (inbox c) ∧
  wire (readAndValidateResponse prefix w).2 = wire w.
Proof.
  intros Hc. unfold readAndValidateResponse.
  match goal with
  | |- context [readUntil ?b w] =>
      destruct (read_next b w c Hc) as (w1 & c1 & H1 & Hc1 & Hin1 & _ & Hw1)
  end.
  rewrite H1. simpl. rewrite (inboxOf_client _ _ Hc1), Hin1, Hw1.
  by rewrite readLoop_response.
Qed.

Lemma readAndValidateResponse_first_response_witness :
  let w := deliver [RMsg (dap.StoppedEvent 1);
                    RMsg (dap.ErrorResponse (failedResponse "thread not found"));
                    RMsg (dap.TerminatedEvent)] sampleWorld in
  (readAndValidateResponse "unable to pause execution" w).1 =
    Err "unable to pause execution: thread not found" ∧
  inboxOf (readAndValidateResponse "unable to pause execution" w).2 =
    [RMsg dap.TerminatedEvent] ∧
  wire (readAndValidateResponse "unable to pause execution" w).2 = wire w.
Proof.
  intros w.
  apply (readAndValidateResponse_first_response "unable to pause execution" w
           {| addr := "localhost:9092"; sent := sentOf sampleWorld; sendErrs := [];
              inbox := inboxOf w; closed := false |}).
  reflexivity.
Defined.

(** X7.  With a session started and the write succeeding, [pause] writes
    one pause request for the given thread and returns as soon as the
    first response is read: it succeeds exactly when that response reports
    success, and it leaves whatever the adapter sent after the response,
    the stopped event of the pause included, to the next call. *)
Theorem pause_returns_on_acknowledgement params w c :
  client (ds w) = Some c → nextWriteOk c →
  (pauseExecution params w).1 =
    match firstResponse (inbox c) with
    | Ok resp =>
        if dap.Response.Success resp then Ok "Paused execution"
        else Err ("unable to pause execution: " +:+ dap.Response.Message resp)
    | Err e => Err e
    end ∧
  wire (pauseExecution params w).2 = wire w ++ [PauseRequest (PauseParams.ThreadID params)] ∧
  inboxOf (pauseExecution params w).2 = afterResponse (inbox c).
Proof.
  intros Hc Hok. unfold pauseExecution.
  erewrite bind_ok by by eapply requireClient_ok.
  edestruct (send_next) as (w1 & c1 & H1 & Hc1 & Hin1 & _ & Hw1); [exact Hc|exact Hok|].
  erewrite bind_ok by exact H1.
  destruct (readAndValidateResponse_first_response "unable to pause execution" w1 c1 Hc1)
    as (Hr & Hin & Hw).
  rewrite Hin1 in Hr, Hin. rewrite Hw1 in Hw. rewrite bind_eq.
  destruct (readAndValidateResponse "unable to pause execution" w1) as [[[]|e] w2];
    simpl in *; (split; [|done]);
    destruct (firstResponse (inbox c)) as [resp|e'];
    try destruct (dap.Response.Success resp); first [done | congruence | by inversion Hr].
Qed.

Lemma pause_returns_on_acknowledgement_witness :
  let w := deliver [RMsg (dap.OtherResponse "*dap.PauseResponse" okResponse);
                    RMsg (dap.StoppedEvent 1)] sampleWorld in
  let p := {| PauseParams.ThreadID := 1 |} in
  (pauseExecution p w).1 = Ok "Paused execution" ∧
  wire (pauseExecution p w).2 = wire w ++ [PauseRequest 1] ∧
  inboxOf (pauseExecution p w).2 = [RMsg (dap.StoppedEvent 1)].
Proof.
  intros w p.
  apply (pause_returns_on_acknowledgement p w
           {| addr := "localhost:9092"; sent := sentOf sampleWorld; sendErrs := [];
              inbox := inboxOf w; closed := false |}).
  - reflexivity.
  - intros e. discriminate.
Defined.

(** ** Handlers that read one message only *)

(** X8.  [setVariable] and [disassembleCode] read exactly one message
    after their request and do not skip events.  When an event arrives
    before the response, [setVariable] fails although its request was
    written, and the response stays unread; a [disassembleCode] call that
    follows then takes that stale response for its own and reports
    success. *)
Theorem event_desynchronises_single_read p q w c ev m resp rest :
  client (ds w) = Some c → sendErrs c = [] →
  inbox c = RMsg ev :: RMsg m :: rest →
  dap.isEvent ev = true →
  dap.GetResponse m = Some resp → dap.Response.Success resp = true →
  (setVariable p w).1 = Err "unexpected response type" ∧
  inboxOf (setVariable p w).2 = RMsg m :: rest ∧
  (disassembleCode q (setVariable p w).2).1 = Ok "Disassembled code" ∧
  inboxOf (disassembleCode q (setVariable p w).2).2 = rest ∧
  wire (disassembleCode q (setVariable p w).2).2 =
    wire w ++
    [SetVariableRequest (SetVariableParams.VariablesReference p)
                        (SetVariableParams.Name p) (SetVariableParams.Value p);
     DisassembleRequest (DisassembleParams.MemoryReference q)
                        (DisassembleParams.InstructionOffset q)
                        (DisassembleParams.InstructionCount q)].
Proof.
  intros Hc Hq Hin Hev Hresp Hok.
  assert (Hset : ∃ w2 c2, setVariable p w = (Err "unexpected response type", w2) ∧
            client (ds w2) = Some c2 ∧ sendErrs c2 = [] ∧
            inbox c2 = RMsg m :: rest ∧
            wire w2 = wire w ++
              [SetVariableRequest (SetVariableParams.VariablesReference p)
                 (SetVariableParams.Name p) (SetVariableParams.Value p)]).
  { unfold setVariable.
    erewrite bind_ok by by eapply requireClient_ok.
    edestruct send_next as (w1 & c1 & H1 & Hc1 & Hin1 & Hq1 & Hw1);
      [exact Hc | by apply quiet_nextWriteOk |].
    erewrite bind_ok by exact H1.
    destruct (read_one w1 c1 Hc1) as (w2 & c2 & H2 & Hc2 & Hq2 & Hin2 & Hw2).
    rewrite Hin1, Hin in H2, Hin2. simpl in H2, Hin2.
    erewrite bind_ok by exact H2.
    rewrite (isEvent_not_response ev Hev).
    exists w2, c2. split; [done|]. split; [done|].
    rewrite Hq2, Hq1, Hq, Hw2, Hw1. done. }
  destruct Hset as (w2 & c2 & -> & Hc2 & Hq2 & Hin2 & Hw2). simpl.
  split; [done|]. split; [by rewrite (inboxOf_client _ _ Hc2)|].
  unfold disassembleCode.
  erewrite bind_ok by by eapply requireClient_ok.
  edestruct send_next as (w3 & c3 & H3 & Hc3 & Hin3 & Hq3 & Hw3);
    [exact Hc2 | by apply quiet_nextWriteOk |].
  erewrite bind_ok by exact H3.
  destruct (read_one w3 c3 Hc3) as (w4 & c4 & H4 & Hc4 & Hq4 & Hin4 & Hw4).
  rewrite Hin3, Hin2 in H4, Hin4. simpl in H4, Hin4.
  erewrite bind_ok by exact H4.
  rewrite Hresp, Hok. simpl.
  rewrite (inboxOf_client _ _ Hc4), Hin4, Hw4, Hw3, Hw2, <- app_assoc. done.
Qed.

Lemma event_desynchronises_single_read_witness :
  let w := deliver [RMsg (dap.OtherEvent "*dap.OutputEvent");
                    RMsg (dap.OtherResponse "*dap.SetVariableResponse" okResponse)]
                   sampleWorld in
  let p := {| SetVariableParams.VariablesReference := 1002;
              SetVariableParams.Name := "greeting";
              SetVariableParams.Value := "bye" |} in
  let q := {| DisassembleParams.MemoryReference := "0x1000";
              DisassembleParams.InstructionOffset := 0;
              DisassembleParams.InstructionCount := 4 |} in
  (setVariable p w).1 = Err "unexpected response type" ∧
  inboxOf (setVariable p w).2 =
    [RMsg (dap.OtherResponse "*dap.SetVariableResponse" okResponse)] ∧
  (disassembleCode q (setVariable p w).2).1 = Ok "Disassembled code" ∧
  inboxOf (disassembleCode q (setVariable p w).2).2 = [] ∧
  wire (disassembleCode q (setVariable p w).2).2 =
    wire w ++ [SetVariableRequest 1002 "greeting" "bye";
               DisassembleRequest "0x1000" 0 4].
Proof.
  intros w p q.
  apply (event_desynchronises_single_read p q w
           {| addr := "localhost:9092"; sent := sentOf sampleWorld; sendErrs := [];
              inbox := inboxOf w; closed := false |}
           (dap.OtherEvent "*dap.OutputEvent")
           (dap.OtherResponse "*dap.SetVariableResponse" okResponse)
           okResponse []); reflexivity.
Defined.

(** ** Resuming the program *)

Lemma readLoop_halt what l :
  (readLoop (onHalt what) l).2 = afterFirstHalt l ∧
  match firstHalt l with
  | RErr e => (readLoop (onHalt what) l).1 = Err e
  | RMsg (dap.StoppedEvent t) => (readLoop (onHalt what) l).1 = Ok (Stopped t)
  | RMsg dap.TerminatedEvent => (readLoop (onHalt what) l).1 = Ok Terminated
  | RMsg m =>
      (readLoop (onHalt what) l).1 =
      Err (what +:+ " failed: " +:+
           from_option dap.Response.Message "" (dap.GetResponse m))
  end.
Proof.
  induction l as [|[m|e] l IH]; simpl; [done| |done].
  unfold onHalt, passedOver.
  destruct m; simpl; try exact IH; try done;
    destruct (dap.Response.Success _); simpl; try exact IH; done.
Qed.

Lemma wait_outcome what w c :
  client (ds w) = Some c →
  ∃ w' c', client (ds w') = Some c' ∧ inbox c' = afterFirstHalt (inbox c) ∧
           sendErrs c' = sendErrs c ∧ wire w' = wire w ∧
           (h ← readUntil (onHalt what); afterHalt h) w =
           haltOutcome what (firstHalt (inbox c)) w'.
Proof.
  intros Hc.
  destruct (read_next (onHalt what) w c Hc) as (w' & c' & H & Hc' & Hin & Hq & Hw).
  destruct (readLoop_halt what (inbox c)) as [H2 H1].
  exists w', c'. rewrite Hin, H2. do 4 (split; [done|]).
  rewrite bind_eq, H. unfold haltOutcome.
  destruct (firstHalt (inbox c)) as [m|e]; [|by rewrite H1].
  destruct m; by rewrite H1.
Qed.

(** X9.  With a session started and the write succeeding, [step] with
    the mode over, in or out writes one request, next, step-in or
    step-out, for the given thread, or for thread 1 when the thread is 0.
    It then reads past successful responses and other events up to the
    first stopped event, terminated event, failed response or read error.
    A stopped event gives the snapshot of the thread that the event names,
    from frame 0 with at most 20 frames; a terminated event gives the text
    [Program terminated]; a failed response gives its message as an error.
    What follows is left to be read. *)
Theorem step_outcome params w c :
  client (ds w) = Some c → nextWriteOk c →
  StepParams.Mode params ∈ ["over"; "in"; "out"] →
  let threadID := if decide (StepParams.ThreadID params = 0%Z) then 1%Z
                  else StepParams.ThreadID params in
  ∃ w', step params w = haltOutcome "step" (firstHalt (inbox c)) w' ∧
        inboxOf w' = afterFirstHalt (inbox c) ∧
        wire w' = wire w ++
          [if decide (StepParams.Mode params = "over") then NextRequest threadID
           else if decide (StepParams.Mode params = "in") then StepInRequest threadID
           else StepOutRequest threadID].
Proof.
  intros Hc Hok Hmode threadID. unfold step. fold threadID.
  erewrite bind_ok by by eapply requireClient_ok.
  set (req := if decide (StepParams.Mode params = "over") then NextRequest threadID
              else if decide (StepParams.Mode params = "in") then StepInRequest threadID
              else StepOutRequest threadID).
  destruct (send_next req w c Hc Hok) as (w1 & c1 & H1 & Hc1 & Hin1 & _ & Hw1).
  assert (Hsend :
    (if decide (StepParams.Mode params = "over") then send (NextRequest threadID)
     else if decide (StepParams.Mode params = "in") then send (StepInRequest threadID)
     else if decide (StepParams.Mode params = "out") then send (StepOutRequest threadID)
     else fail ("invalid step mode: " +:+ StepParams.Mode params +:+
                " (must be 'over', 'in', or 'out')")) w = (Ok tt, w1)).
  { rewrite <- H1. unfold req. repeat case_decide; try done.
    exfalso. rewrite !elem_of_cons, elem_of_nil in Hmode.
    by destruct Hmode as [?|[?|[?|[]]]]. }
  erewrite bind_ok by exact Hsend.
  destruct (wait_outcome "step" w1 c1 Hc1) as (w2 & c2 & Hc2 & Hin2 & _ & Hw2 & H2).
  exists w2. rewrite H2, (inboxOf_client _ _ Hc2), Hin2, Hin1, Hw2, Hw1. done.
Qed.

Lemma step_outcome_witness :
  let w := deliver [RMsg (dap.OtherResponse "*dap.NextResponse" okResponse);
                    RMsg (dap.OtherEvent "*dap.OutputEvent");
                    RMsg dap.TerminatedEvent;
                    RMsg (dap.StoppedEvent 1)] sampleWorld in
  let params := {| StepParams.Mode := "over"; StepParams.ThreadID := 0 |} in
  ∃ w', step params w = (Ok "Program terminated", w') ∧
        inboxOf w' = [RMsg (dap.StoppedEvent 1)] ∧
        wire w' = wire w ++ [NextRequest 1].
Proof.
  intros w params.
  apply (step_outcome params w
           {| addr := "localhost:9092"; sent := sentOf sampleWorld; sendErrs := [];
              inbox := inboxOf w; closed := false |}).
  - reflexivity.
  - intros e. discriminate.
  - set_solver.
Defined.

(** X10.  With a session started and the write succeeding,
    [continueExecution] without a target writes one continue request for
    the thread exactly as given, 0 included, and then waits as [step]
    does: a stopped event gives the snapshot of the thread that the event
    names, a terminated event the text [Program terminated], a failed
    response its message as an error, and a read error is returned. *)
Theorem continue_outcome params w c :
  client (ds w) = Some c → nextWriteOk c →
  ContinueParams.To params = None →
  ∃ w', continueExecution params w =
          haltOutcome "continue" (firstHalt (inbox c)) w' ∧
        inboxOf w' = afterFirstHalt (inbox c) ∧
        wire w' = wire w ++ [ContinueRequest (ContinueParams.ThreadID params)].
Proof.
  intros Hc Hok Hto. unfold continueExecution. rewrite Hto.
  erewrite bind_ok by by eapply requireClient_ok.
  erewrite bind_ok by reflexivity.
  destruct (send_next (ContinueRequest (ContinueParams.ThreadID params)) w c Hc Hok)
    as (w1 & c1 & H1 & Hc1 & Hin1 & _ & Hw1).
  erewrite bind_ok by exact H1.
  destruct (wait_outcome "continue" w1 c1 Hc1) as (w2 & c2 & Hc2 & Hin2 & _ & Hw2 & H2).
  exists w2. rewrite H2, (inboxOf_client _ _ Hc2), Hin2, Hin1, Hw2, Hw1. done.
Qed.

Lemma continue_outcome_witness :
  let w := deliver [RMsg (dap.OtherResponse "*dap.ContinueResponse"
                            (failedResponse "thread not found"))] sampleWorld in
  let params := {| ContinueParams.ThreadID := 0; ContinueParams.To := None |} in
  ∃ w', continueExecution params w =
          (Err "continue failed: thread not found", w') ∧
        inboxOf w' = [] ∧
        wire w' = wire w ++ [ContinueRequest 0].
Proof.
  intros w params.
  apply (continue_outcome params w
           {| addr := "localhost:9092"; sent := sentOf sampleWorld; sendErrs := [];
              inbox := inboxOf w; closed := false |}).
  - reflexivity.
  - intros e. discriminate.
  - reflexivity.
Defined.

(** X11.  [continueExecution] given a target that names no function and
    no file with a positive line writes no breakpoint request for it, but
    still reads one message before resuming.  That message, whatever it
    is, is dropped: the continue request follows and the wait starts
    after it.  When that read fails, the error is returned and no
    continue request is written. *)
Theorem continue_empty_target_drops_a_read params to w c :
  client (ds w) = Some c → nextWriteOk c →
  ContinueParams.To params = Some to → emptyTarget to →
  (∀ m rest, inbox c = RMsg m :: rest →
     ∃ w', continueExecution params w =
             haltOutcome "continue" (firstHalt rest) w' ∧
           inboxOf w' = afterFirstHalt rest ∧
           wire w' = wire w ++ [ContinueRequest (ContinueParams.ThreadID params)]) ∧
  (∀ e, nextRead (inbox c) = RErr e →
     (continueExecution params w).1 = Err e ∧
     wire (continueExecution params w).2 = wire w).
Proof.
  intros Hc Hok Hto [Hfun Hline]. unfold continueExecution. rewrite Hto.
  erewrite bind_ok by by eapply requireClient_ok.
  rewrite decide_False by (by intros ?).
  rewrite decide_False by exact Hline.
  destruct (read_one w c Hc) as (w1 & c1 & H1 & Hc1 & Hq1 & Hin1 & Hw1).
  split.
  - intros m rest Hin. rewrite Hin in H1, Hin1. simpl in H1, Hin1.
    erewrite bind_ok; [|by unfold mbind, M_bind, mret, M_ret; rewrite H1].
    assert (Hok1 : nextWriteOk c1) by (unfold nextWriteOk; by rewrite Hq1).
    destruct (send_next (ContinueRequest (ContinueParams.ThreadID params)) w1 c1 Hc1 Hok1)
      as (w2 & c2 & H2 & Hc2 & Hin2 & _ & Hw2).
    erewrite bind_ok by exact H2.
    destruct (wait_outcome "continue" w2 c2 Hc2)
      as (w3 & c3 & Hc3 & Hin3 & _ & Hw3 & H3).
    exists w3. rewrite H3, (inboxOf_client _ _ Hc3), Hin3, Hin2, Hin1, Hw3, Hw2, Hw1.
    done.
  - intros e He. rewrite He in H1.
    erewrite bind_err; [done|]. by unfold mbind, M_bind, mret, M_ret; rewrite H1.
Qed.

Lemma continue_empty_target_drops_a_read_witness :
  let w := deliver [RMsg (dap.StoppedEvent 1); RMsg dap.TerminatedEvent] sampleWorld in
  let to := {| BreakpointSpec.File := "main.go"; BreakpointSpec.Line := 0;
               BreakpointSpec.Function := "" |} in
  let params := {| ContinueParams.ThreadID := 1; ContinueParams.To := Some to |} in
  ∃ w', continueExecution params w = (Ok "Program terminated", w') ∧
        inboxOf w' = [] ∧
        wire w' = wire w ++ [ContinueRequest 1].
Proof.
  intros w to params.
  refine (proj1 (continue_empty_target_drops_a_read params to w
           {| addr := "localhost:9092"; sent := sentOf sampleWorld; sendErrs := [];
              inbox := inboxOf w; closed := false |} _ _ _ _)
           (dap.StoppedEvent 1) [RMsg dap.TerminatedEvent] _).
  - reflexivity.
  - intros e. discriminate.
  - reflexivity.
  - split; [reflexivity|]. intros [_ H]. simpl in H. lia.
  - reflexivity.
Defined.

(** ** The requests of a snapshot *)

Lemma scopeText_requests s w c :
  client (ds w) = Some c → sendErrs c = [] →
  ∃ a w' c', scopeText s w = (Ok a, w') ∧ client (ds w') = Some c' ∧
    sendErrs c' = [] ∧
    wire w' = wire w ++
      (if decide (fetches s)
       then [VariablesRequest (dap.Scope.VariablesReference s)] else []).
Proof.
  destruct w as [[k cl lm pp pa] run np wi]. simpl. intros ->.
  destruct c as [ad se er ib closed]. simpl. intros ->.
  unfold scopeText, fetches.
  destruct (decide (0 < dap.Scope.VariablesReference s)%Z).
  - destruct ib as [|[m|e] ib].
    + eexists _, _, _. split; [reflexivity|done].
    + destruct m as [| |resp vars| | | | | | | | | |];
        try (eexists _, _, _; split; [reflexivity|done]).
      destruct resp as [[] msg]; eexists _, _, _; (split; [reflexivity|done]).
    + eexists _, _, _. split; [reflexivity|done].
  - eexists _, _, _. split; [reflexivity|]. simpl. by rewrite app_nil_r.
Qed.

Lemma scopesText_requests scopes : ∀ w c,
  client (ds w) = Some c → sendErrs c = [] →
  ∃ a w', scopesText scopes w = (Ok a, w') ∧
          wire w' = wire w ++ variableRequests scopes.
Proof.
  unfold variableRequests.
  induction scopes as [|s scopes IH]; intros w c Hc Hq.
  { eexists _, _. split; [reflexivity|]. simpl. by rewrite app_nil_r. }
  cbn [scopesText].
  destruct (scopeText_requests s w c Hc Hq) as (a & w1 & c1 & Hs & Hc1 & Hq1 & Hw1).
  destruct (IH w1 c1 Hc1 Hq1) as (b & w2 & H2 & Hw2).
  erewrite bind_ok by exact Hs. erewrite bind_ok by exact H2.
  eexists _, _. split; [reflexivity|]. rewrite Hw2, Hw1, <- app_assoc.
  f_equal. rewrite filter_cons. by destruct (decide (fetches s)).
Qed.

Lemma getFullContext_requests t f n w c resp frames :
  client (ds w) = Some c → sendErrs c = [] →
  firstReply (inbox c) = RMsg (dap.StackTraceResponse resp frames) →
  dap.Response.Success resp = true →
  wire (getFullContext t f n w).2 =
  wire w ++
  [StackTraceRequest t 0%Z n; ScopesRequest (targetFrame f frames)] ++
  match firstReply (afterReply (inbox c)) with
  | RMsg (dap.ScopesResponse resp2 scopes) =>
      if dap.Response.Success resp2 then variableRequests scopes else []
  | _ => []
  end.
Proof.
  intros Hc Hq Hstack Hok. unfold getFullContext.
  erewrite bind_ok by by eapply requireClient_ok.
  destruct (send_next (StackTraceRequest t 0 n) w c Hc (quiet_nextWriteOk c Hq))
    as (w1 & c1 & H1 & Hc1 & Hin1 & Hq1 & Hw1).
  erewrite bind_ok by exact H1.
  destruct (read_next onStackTrace w1 c1 Hc1) as (w2 & c2 & H2 & Hc2 & Hin2 & Hq2 & Hw2).
  rewrite Hin1, onStackTrace_reply in H2, Hin2. rewrite Hstack in H2.
  simpl in H2, Hin2. rewrite Hok in H2. rewrite Hq1, Hq in Hq2. simpl in Hq2.
  erewrite bind_ok by exact H2.
  destruct (send_next (ScopesRequest (targetFrame f frames)) w2 c2 Hc2
              (quiet_nextWriteOk c2 Hq2))
    as (w3 & c3 & H3 & Hc3 & Hin3 & Hq3 & Hw3).
  erewrite bind_ok by exact H3.
  destruct (read_next onScopes w3 c3 Hc3) as (w4 & c4 & H4 & Hc4 & Hin4 & Hq4 & Hw4).
  rewrite Hin3, Hin2, onScopes_reply in H4, Hin4. simpl in H4, Hin4.
  rewrite Hq3, Hq2 in Hq4. simpl in Hq4.
  assert (Hw : wire w4 = wire w ++
            [StackTraceRequest t 0%Z n; ScopesRequest (targetFrame f frames)]).
  { rewrite Hw4, Hw3, Hw2, Hw1, <- app_assoc. done. }
  destruct (firstReply (afterReply (inbox c))) as [m|e] eqn:Hm.
  - apply firstReply_not_event in Hm.
    destruct m; try done; simpl in H4;
      try (erewrite bind_err by exact H4; simpl; by rewrite Hw).
    destruct (dap.Response.Success r) eqn:Hr.
    + erewrite bind_ok by exact H4.
      destruct Scopes as [|s scopes]; [simpl; by rewrite Hw|].
      destruct (scopesText_requests (s :: scopes) w4 c4 Hc4 Hq4) as (a & w5 & H5 & Hw5).
      erewrite bind_ok by exact H5. simpl. rewrite Hw5, Hw, <- app_assoc. done.
    + erewrite bind_ok by exact H4. simpl. by rewrite Hw.
  - erewrite bind_err by exact H4. simpl. by rewrite Hw.
Qed.

(** X12.  With every write succeeding and the stack trace arriving,
    [context] writes, in this order: one stack trace request, for the
    given thread, or thread 1 when the thread is 0, from frame 0 and for
    as many frames as given, or 20 when that number is 0; one scopes
    request, for the given frame, or for the top frame of the reply when
    the frame is 0 and the stack is not empty; and, when the scopes
    arrive, one variables request for each scope with a positive variables
    reference, in the order of the scopes.  Nothing else is written. *)
Theorem context_requests params w c resp frames :
  client (ds w) = Some c → sendErrs c = [] →
  firstReply (inbox c) = RMsg (dap.StackTraceResponse resp frames) →
  dap.Response.Success resp = true →
  wire (context params w).2 =
  wire w ++
  [StackTraceRequest
     (if decide (ContextParams.ThreadID params = 0%Z) then 1%Z
      else ContextParams.ThreadID params)
     0%Z
     (if decide (ContextParams.MaxFrames params = 0%Z) then 20%Z
      else ContextParams.MaxFrames params);
   ScopesRequest
     (match head frames with
      | Some top =>
          if decide (ContextParams.FrameID params = 0%Z)
          then dap.StackFrame.Id top else ContextParams.FrameID params
      | None => ContextParams.FrameID params
      end)] ++
  match firstReply (afterReply (inbox c)) with
  | RMsg (dap.ScopesResponse resp2 scopes) =>
      if dap.Response.Success resp2 then variableRequests scopes else []
  | _ => []
  end.
Proof.
  intros Hc Hq Hstack Hok. unfold context.
  rewrite (getFullContext_requests _ _ _ w c resp frames Hc Hq Hstack Hok).
  by destruct frames.
Qed.

Lemma context_requests_witness :
  let w := deliver [RMsg (dap.OtherEvent "*dap.OutputEvent");
                    RMsg (dap.StackTraceResponse okResponse [mainFrame]);
                    RMsg (dap.ScopesResponse okResponse
                            [argumentsScope;
                             {| dap.Scope.Name := "Registers";
                                dap.Scope.VariablesReference := 0 |};
                             localsScope]);
                    RMsg (dap.VariablesResponse okResponse []);
                    RMsg (dap.VariablesResponse okResponse [greeting])]
                   sampleWorld in
  let params := {| ContextParams.ThreadID := 0; ContextParams.FrameID := 0;
                   ContextParams.MaxFrames := 0 |} in
  wire (context params w).2 =
  wire w ++ [StackTraceRequest 1 0 20; ScopesRequest 1000;
             VariablesRequest 1001; VariablesRequest 1002].
Proof.
  intros w params.
  apply (context_requests params w
           {| addr := "localhost:9092"; sent := sentOf sampleWorld; sendErrs := [];
              inbox := inboxOf w; closed := false |} okResponse [mainFrame]);
    reflexivity.
Defined.

(** ** Setting a breakpoint *)

(** X13.  With a session started and the write succeeding, [breakpoint]
    given a function name sets a function breakpoint and nothing else: it
    writes one function-breakpoints request that names this function
    alone, whatever file and line are given beside it, and no request for
    the file.  The first response of any kind decides the outcome, and
    the events before it are dropped. *)
Theorem breakpoint_function_takes_precedence params w c :
  client (ds w) = Some c → nextWriteOk c →
  BreakpointToolParams.Function params ≠ "" →
  (breakpoint params w).1 =
    match firstResponse (inbox c) with
    | Ok resp =>
        if dap.Response.Success resp
        then Ok ("Breakpoint set on function: " +:+
                 BreakpointToolParams.Function params)
        else Err ("unable to set function breakpoint: " +:+
                  dap.Response.Message resp)
    | Err e => Err e
    end ∧
  wire (breakpoint params w).2 =
    wire w ++ [SetFunctionBreakpointsRequest [BreakpointToolParams.Function params]] ∧
  inboxOf (breakpoint params w).2 = afterResponse (inbox c).
Proof.
  intros Hc Hok Hfun. unfold breakpoint.
  erewrite bind_ok by by eapply requireClient_ok.
  rewrite decide_True by done.
  destruct (send_next (SetFunctionBreakpointsRequest
                         [BreakpointToolParams.Function params]) w c Hc Hok)
    as (w1 & c1 & H1 & Hc1 & Hin1 & _ & Hw1).
  erewrite bind_ok by exact H1.
  destruct (validate_next "unable to set function breakpoint" w1 c1 Hc1)
    as (w2 & c2 & H2 & Hc2 & Hin2 & _ & Hw2).
  rewrite bind_eq, H2, Hin1.
  destruct (firstResponse (inbox c)) as [resp|e]; simpl.
  - destruct (dap.Response.Success resp); simpl;
      by rewrite (inboxOf_client _ _ Hc2), Hin2, Hin1, Hw2, Hw1.
  - by rewrite (inboxOf_client _ _ Hc2), Hin2, Hin1, Hw2, Hw1.
Qed.

Lemma breakpoint_function_takes_precedence_witness :
  let w := deliver [RMsg (dap.OtherEvent "*dap.BreakpointEvent");
                    RMsg (dap.OtherResponse "*dap.SetFunctionBreakpointsResponse"
                            okResponse)] sampleWorld in
  let params := {| BreakpointToolParams.File := "main.go";
                   BreakpointToolParams.Line := 20;
                   BreakpointToolParams.Function := "main.greet" |} in
  (breakpoint params w).1 = Ok "Breakpoint set on function: main.greet" ∧
  wire (breakpoint params w).2 =
    wire w ++ [SetFunctionBreakpointsRequest ["main.greet"]] ∧
  inboxOf (breakpoint params w).2 = [].
Proof.
  intros w params.
  apply (breakpoint_function_takes_precedence params w
           {| addr := "localhost:9092"; sent := sentOf sampleWorld; sendErrs := [];
              inbox := inboxOf w; closed := false |}).
  - reflexivity.
  - intros e. discriminate.
  - discriminate.
Defined.

(** X14.  With a session started and the write succeeding, [breakpoint]
    given a file and a line other than zero, a negative line included,
    writes one breakpoints request for that line of the file and reads
    exactly one message, which decides the outcome.  A breakpoints
    response whose first breakpoint is verified gives success, with the
    identifier and the line that the adapter returned, not the line that
    was asked for; one whose first breakpoint is not verified gives the
    message of that breakpoint as an error; an error response gives its
    message; a read error is returned; and any other message, a
    breakpoints response without breakpoints included, gives
    [unexpected response].  So the call succeeds only on a verified first
    breakpoint, and an event that arrives before the response makes the
    call fail and leaves the response unread. *)
Theorem breakpoint_line_outcome params w c :
  client (ds w) = Some c → nextWriteOk c →
  BreakpointToolParams.Function params = "" →
  BreakpointToolParams.File params ≠ "" →
  BreakpointToolParams.Line params ≠ 0%Z →
  wire (breakpoint params w).2 =
    wire w ++ [SetBreakpointsRequest (BreakpointToolParams.File params)
                                     [BreakpointToolParams.Line params]] ∧
  inboxOf (breakpoint params w).2 = tail (inbox c) ∧
  (breakpoint params w).1 =
    match nextRead (inbox c) with
    | RErr e => Err e
    | RMsg (dap.SetBreakpointsResponse _ (bp :: _)) =>
        if dap.Breakpoint.Verified bp then
          Ok ("Breakpoint " +:+ pretty (dap.Breakpoint.Id bp) +:+ " set at " +:+
              BreakpointToolParams.File params +:+ ":" +:+
              pretty (dap.Breakpoint.Line bp))
        else Err ("breakpoint not verified: " +:+ dap.Breakpoint.Message bp)
    | RMsg (dap.ErrorResponse resp) => Err (dap.Response.Message resp)
    | RMsg _ => Err "unexpected response"
    end ∧
  (∀ text, (breakpoint params w).1 = Ok text →
     ∃ resp bp bps,
       nextRead (inbox c) = RMsg (dap.SetBreakpointsResponse resp (bp :: bps)) ∧
       dap.Breakpoint.Verified bp = true ∧
       text = "Breakpoint " +:+ pretty (dap.Breakpoint.Id bp) +:+ " set at " +:+
              BreakpointToolParams.File params +:+ ":" +:+
              pretty (dap.Breakpoint.Line bp)) ∧
  (∀ m, nextRead (inbox c) = RMsg m → dap.isEvent m = true →
     (breakpoint params w).1 = Err "unexpected response").
Proof.
  intros Hc Hok Hfun Hfile Hline. unfold breakpoint.
  erewrite bind_ok by by eapply requireClient_ok.
  rewrite decide_False by (by intros ?).
  rewrite decide_False by (by intros [?|?]).
  destruct (send_next (SetBreakpointsRequest (BreakpointToolParams.File params)
                         [BreakpointToolParams.Line params]) w c Hc Hok)
    as (w1 & c1 & H1 & Hc1 & Hin1 & _ & Hw1).
  erewrite bind_ok by exact H1.
  destruct (read_one w1 c1 Hc1) as (w2 & c2 & H2 & Hc2 & _ & Hin2 & Hw2).
  rewrite Hin1 in H2, Hin2. rewrite bind_eq, H2.
  assert (Hwire : wire w2 = wire w ++
            [SetBreakpointsRequest (BreakpointToolParams.File params)
                                   [BreakpointToolParams.Line params]])
    by (by rewrite Hw2, Hw1).
  assert (Hinbox : inboxOf w2 = tail (inbox c))
    by (by rewrite (inboxOf_client _ _ Hc2)).
  destruct (nextRead (inbox c)) as [m|e]; simpl;
    [|repeat apply conj; [done|done|done|by intros ?|by intros ?]].
  destruct m as [| | | |resp bps| | | | | | | |]; simpl;
    try (repeat apply conj; [done|done|done|by intros ?|by intros ? [= <-]]).
  destruct bps as [|bp bps]; simpl;
    [repeat apply conj; [done|done|done|by intros ?|by intros ? [= <-]]|].
  destruct (dap.Breakpoint.Verified bp) eqn:Hv; simpl.
  - repeat apply conj; [done|done|done| |by intros ? [= <-]].
    intros text [= <-]. by exists resp, bp, bps.
  - repeat apply conj; [done|done|done|by intros ?|by intros ? [= <-]].
Qed.

Lemma breakpoint_line_outcome_witness :
  let w := deliver [RMsg (dap.SetBreakpointsResponse okResponse
                      [{| dap.Breakpoint.Id := 2; dap.Breakpoint.Verified := true;
                          dap.Breakpoint.Message := ""; dap.Breakpoint.Line := 21 |}])]
                   sampleWorld in
  let params := {| BreakpointToolParams.File := "main.go";
                   BreakpointToolParams.Line := 20;
                   BreakpointToolParams.Function := "" |} in
  wire (breakpoint params w).2 = wire w ++ [SetBreakpointsRequest "main.go" [20%Z]] ∧
  inboxOf (breakpoint params w).2 = [] ∧
  (breakpoint params w).1 = Ok "Breakpoint 2 set at main.go:21".
Proof.
  intros w params.
  pose proof (breakpoint_line_outcome params w
           {| addr := "localhost:9092"; sent := sentOf sampleWorld; sendErrs := [];
              inbox := inboxOf w; closed := false |}) as H.
  destruct H as (Hw & Hin & Hr & _).
  - reflexivity.
  - intros e. discriminate.
  - reflexivity.
  - discriminate.
  - discriminate.
  - split; [exact Hw|]. split; [exact Hin|]. rewrite Hr. vm_compute. reflexivity.
Defined.

(** ** What the session tools leave alone *)

#[local] Instance sameEndpoint_preorder : PreOrder sameEndpoint.
Proof.
  split; [by intros w|].
  intros w1 w2 w3 (? & ? & ? & ? & ?) (? & ? & ? & ? & ?).
  repeat split; congruence.
Qed.

Lemma send_sameEndpoint r : steps sameEndpoint (send r).
Proof.
  intros [[k [c|] lm pp pa] run np wi]; unfold send; simpl; [|done].
  by destruct (head (sendErrs c)) as [[e|]|].
Qed.

Lemma readUntil_sameEndpoint {A} (body : dap.Message → option (Res A)) :
  steps sameEndpoint (readUntil body).
Proof.
  intros [[k [c|] lm pp pa] run np wi]; unfold readUntil; simpl; [|done].
  by destruct (readLoop body (inbox c)).
Qed.

Lemma ReadMessage_sameEndpoint : steps sameEndpoint ReadMessage.
Proof. apply readUntil_sameEndpoint. Qed.

Lemma readAndValidateResponse_sameEndpoint prefix :
  steps sameEndpoint (readAndValidateResponse prefix).
Proof. apply readUntil_sameEndpoint. Qed.

Lemma set_launch_sameEndpoint m p a :
  steps sameEndpoint (modifySession (set_launch m p a)).
Proof. by intros w. Qed.

Lemma ReadMessage_keepsLaunch : steps keepsLaunch ReadMessage.
Proof. apply readUntil_keepsLaunch. Qed.

#[local] Hint Resolve send_sameEndpoint readUntil_sameEndpoint
  ReadMessage_sameEndpoint readAndValidateResponse_sameEndpoint
  set_launch_sameEndpoint ReadMessage_keepsLaunch : steps.

Lemma scopesText_sameEndpoint l : steps sameEndpoint (scopesText l).
Proof.
  induction l as [|s l IH]; cbn [scopesText]; [steps_split|].
  apply steps_bind; [apply _ | unfold scopeText; steps_split | intros ?].
  steps_split.
Qed.

Lemma scopesText_keepsLaunch l : steps keepsLaunch (scopesText l).
Proof.
  induction l as [|s l IH]; cbn [scopesText]; [steps_split|].
  apply steps_bind; [apply _ | unfold scopeText; steps_split | intros ?].
  steps_split.
Qed.

Lemma getFullContext_sameEndpoint t f n : steps sameEndpoint (getFullContext t f n).
Proof. pose proof scopesText_sameEndpoint. unfold getFullContext. steps_split. Qed.

Lemma getFullContext_keepsLaunch t f n : steps keepsLaunch (getFullContext t f n).
Proof. pose proof scopesText_keepsLaunch. unfold getFullContext. steps_split. Qed.

#[local] Hint Resolve getFullContext_sameEndpoint getFullContext_keepsLaunch : steps.

Lemma afterHalt_sameEndpoint h : steps sameEndpoint (afterHalt h).
Proof. destruct h; simpl; steps_split. Qed.

Lemma afterHalt_keepsLaunch h : steps keepsLaunch (afterHalt h).
Proof. destruct h; simpl; steps_split. Qed.

#[local] Hint Resolve afterHalt_sameEndpoint afterHalt_keepsLaunch : steps.

(** X15.  Every tool other than [debug] and [stop], whether it succeeds
    or fails, leaves the session as it found it: the handle of the
    adapter, the running processes, the address and the open state of
    the connection, and the stored mode, path and arguments of the program
    are unchanged.  In particular [restart] given new arguments does not
    store them. *)
Theorem session_tools_keep_session call w :
  needsSession call = true →
  sameEndpoint w (callTool call w).2 ∧ keepsLaunch w (callTool call w).2.
Proof.
  intros Hcall.
  split; revert w;
    [change (steps sameEndpoint (callTool call))
    |change (steps keepsLaunch (callTool call))];
    destruct call; try done;
    unfold callTool, restartDebugger, breakpoint, clearBreakpoints,
      continueExecution, step, pauseExecution, context, evaluateExpression,
      setVariable, info, disassembleCode;
    steps_split.
Qed.

Lemma session_tools_keep_session_witness :
  let call := CallRestart {| RestartParams.Args := Some ["--verbose"] |} in
  sameEndpoint restartableWorld (callTool call restartableWorld).2 ∧
  keepsLaunch restartableWorld (callTool call restartableWorld).2.
Proof.
  intros call. apply (session_tools_keep_session call restartableWorld). reflexivity.
Defined.

(** ** Ending a session *)


Lemma stop_forgets_client w : client (ds (stop tt w).2) = None.
Proof.
  unfold stop. rewrite bind_eq. cbn [getSession].
  destruct (client (ds w)) as [c|] eqn:Hclient.
  - destruct (terminateDebuggee_ok w c Hclient) as (w1 & H1 & Hds & _).
    destruct (cmd (ds w)) as [[a [pid|]]|].
    + erewrite bind_ok by exact H1. erewrite bind_ok by apply killDebugger_ok.
      simpl. by rewrite Hds.
    + erewrite bind_ok by exact H1. simpl. by rewrite Hds.
    + erewrite bind_ok by exact H1. simpl. by rewrite Hds.
  - destruct (cmd (ds w)) as [[a [pid|]]|]; [| |done].
    + erewrite (bind_ok (mret tt)) by reflexivity.
      erewrite bind_ok by apply killDebugger_ok. done.
    + done.
Qed.



(** X17.  After [stop], in whatever world it was called, every tool other
    than [debug] and [stop] fails with the error that no debugger is
    started, and changes nothing. *)
Theorem stopped_session_rejects call w :
  needsSession call = true →
  callTool call (stop tt w).2 = (Err "debugger not started", (stop tt w).2).
Proof.
  intros Hcall. pose proof (stop_forgets_client w) as Hnone.
  destruct call; try done; simpl;
    unfold restartDebugger, breakpoint, clearBreakpoints, continueExecution, step,
      pauseExecution, context, getFullContext, evaluateExpression, setVariable,
      info, disassembleCode;
    by erewrite bind_err by by apply requireClient_none.
Qed.

Lemma stopped_session_rejects_witness :
  let call := CallContext {| ContextParams.ThreadID := 1; ContextParams.FrameID := 0;
                             ContextParams.MaxFrames := 0 |} in
  callTool call (stop tt sampleWorld).2 =
  (Err "debugger not started", (stop tt sampleWorld).2).
Proof.
  intros call. apply (stopped_session_rejects call sampleWorld). reflexivity.
Defined.

(** ** Starting a session *)

Lemma listenPort_colon p : String.prefix ":" (listenPort p) = true.
Proof.
  unfold listenPort.
  destruct (String.prefix ":" (if decide (p = "") then "9090" else p)) eqn:H; [done|].
  case_decide; [done|]. simpl. by destruct p.
Qed.

Lemma debug_reaches_Start env p w :
  validParams p → pipeErr env = None → startErr env = None →
  debug env p w =
  (awaitReady env;;
   newDAPClient env ("localhost" +:+ listenPort (DebugParams.Port p));;
   send InitializeRequest;;
   ReadMessage;;
   modifySession (set_launch (DebugParams.Mode p) (DebugParams.Path p)
                             (DebugParams.Args p));;
   send (launchOrAttach p);;
   readAndValidateResponse "unable to start debug session";;
   setInitialBreakpoints (DebugParams.Breakpoints p);;
   send ConfigurationDoneRequest;;
   readAndValidateResponse "unable to complete configuration";;
   firstStop p) (started p w).
Proof.
  intros Hvalid Hpipe Hstart. unfold debug, startSession.
  rewrite (bind_eq (checkDebugParams p ≫= _)).
  erewrite (bind_ok (checkDebugParams p)) by by apply checkDebugParams_valid.
  erewrite (bind_ok (execCommand _)) by reflexivity.
  erewrite (bind_ok (StdoutPipe env)) by (unfold StdoutPipe; by rewrite Hpipe).
  erewrite (bind_ok (Start env));
    [|unfold Start; rewrite Hstart; reflexivity].
  change {| ds := _; running := _; nextPid := _; wire := _ |} with (started p w).
  unfold mbind, M_bind.
  destruct (awaitReady env (started p w)) as [[[]|e] w1]; [|done].
  destruct (newDAPClient env _ w1) as [[[]|e] w2]; [|done].
  destruct (send InitializeRequest w2) as [[[]|e] w3]; [|done].
  destruct (ReadMessage w3) as [[m|e] w4]; [|done].
  destruct (modifySession _ w4) as [[[]|e] w5]; [|done].
  destruct (send (launchOrAttach p) w5) as [[[]|e] w6]; [|done].
  destruct (readAndValidateResponse _ w6) as [[[]|e] w7]; [|done].
  destruct (setInitialBreakpoints _ w7) as [[[]|e] w8]; [|done].
  destruct (send ConfigurationDoneRequest w8) as [[[]|e] w9]; [|done].
  by destruct (readAndValidateResponse _ w9) as [[[]|e] w10].
Qed.

(** X18.  When [debug] is given valid parameters and the adapter starts
    but its output ends without a line that begins with the readiness
    text, [debug] fails with the read error.  No connection is opened and
    no request is written, yet the adapter process keeps running and its
    handle stays stored in the session. *)
Theorem debug_adapter_not_ready env p w :
  validParams p → pipeErr env = None → startErr env = None →
  Forall (λ s, String.prefix "DAP server listening at" s = false) (stdout env) →
  debug env p w = (Err "EOF", started p w).
Proof.
  intros Hvalid Hpipe Hstart Hlines.
  rewrite (debug_reaches_Start env p w Hvalid Hpipe Hstart).
  erewrite bind_err; [done|]. unfold awaitReady. f_equal.
  induction Hlines as [|s l Hs _ IH]; [done|]. simpl. by rewrite Hs.
Qed.

Lemma debug_adapter_not_ready_witness :
  debug {| pipeErr := None; startErr := None;
           stdout := ["could not listen: address already in use"];
           connSendErrs := []; connInbox := [] |} sampleParams initialWorld =
  (Err "EOF", started sampleParams initialWorld).
Proof.
  apply debug_adapter_not_ready.
  - left. split; [by right|discriminate].
  - reflexivity.
  - reflexivity.
  - repeat constructor.
Defined.

Lemma setInitialBreakpoints_sameEndpoint bps :
  steps sameEndpoint (setInitialBreakpoints bps).
Proof.
  induction bps as [|bp bps IH]; cbn [setInitialBreakpoints]; [steps_split|].
  apply steps_bind; [apply _ | unfold setInitialBreakpoint; steps_split | done].
Qed.

Lemma setInitialBreakpoints_keepsLaunch bps :
  steps keepsLaunch (setInitialBreakpoints bps).
Proof.
  induction bps as [|bp bps IH]; cbn [setInitialBreakpoints]; [steps_split|].
  apply steps_bind; [apply _ | unfold setInitialBreakpoint; steps_split | done].
Qed.

#[local] Hint Resolve setInitialBreakpoints_sameEndpoint
  setInitialBreakpoints_keepsLaunch : steps.

(** X19.  When [debug] is given valid parameters, the adapter starts and
    announces that it listens, then, whether the rest of the call succeeds
    or fails, the session holds an open connection to [localhost] at the
    very port that was passed to the adapter, a port that begins with a
    colon, and the handle of the new adapter process, which is running.
    When the call succeeds, the session also stores the mode, the path
    and the arguments of the call. *)
Theorem debug_connects env p w :
  validParams p → pipeErr env = None → startErr env = None →
  waitListening (stdout env) = Ok tt →
  (∃ c, client (ds (debug env p w).2) = Some c ∧
        addr c = "localhost" +:+ listenPort (DebugParams.Port p) ∧
        closed c = false) ∧
  cmd (ds (debug env p w).2) =
    Some {| cmd_Args := ["dlv"; "dap"; "--listen"; listenPort (DebugParams.Port p);
                         "--log"; "--log-output"; "dap"];
            Process := Some (nextPid w) |} ∧
  running (debug env p w).2 = running w ++ [nextPid w] ∧
  String.prefix ":" (listenPort (DebugParams.Port p)) = true ∧
  (∀ text, (debug env p w).1 = Ok text →
     launchMode (ds (debug env p w).2) = DebugParams.Mode p ∧
     programPath (ds (debug env p w).2) = DebugParams.Path p ∧
     programArgs (ds (debug env p w).2) = DebugParams.Args p).
Proof.
  intros Hvalid Hpipe Hstart Hready.
  rewrite (debug_reaches_Start env p w Hvalid Hpipe Hstart).
  erewrite bind_ok by (unfold awaitReady; by rewrite Hready).
  erewrite bind_ok by reflexivity.
  change {| ds := _; running := _; nextPid := _; wire := _ |}
    with (connected env p w).
  set (rest := readAndValidateResponse "unable to start debug session" ≫= _).
  assert (Hrest : steps sameEndpoint rest ∧ steps keepsLaunch rest).
  { unfold rest, firstStop. split; steps_split. }
  destruct Hrest as [Hsame Hlaunch].
  set (session := send InitializeRequest ≫= _).
  assert (Htail : steps sameEndpoint session).
  { unfold session. steps_split. }
  destruct (Htail (connected env p w)) as (Hcmd & Hrun & _ & Haddr & Hclosed).
  simpl in Hcmd, Hrun, Haddr, Hclosed.
  repeat apply conj.
  - destruct (client (ds (session (connected env p w)).2)) as [c|]; [|done].
    simpl in Haddr, Hclosed. exists c. by simplify_eq.
  - exact Hcmd.
  - exact Hrun.
  - apply listenPort_colon.
  - intros text. unfold session. clear Htail Hcmd Hrun Haddr Hclosed session.
    rewrite (bind_eq (send InitializeRequest)).
    destruct (send InitializeRequest (connected env p w)) as [[[]|e] w1]; [|done].
    rewrite (bind_eq ReadMessage).
    destruct (ReadMessage w1) as [[m|e] w2]; [|done].
    rewrite (bind_eq (modifySession _)). cbn [modifySession].
    rewrite (bind_eq (send (launchOrAttach p))).
    match goal with
    | |- context [send (launchOrAttach p) ?w0] =>
        pose proof (send_keepsLaunch (launchOrAttach p) w0) as Hs;
        destruct (send (launchOrAttach p) w0) as [[[]|e] w3]; [|done]
    end.
    simpl in Hs. destruct (Hlaunch w3) as (H1 & H2 & H3).
    destruct Hs as (H4 & H5 & H6).
    intros _. rewrite H1, H2, H3, H4, H5, H6. done.
Qed.

Lemma debug_connects_witness :
  (∃ c, client (ds (debug sampleSpawn sampleParams initialWorld).2) = Some c ∧
        addr c = "localhost" +:+ listenPort (DebugParams.Port sampleParams) ∧
        closed c = false) ∧
  cmd (ds (debug sampleSpawn sampleParams initialWorld).2) =
    Some {| cmd_Args := ["dlv"; "dap"; "--listen";
                         listenPort (DebugParams.Port sampleParams);
                         "--log"; "--log-output"; "dap"];
            Process := Some 0 |} ∧
  running (debug sampleSpawn sampleParams initialWorld).2 = [0].
Proof.
  destruct (debug_connects sampleSpawn sampleParams initialWorld)
    as (Hc & Hcmd & Hrun & _).
  - left. split; [by right|discriminate].
  - reflexivity.
  - reflexivity.
  - reflexivity.
  - split; [exact Hc|]. split; [exact Hcmd|exact Hrun].
Defined.

Lemma stop_running w :
  running (stop tt w).2 =
  match cmd (ds w) with
  | Some {| Process := Some pid |} => filter (λ q, q ≠ pid) (running w)
  | _ => running w
  end.
Proof.
  unfold stop. rewrite bind_eq. cbn [getSession].
  destruct (client (ds w)) as [c|] eqn:Hclient.
  - destruct (terminateDebuggee_ok w c Hclient) as (w1 & H1 & _ & Hrun & _).
    destruct (cmd (ds w)) as [[a [pid|]]|];
      erewrite bind_ok by exact H1; try erewrite bind_ok by apply killDebugger_ok;
      simpl; by rewrite Hrun.
  - destruct (cmd (ds w)) as [[a [pid|]]|]; [|done|done].
    erewrite (bind_ok (mret tt)) by reflexivity.
    by erewrite bind_ok by apply killDebugger_ok.
Qed.

Lemma checkDebugParams_world p w : (checkDebugParams p w).2 = w.
Proof.
  unfold checkDebugParams. destruct (negb _); [done|]. by repeat case_decide.
Qed.

Lemma debug_processes env p w :
  (running (debug env p w).2 = running w ∧
   ((debug env p w).2 = w ∨
    ∃ c, cmd (ds (debug env p w).2) = Some c ∧ Process c = None)) ∨
  keepsProcs (started p w) (debug env p w).2.
Proof.
  unfold debug, startSession.
  set (rest := awaitReady env ≫= _).
  rewrite (bind_eq (checkDebugParams p ≫= _)).
  rewrite (bind_eq (checkDebugParams p)).
  destruct (checkDebugParams p w) as [[[]|e] w0] eqn:Hcheck.
  - apply checkDebugParams_ok in Hcheck as (-> & _).
    erewrite (bind_ok (execCommand _)) by reflexivity.
    destruct (pipeErr env) as [e|] eqn:Hpipe.
    { erewrite (bind_err (StdoutPipe env))
        by (unfold StdoutPipe; rewrite Hpipe; reflexivity).
      left. split; [done|]. right. eexists. split; reflexivity. }
    erewrite (bind_ok (StdoutPipe env)) by (unfold StdoutPipe; by rewrite Hpipe).
    destruct (startErr env) as [e|] eqn:Hstart.
    { erewrite (bind_err (Start env))
        by (unfold Start; rewrite Hstart; reflexivity).
      left. split; [done|]. right. eexists. split; reflexivity. }
    erewrite (bind_ok (Start env));
      [|unfold Start; rewrite Hstart; reflexivity].
    right.
    assert (Hrest : steps keepsProcs (rest ≫= λ _, firstStop p)).
    { unfold rest, firstStop, newDAPClient. steps_split. }
    specialize (Hrest (started p w)). rewrite bind_eq in Hrest. exact Hrest.
  - pose proof (checkDebugParams_world p w) as Hw. rewrite Hcheck in Hw.
    simpl in Hw. subst w0. left. split; [done | by left].
Qed.

(** X20.  A [debug] call followed by [stop] leaves no process running
    that was not running before the [debug] call, wherever [debug] failed
    or succeeded: the adapter that the call started is killed. *)
Theorem debug_then_stop_leaves_no_process env p w :
  running (stop tt (debug env p w).2).2 ⊆ running w.
Proof.
  rewrite stop_running.
  destruct (debug_processes env p w) as [[Hrun H]|(Hcmd & Hrun & _)].
  - destruct H as [->|(c & -> & Hc)].
    + destruct (cmd (ds w)) as [[a [pid|]]|]; try done.
      intros q [_ Hq]%list_elem_of_filter. done.
    + destruct c as [a proc]. simpl in Hc. subst proc. by rewrite Hrun.
  - rewrite Hcmd, Hrun. simpl.
    intros q [Hne Hq]%list_elem_of_filter.
    apply elem_of_app in Hq as [Hq|Hq]; [done|].
    apply list_elem_of_singleton in Hq. done.
Qed.

(** X21.  The breakpoints given to [debug] are not treated alike.  For a
    breakpoint with a function name the first response decides: a failed
    one fails the call with its message.  For a breakpoint with a file
    and a positive line one message is read and accepted whatever it is,
    a failed response or an event included, so a rejected file breakpoint
    goes unnoticed.  A breakpoint with neither is skipped: nothing is
    written or read for it. *)
Theorem initial_breakpoint_outcome bp w c :
  client (ds w) = Some c → nextWriteOk c →
  (BreakpointSpec.Function bp ≠ "" →
     (setInitialBreakpoint bp w).1 =
       match firstResponse (inbox c) with
       | Ok resp =>
           if dap.Response.Success resp then Ok tt
           else Err ("unable to set function breakpoint: " +:+
                     dap.Response.Message resp)
       | Err e => Err e
       end ∧
     inboxOf (setInitialBreakpoint bp w).2 = afterResponse (inbox c) ∧
     wire (setInitialBreakpoint bp w).2 =
       wire w ++ [SetFunctionBreakpointsRequest [BreakpointSpec.Function bp]]) ∧
  (fileBreakpoint bp → ∀ m, nextRead (inbox c) = RMsg m →
     (setInitialBreakpoint bp w).1 = Ok tt ∧
     inboxOf (setInitialBreakpoint bp w).2 = tail (inbox c) ∧
     wire (setInitialBreakpoint bp w).2 =
       wire w ++ [SetBreakpointsRequest (BreakpointSpec.File bp)
                                        [BreakpointSpec.Line bp]]) ∧
  (BreakpointSpec.Function bp = "" → ¬ fileBreakpoint bp →
     setInitialBreakpoint bp w = (Ok tt, w)).
Proof.
  intros Hc Hok. unfold setInitialBreakpoint. repeat apply conj.
  - intros Hfun. rewrite decide_True by done.
    destruct (send_next (SetFunctionBreakpointsRequest [BreakpointSpec.Function bp])
                w c Hc Hok) as (w1 & c1 & H1 & Hc1 & Hin1 & _ & Hw1).
    erewrite bind_ok by exact H1.
    destruct (validate_next "unable to set function breakpoint" w1 c1 Hc1)
      as (w2 & c2 & H2 & Hc2 & Hin2 & _ & Hw2).
    rewrite H2, Hin1. simpl.
    by rewrite (inboxOf_client _ _ Hc2), Hin2, Hin1, Hw2, Hw1.
  - intros (Hfun & Hfile & Hline) m Hm.
    rewrite decide_False by (by intros ?). rewrite decide_True by done.
    destruct (send_next (SetBreakpointsRequest (BreakpointSpec.File bp)
                           [BreakpointSpec.Line bp]) w c Hc Hok)
      as (w1 & c1 & H1 & Hc1 & Hin1 & _ & Hw1).
    erewrite bind_ok by exact H1.
    destruct (read_one w1 c1 Hc1) as (w2 & c2 & H2 & Hc2 & _ & Hin2 & Hw2).
    rewrite Hin1, Hm in H2. rewrite Hin1 in Hin2.
    erewrite bind_ok by exact H2. simpl.
    by rewrite (inboxOf_client _ _ Hc2), Hin2, Hw2, Hw1.
  - intros Hfun Hnot. rewrite decide_False by (by intros ?).
    by rewrite decide_False by (intros [Hfile Hline]; by apply Hnot).
Qed.

Lemma initial_breakpoint_outcome_witness :
  let w := deliver [RMsg (dap.SetBreakpointsResponse
                            (failedResponse "could not find file") [])]
                   sampleWorld in
  (setInitialBreakpoint mainBreakpoint w).1 = Ok tt ∧
  inboxOf (setInitialBreakpoint mainBreakpoint w).2 = [] ∧
  wire (setInitialBreakpoint mainBreakpoint w).2 =
    wire w ++ [SetBreakpointsRequest "main.go" [15%Z]].
Proof.
  intros w.
  refine (proj1 (proj2 (initial_breakpoint_outcome mainBreakpoint w
           {| addr := "localhost:9092"; sent := sentOf sampleWorld; sendErrs := [];
              inbox := inboxOf w; closed := false |} _ _)) _
           (dap.SetBreakpointsResponse (failedResponse "could not find file") []) _).
  - reflexivity.
  - intros e. discriminate.
  - split; [reflexivity|]. split; [discriminate|reflexivity].
  - reflexivity.
Defined.
